(** * Currency converter task client: a shallow embedding of [src/api.ts] and
    [src/index.ts]

    The program is a Node.js command-line client.  It validates the user's
    input, posts a code-execution task to a remote service, polls the task's
    status every two seconds and parses two decimal numbers out of the text
    the task printed.

    The embedding follows the source function by function:
    - JavaScript strings are sequences of UTF-16 code units ([jsstring]);
    - the two regular expressions and [String.prototype.replace]/[match] run
      on a small backtracking matcher with ECMAScript's greedy semantics;
    - JavaScript numbers are the kernel's binary64 floats;
    - [console], [process.exit], [setTimeout] and the HTTP client are effects
      of a state-and-outcome monad whose state holds the responses the remote
      service is going to give and the trace of effects performed so far. *)

From Stdlib Require Import String Ascii.
From Stdlib Require Import List NArith ZArith Bool Lia.
From Stdlib Require Import Floats.
Import ListNotations.

Set Implicit Arguments.
Set Warnings "-register-all".

(** A decimal literal such as [0.85] denotes the binary64 value nearest to
    it, as it does in the source. *)
Set Warnings "-inexact-float".

(* ================================================================== *)
(** * JavaScript strings and values *)
(* ================================================================== *)

Module Js.

(** A string is a finite sequence of 16-bit code units. *)
Definition jschar := N.
Definition jsstring := list jschar.

(** ASCII text of the source, as code units. *)
Definition js (s : string) : jsstring :=
  map N_of_ascii (list_ascii_of_string s).

(** The escape [\n] of the test's string literal. *)
Definition LF : jschar := 10%N.

Fixpoint str_eqb (a b : jsstring) : bool :=
  match a, b with
  | [], [] => true
  | x :: a', y :: b' => N.eqb x y && str_eqb a' b'
  | _, _ => false
  end.

(** [s.startsWith(p)]: on success, what follows the prefix. *)
Fixpoint strip_prefix (p s : jsstring) : option jsstring :=
  match p with
  | [] => Some s
  | x :: p' =>
      match s with
      | [] => None
      | y :: s' => if N.eqb x y then strip_prefix p' s' else None
      end
  end.

(** The values a JSON response body and its fields can hold.  The service
    answers with objects whose fields are strings (TaskID, Status, Stdout);
    [undefined] is what reading an absent field gives.  Numbers do not occur
    in those bodies and are left out of the value type. *)
Inductive jsval :=
| VUndefined
| VNull
| VBool (b : bool)
| VStr (s : jsstring)
| VObj (fields : list (jsstring * jsval)).

(** Own property lookup of an object. *)
Fixpoint lookup (k : jsstring) (fields : list (jsstring * jsval)) : option jsval :=
  match fields with
  | [] => None
  | (k', v) :: rest => if str_eqb k k' then Some v else lookup k rest
  end.

(** ToBoolean. *)
Definition truthy (v : jsval) : bool :=
  match v with
  | VUndefined | VNull => false
  | VBool b => b
  | VStr s => match s with [] => false | _ => true end
  | VObj _ => true
  end.

(** Whether ToString of the value returns.  An object of a JSON body is
    converted by the [toString] it inherits, unless it has an own property of
    that name: JSON can only give it a value that cannot be called, the
    inherited [valueOf] returns the object itself, and the conversion throws
    a TypeError. *)
Definition stringifies (v : jsval) : bool :=
  match v with
  | VObj fields =>
      match lookup (js "toString") fields with
      | Some _ => false
      | None => true
      end
  | _ => true
  end.

(** ToString, as used by template literals, of a value whose conversion
    returns. *)
Definition to_string (v : jsval) : jsstring :=
  match v with
  | VUndefined => js "undefined"
  | VNull => js "null"
  | VBool true => js "true"
  | VBool false => js "false"
  | VStr s => s
  | VObj _ => js "[object Object]"
  end.

(** [v === 'literal'] and the SameValueZero test of [Array.prototype.includes]
    against string literals: only a string with the same code units is equal. *)
Definition is_string (v : jsval) (lit : jsstring) : bool :=
  match v with
  | VStr s => str_eqb s lit
  | _ => false
  end.

Definition includes (lits : list jsstring) (v : jsval) : bool :=
  existsb (is_string v) lits.

(** [a ?? b]. *)
Definition nullish_or (a b : jsval) : jsval :=
  match a with
  | VUndefined | VNull => b
  | _ => a
  end.

End Js.
Import Js.

(* ================================================================== *)
(** * Regular expressions *)
(* ================================================================== *)

Module Regex.

(** The pattern syntax the program uses: literal characters, the classes
    [\d] and [.], concatenation, the greedy quantifiers [*] and [+], and one
    capturing group. *)
Inductive regex :=
| RStr (l : jsstring)            (* a run of literal pattern characters *)
| RSet (p : jschar -> bool)      (* a character class *)
| RSeq (r1 r2 : regex)
| RStar (r : regex)
| RPlus (r : regex)
| RGroup (r : regex).            (* ( r ), capture number 1 *)

(** [\d] is [0-9]. *)
Definition isDigit (c : jschar) : bool := (48 <=? c)%N && (c <=? 57)%N.

(** LineTerminator: LF, CR, LS, PS. *)
Definition isLineTerminator (c : jschar) : bool :=
  N.eqb c 10 || N.eqb c 13 || N.eqb c 8232 || N.eqb c 8233.

(** Without the [s] flag, [.] matches any code unit but a line terminator. *)
Definition notLineTerminator (c : jschar) : bool := negb (isLineTerminator c).

Definition RDigit : regex := RSet isDigit.
Definition RDot : regex := RSet notLineTerminator.

Section Matcher.

(** The result type of a whole match attempt. *)
Variable R : Type.

(** A continuation receives the rest of the input and capture 1. *)
Definition cont := jsstring -> option jsstring -> option R.

(** The repeat matcher of a greedy quantifier with no upper bound: try one
    more iteration first (an iteration that consumes nothing is rejected),
    and fall back to the continuation when that fails.  [fuel] bounds the
    number of iterations by the length of the input, which no sequence of
    consuming iterations can exceed. *)
Fixpoint repeat_greedy (step : jsstring -> option jsstring -> cont -> option R)
    (fuel : nat) (s : jsstring) (cap : option jsstring) (k : cont) : option R :=
  match fuel with
  | O => k s cap
  | S fuel' =>
      match step s cap (fun s' cap' =>
                if (length s' <? length s)%nat
                then repeat_greedy step fuel' s' cap' k
                else None) with
      | Some x => Some x
      | None => k s cap
      end
  end.

(** The backtracking matcher, in continuation-passing style. *)
Fixpoint m (r : regex) (s : jsstring) (cap : option jsstring) (k : cont)
    {struct r} : option R :=
  match r with
  | RStr l =>
      match strip_prefix l s with
      | Some s' => k s' cap
      | None => None
      end
  | RSet p =>
      match s with
      | c :: s' => if p c then k s' cap else None
      | [] => None
      end
  | RSeq r1 r2 => m r1 s cap (fun s' cap' => m r2 s' cap' k)
  | RStar r1 => repeat_greedy (m r1) (length s) s cap k
  | RPlus r1 =>
      m r1 s cap (fun s' cap' => repeat_greedy (m r1) (length s') s' cap' k)
  | RGroup r1 =>
      m r1 s cap (fun s' _ => k s' (Some (firstn (length s - length s') s)))
  end.

End Matcher.

(** What [RegExp.prototype.exec] reports of a match. *)
Record match_result := {
  index : nat;                   (* where the match starts *)
  whole : jsstring;              (* element 0: the matched text *)
  group1 : option jsstring       (* element 1: the capture, when it took part *)
}.

(** A match attempt anchored at the start of [s]. *)
Definition match_here (r : regex) (s : jsstring)
  : option (jsstring * option jsstring) :=
  m r s None (fun rest cap => Some (rest, cap)).

(** [exec] of a non-global pattern: the first start index, from 0 up to the
    length of the input, at which an attempt succeeds. *)
Fixpoint exec_at (r : regex) (i : nat) (s : jsstring) : option match_result :=
  match match_here r s with
  | Some (rest, cap) =>
      Some {| index := i;
              whole := firstn (length s - length rest) s;
              group1 := cap |}
  | None =>
      match s with
      | [] => None
      | _ :: t => exec_at r (S i) t
      end
  end.

Definition exec (r : regex) (s : jsstring) : option match_result :=
  exec_at r 0 s.

(** [s.match(r)] for a pattern without the [g] flag. *)
Definition str_match (s : jsstring) (r : regex) : option match_result :=
  exec r s.

(** [s.replace(r, replacement)] for a pattern without the [g] flag and a
    replacement text without [$]: only the first match is replaced. *)
Definition str_replace (s : jsstring) (r : regex) (replacement : jsstring)
  : jsstring :=
  match exec r s with
  | None => s
  | Some mr =>
      firstn (index mr) s ++ replacement
        ++ skipn (index mr + length (whole mr)) s
  end.

End Regex.
Import Regex.

(* ================================================================== *)
(** * Numbers *)
(* ================================================================== *)

Module JsNumber.

(** A JavaScript number is an IEEE 754 binary64 value. *)
Definition number := float.

(** The longest prefix whose code units satisfy [p], and the rest. *)
Fixpoint span (p : jschar -> bool) (s : jsstring) : jsstring * jsstring :=
  match s with
  | [] => ([], [])
  | c :: t =>
      if p c then let (a, b) := span p t in (c :: a, b) else ([], s)
  end.

Fixpoint dropWhile (p : jschar -> bool) (s : jsstring) : jsstring :=
  match s with
  | [] => []
  | c :: t => if p c then dropWhile p t else s
  end.

(** The mathematical value of a run of decimal digits. *)
Definition digits_value (ds : jsstring) : Z :=
  fold_left (fun acc c => 10 * acc + (Z.of_N c - 48))%Z ds 0%Z.

(** The number value of the non-negative rational [num / den]: the binary64
    value nearest to it, ties to even.  The quotient of the two integers is
    rounded once, by the division of the float specification. *)
Definition round_ratio (neg : bool) (num den : Z) : number :=
  match num, den with
  | Zpos n, Zpos d =>
      SF2Prim (SFdiv prec emax (S754_finite neg n 0) (S754_finite false d 0))
  | Z0, Zpos _ => if neg then neg_zero else zero
  | _, _ => nan
  end.

(** The number value of [digits * 10 ^ e10]. *)
Definition decimal_value (neg : bool) (digits : Z) (e10 : Z) : number :=
  if (0 <=? e10)%Z
  then round_ratio neg (digits * 10 ^ e10) 1
  else round_ratio neg digits (10 ^ (- e10)).

(** WhiteSpace and LineTerminator code units, which [parseFloat] skips at the
    start of its argument. *)
Definition isWhiteSpace (c : jschar) : bool :=
  existsb (N.eqb c)
    [9; 10; 11; 12; 13; 32; 160; 5760; 8192; 8193; 8194; 8195; 8196; 8197;
     8198; 8199; 8200; 8201; 8202; 8232; 8233; 8239; 8287; 12288; 65279]%N.

(** ExponentPart: [e] or [E], an optional sign, and at least one digit;
    gives the exponent, 0 when there is no exponent part. *)
Definition exponent_part (s : jsstring) : Z :=
  match s with
  | c :: t =>
      if N.eqb c 101 || N.eqb c 69 then
        let (eneg, u) :=
          match t with
          | d :: t' =>
              if N.eqb d 45 then (true, t')
              else if N.eqb d 43 then (false, t') else (false, t)
          | [] => (false, [])
          end in
        let (ds, _) := span isDigit u in
        if eneg then (- digits_value ds)%Z else digits_value ds
      else 0%Z
  | [] => 0%Z
  end.

(** [parseFloat(s)]: the number value of the longest prefix of the trimmed
    argument that is a StrDecimalLiteral, NaN when there is none. *)
Definition parseFloat (s : jsstring) : number :=
  let t := dropWhile isWhiteSpace s in
  let (neg, u) :=
    match t with
    | c :: t' =>
        if N.eqb c 45 then (true, t')
        else if N.eqb c 43 then (false, t') else (false, t)
    | [] => (false, [])
    end in
  match strip_prefix (js "Infinity") u with
  | Some _ => if neg then neg_infinity else infinity
  | None =>
      let (ip, r1) := span isDigit u in
      let (fp, r2) :=
        match r1 with
        | c :: r => if N.eqb c 46 then span isDigit r else ([], r1)
        | [] => ([], [])
        end in
      match ip ++ fp with
      | [] => nan
      | ds =>
          decimal_value neg (digits_value ds)
            (exponent_part r2 - Z.of_nat (length fp))
      end
  end.

(** [a <= b], [a >= b] and [a < b] on numbers: false as soon as one side
    is NaN. *)
Definition le (a b : number) : bool := PrimFloat.leb a b.
Definition ge (a b : number) : bool := le b a.
Definition lt (a b : number) : bool := PrimFloat.ltb a b.

(** A float of the specification that is strictly above zero: positive and
    finite, or plus infinity. *)
Definition sf_positive (x : spec_float) : bool :=
  match x with
  | S754_infinity false | S754_finite false _ _ => true
  | _ => false
  end.

End JsNumber.
Import JsNumber.

(* ================================================================== *)
(** * The process and its environment *)
(* ================================================================== *)

Module Process.

Inductive http_method := GET | POST.

(** A call of the HTTP client. *)
Record request := {
  method : http_method;
  url : jsstring;
  body : option jsval;
  headers : list (jsstring * jsval)
}.

(** What the environment gives back to one call: the service's answer (its
    status code and the body as the client delivers it in [response.data]),
    or no answer at all. *)
Inductive reply :=
| Reply (status : Z) (data : jsval)
| NetworkError (message : jsstring).

(** The observable effects, in the order they happen. *)
Inductive event :=
| EvRequest (r : request)
| EvLog (args : list jsval)          (* console.log *)
| EvError (args : list jsval)        (* console.error *)
| EvSleep (ms : Z)                   (* an awaited setTimeout *)
| EvExit (code : Z).                 (* process.exit *)

(** The state: the replies still to come, one per future request, and the
    trace of effects so far. *)
Record world := {
  pending : list reply;
  trace : list event
}.

(** The value a [catch] clause receives: the client's error carries the
    response, when there was one, and a message; a TypeError only a message. *)
Record error := {
  err_response : option jsval;       (* error.response.data *)
  err_message : jsstring
}.

(** How a computation ends. *)
Inductive outcome (A : Type) :=
| Returned (a : A)
| Threw (e : error)
| Exited (code : Z)                  (* the process is gone *)
| Pending.                           (* an awaited promise never settles *)

Arguments Returned {A} a.
Arguments Threw {A} e.
Arguments Exited {A} code.
Arguments Pending {A}.

Definition M (A : Type) := world -> outcome A * world.

Definition ret {A} (a : A) : M A := fun w => (Returned a, w).

Definition bind {A B} (c : M A) (k : A -> M B) : M B :=
  fun w =>
    match c w with
    | (Returned a, w') => k a w'
    | (Threw e, w') => (Threw e, w')
    | (Exited code, w') => (Exited code, w')
    | (Pending, w') => (Pending, w')
    end.

Definition throw {A} (e : error) : M A := fun w => (Threw e, w).

(** [try { c } catch (error) { handler }]: only a thrown value is caught;
    after [process.exit] there is nothing left to run the handler. *)
Definition try_catch {A} (c : M A) (handler : error -> M A) : M A :=
  fun w =>
    match c w with
    | (Threw e, w') => handler e w'
    | r => r
    end.

Definition emit (e : event) : M unit :=
  fun w => (Returned tt, {| pending := pending w; trace := trace w ++ [e] |}).

Definition console_log (args : list jsval) : M unit := emit (EvLog args).
Definition console_error (args : list jsval) : M unit := emit (EvError args).

(** [await new Promise((resolve) => setTimeout(resolve, ms))]. *)
Definition sleep (ms : Z) : M unit := emit (EvSleep ms).

(** [process.exit(code)] never returns. *)
Definition process_exit {A} (code : Z) : M A :=
  fun w => (Exited code, {| pending := pending w; trace := trace w ++ [EvExit code] |}).

(** A TypeError raised by the engine. *)
Definition type_error (message : jsstring) : error :=
  {| err_response := None; err_message := message |}.

(** [v.k] for the three field names the program reads: reading a property of
    [undefined] or [null] throws, an object gives its field or [undefined],
    and no other value has a property of one of these names. *)
Definition get_prop (v : jsval) (k : jsstring) : M jsval :=
  match v with
  | VObj fields =>
      ret (match lookup k fields with Some x => x | None => VUndefined end)
  | VUndefined | VNull =>
      throw (type_error (js "Cannot read properties of " ++ to_string v
                           ++ js " (reading '" ++ k ++ js "')"))
  | _ => ret VUndefined
  end.

(** The decimal text of a status code. *)
Fixpoint decimal_digits (fuel : nat) (n : N) (acc : jsstring) : jsstring :=
  match fuel with
  | O => acc
  | S fuel' =>
      let acc' := (48 + n mod 10)%N :: acc in
      if (n <? 10)%N then acc' else decimal_digits fuel' (n / 10)%N acc'
  end.

Definition decimal (z : Z) : jsstring :=
  let n := Z.abs_N z in
  (if (z <? 0)%Z then js "-" else [])
    ++ decimal_digits (S (N.to_nat (N.log2 n))) n [].

(** What the client hands to the caller. *)
Record response := {
  status : Z;
  data : jsval
}.

(** The client settles a response by [!response.status ||
    validateStatus(response.status)], with the default [validateStatus] of a
    status from 200 up to 299: status 0 resolves as well. *)
Definition resolves (st : Z) : bool :=
  ((st =? 0) || ((200 <=? st) && (st <? 300)))%Z.

(** One awaited call of the HTTP client: the call is recorded, the next
    reply is taken, and the promise resolves on a status that [resolves],
    rejects on any other status or when there is no answer, and stays
    pending when the environment has no reply left. *)
Definition axios_request (r : request) : M response :=
  fun w =>
    let w1 := {| pending := pending w; trace := trace w ++ [EvRequest r] |} in
    match pending w with
    | [] => (Pending, w1)
    | Reply st d :: rest =>
        let w2 := {| pending := rest; trace := trace w1 |} in
        if resolves st
        then (Returned {| status := st; data := d |}, w2)
        else (Threw {| err_response := Some d;
                       err_message :=
                         js "Request failed with status code " ++ decimal st |},
              w2)
    | NetworkError msg :: rest =>
        (Threw {| err_response := None; err_message := msg |},
         {| pending := rest; trace := trace w1 |})
    end.


(** The host of a URL, up to the path or the end of the text: labels of
    lower-case letters and digits separated by dots, none empty, the last one
    of letters only. *)
Definition isLower (c : jschar) : bool := ((97 <=? c) && (c <=? 122))%N.

Fixpoint plain_host (nonempty letters : bool) (s : jsstring) : bool :=
  match s with
  | [] => nonempty && letters
  | c :: rest =>
      if N.eqb c 47 then nonempty && letters
      else if N.eqb c 46 then nonempty && plain_host false true rest
      else if isLower c then plain_host true letters rest
      else if isDigit c then plain_host true false rest
      else false
  end.

(** An absolute URL every URL parser accepts: [http://] or [https://], a
    host as above, and then nothing or a slash followed by anything.  No
    step of the parse after the host can fail, so such a text is a URL
    whatever follows the slash. *)
Definition plain_http_url (s : jsstring) : bool :=
  match strip_prefix (js "https://") s with
  | Some rest => plain_host false true rest
  | None =>
      match strip_prefix (js "http://") s with
      | Some rest => plain_host false true rest
      | None => false
      end
  end.

(** The text has a colon. *)
Definition has_colon (s : jsstring) : bool := existsb (N.eqb 58) s.

(** The client sends a request only for a text that it can parse as an
    absolute URL.  A plain URL always is one; a text without a colon has no
    scheme and never is one; what the parser makes of any other text is the
    parameter [accepts]. *)
Definition client_sends (accepts : jsstring -> bool) (s : jsstring) : bool :=
  plain_http_url s || (has_colon s && accepts s).

(** [axios.post(url, data, { headers })], called with a string. *)
Definition axios_post (accepts : jsstring -> bool) (u : jsstring) (d : jsval)
    (h : list (jsstring * jsval)) : M response :=
  if client_sends accepts u
  then axios_request {| method := POST; url := u; body := Some d; headers := h |}
  else throw (type_error (js "Invalid URL")).

(** [axios.get(url, { headers })].  A URL that is not a string, or a string
    the client cannot parse as an absolute URL, is rejected before anything
    is sent. *)
Definition axios_get (accepts : jsstring -> bool) (u : jsval)
    (h : list (jsstring * jsval)) : M response :=
  match u with
  | VStr s =>
      if client_sends accepts s
      then axios_request {| method := GET; url := s; body := None; headers := h |}
      else throw (type_error (js "Invalid URL"))
  | _ => throw (type_error (js "Invalid URL"))
  end.

(** The value [v] in a template literal: ToString of an object with an own
    [toString] property throws a TypeError. *)
Definition template (v : jsval) : M jsstring :=
  if stringifies v then ret (to_string v)
  else throw (type_error (js "Cannot convert object to primitive value")).

End Process.
Import Process.

Declare Scope proc_scope.
Delimit Scope proc_scope with proc.
Notation "x <- c ;; k" := (bind c (fun x => k))
  (at level 61, c at next level, right associativity) : proc_scope.
Notation "c ;; k" := (bind c (fun _ => k))
  (at level 61, right associativity) : proc_scope.
Open Scope proc_scope.

(* ================================================================== *)
(** * [src/api.ts] *)
(* ================================================================== *)

Module Api.

Definition API_BASE_URL : jsstring := js "https://api.signaloid.io".

(** The parsed output: [{ rate, convertedAmount }]. *)
Record conversion := {
  rate : number;
  convertedAmount : number
}.

(** [/Ux.*/] *)
Definition reSentinel : regex := RSeq (RStr (js "Ux")) (RStar RDot).

(** [/Uncertain conversion rate: (\d+\.\d+)/] *)
Definition reRate : regex :=
  RSeq (RStr (js "Uncertain conversion rate: "))
       (RGroup (RSeq (RPlus RDigit) (RSeq (RStr (js ".")) (RPlus RDigit)))).

(** [/Converted Amount: (\d+\.\d+)/] *)
Definition reAmount : regex :=
  RSeq (RStr (js "Converted Amount: "))
       (RGroup (RSeq (RPlus RDigit) (RSeq (RStr (js ".")) (RPlus RDigit)))).

(** [match[1]]: capture 1 of a match, [undefined] when it took no part;
    [parseFloat] is then applied to its text. *)
Definition capture1 (mr : match_result) : jsstring :=
  match group1 mr with
  | Some s => s
  | None => js "undefined"
  end.

Section WithKey.

(** [process.env.SIGNALOID_API_KEY], which the module checks to be set
    before any function can be called. *)
Variable API_KEY : jsstring.

(** What the HTTP client's URL parser takes besides the plain URLs. *)
Variable accepts : jsstring -> bool.

Definition handleApiError {A} (error : error) (message : jsstring) : M A :=
  console_error
    [VStr (message ++ js ":");
     nullish_or
       (match err_response error with Some d => d | None => VUndefined end)
       (VStr (err_message error))] ;;
  process_exit 1.

Definition createHeaders : list (jsstring * jsval) :=
  [(js "Content-Type", VStr (js "application/json"));
   (js "Authorization", VStr API_KEY)].

Definition postTask (applicationCode args : jsstring) : M jsval :=
  let taskRequest :=
    VObj [(js "Type", VStr (js "SourceCode"));
          (js "SourceCode",
           VObj [(js "Object", VStr (js "SourceCode"));
                 (js "Code", VStr applicationCode);
                 (js "Arguments", VStr args);
                 (js "Language", VStr (js "C"))])] in
  try_catch
    (response <- axios_post accepts (API_BASE_URL ++ js "/tasks") taskRequest
                   createHeaders ;;
     get_prop (data response) (js "TaskID"))
    (fun error => handleApiError error (js "Error submitting task")).

Definition submitTask (applicationCode args : jsstring) : M jsval :=
  taskId <- postTask applicationCode args ;;
  shown <- template taskId ;;
  console_log [VStr (js "Task submitted. Task ID: " ++ shown)] ;;
  ret taskId.

Definition fetchTaskStatus (taskId : jsval) : M jsval :=
  try_catch
    (id <- template taskId ;;
     response <- axios_get accepts
                   (VStr (API_BASE_URL ++ js "/tasks/" ++ id))
                   createHeaders ;;
     get_prop (data response) (js "Status"))
    (fun error => handleApiError error (js "Error checking task status")).

(** The body of [while (true)], run at most [fuel] times. *)
Fixpoint waitLoop (fuel : nat) (taskId : jsval) : M unit :=
  match fuel with
  | O => fun w => (Pending, w)
  | S fuel' =>
      status <- fetchTaskStatus taskId ;;
      if includes [js "Cancelled"; js "Stopped"] status then
        shown <- template status ;;
        console_error [VStr (js "Task is " ++ shown ++ js ".")] ;;
        process_exit 1
      else if is_string status (js "Completed") then
        console_log [VStr (js "Task status: Completed")] ;;
        ret tt
      else
        shown <- template status ;;
        console_log [VStr (js "Task status: " ++ shown)] ;;
        sleep 2000 ;;
        waitLoop fuel' taskId
  end.

(** Every iteration that goes round again has consumed one reply, and an
    iteration that finds no reply stays pending: one iteration more than
    there are replies is as many as the loop can ever run. *)
Definition waitForTaskCompletion (taskId : jsval) : M unit :=
  fun w => waitLoop (S (length (pending w))) taskId w.

Definition fetchOutputStream (outputUrl : jsval) : M jsval :=
  try_catch
    (response <- axios_get accepts outputUrl [] ;;
     ret (data response))
    (fun error => handleApiError error (js "Error fetching output stream")).

(** [const cleanOutput = stdout.replace(/Ux.*/, '')] *)
Definition cleanOutput (stdout : jsstring) : jsstring :=
  str_replace stdout reSentinel [].

Definition extractOutput (stdout : jsstring) : M conversion :=
  let cleanOutput := cleanOutput stdout in
  let conversionRateMatch := str_match cleanOutput reRate in
  let convertedAmountMatch := str_match cleanOutput reAmount in
  match conversionRateMatch, convertedAmountMatch with
  | Some conversionRateMatch, Some convertedAmountMatch =>
      ret {| rate := parseFloat (capture1 conversionRateMatch);
             convertedAmount := parseFloat (capture1 convertedAmountMatch) |}
  | _, _ =>
      console_error
        [VStr (js "Failed to extract conversion rate or converted amount")] ;;
      process_exit 1
  end.

(** [extractOutput(stdout)] on the downloaded body: the method call
    [stdout.replace] throws a TypeError on a body that is not a string. *)
Definition extractOutput_of (stdout : jsval) : M conversion :=
  match stdout with
  | VStr s => extractOutput s
  | VUndefined | VNull =>
      throw (type_error (js "Cannot read properties of " ++ to_string stdout
                           ++ js " (reading 'replace')"))
  | _ => throw (type_error (js "stdout.replace is not a function"))
  end.

Definition getTaskOutput (taskId : jsval) : M conversion :=
  try_catch
    (id <- template taskId ;;
     response <- axios_get accepts
                   (VStr (API_BASE_URL ++ js "/tasks/" ++ id ++ js "/outputs"))
                   createHeaders ;;
     Stdout <- get_prop (data response) (js "Stdout") ;;
     (if negb (truthy Stdout) then
        console_error [VStr (js "No output found for the task.")] ;;
        process_exit 1
      else ret tt) ;;
     stdout <- fetchOutputStream Stdout ;;
     extractOutput_of stdout)
    (fun error => handleApiError error (js "Error getting task output")).

End WithKey.

End Api.

(* ================================================================== *)
(** * [src/index.ts] *)
(* ================================================================== *)

Module Index.

Definition validateInput (sourceCurrency targetCurrency : jsstring)
    (rateMin rateMax amount : number) : M unit :=
  (if str_eqb sourceCurrency targetCurrency then
     console_error
       [VStr (js "Error: Source and target currencies cannot be the same.")] ;;
     process_exit 1
   else ret tt) ;;
  (if ge rateMin rateMax then
     console_error
       [VStr (js "Error: Minimum rate must be less than maximum rate.")] ;;
     process_exit 1
   else ret tt) ;;
  (if le amount 0%float then
     console_error [VStr (js "Error: Amount must be a positive number.")] ;;
     process_exit 1
   else ret tt) ;;
  (if le rateMin 0%float || le rateMax 0%float then
     console_error [VStr (js "Error: Rates must be positive numbers.")] ;;
     process_exit 1
   else ret tt).

Section WithKey.

Variable API_KEY : jsstring.
Variable accepts : jsstring -> bool.

Definition executeTask (applicationCode args : jsstring) : M Api.conversion :=
  taskId <- Api.submitTask API_KEY accepts applicationCode args ;;
  Api.waitForTaskCompletion API_KEY accepts taskId ;;
  Api.getTaskOutput API_KEY accepts taskId.

End WithKey.

End Index.

(* ================================================================== *)
(** * Direct descriptions of the texts the patterns accept *)
(* ================================================================== *)

(** These functions scan the text without a regular expression.  They are
    what the theorems below are stated with; each is proved equal to the
    outcome of the matcher on the corresponding pattern. *)

Module Scan.

(** [s.includes(marker)]. *)
Fixpoint contains (marker s : jsstring) : bool :=
  match strip_prefix marker s with
  | Some _ => true
  | None =>
      match s with
      | [] => false
      | _ :: t => contains marker t
      end
  end.

(** The cleaning as the specification words it: everything from the first
    occurrence of the marker onward is discarded. *)
Fixpoint discard_from (marker s : jsstring) : jsstring :=
  match strip_prefix marker s with
  | Some _ => []
  | None =>
      match s with
      | [] => []
      | c :: t => c :: discard_from marker t
      end
  end.

(** The cleaning as the pattern [/Ux.*/] performs it: the first occurrence of
    the marker is removed together with the rest of its line. *)
Fixpoint drop_to_line_end (marker s : jsstring) : jsstring :=
  match strip_prefix marker s with
  | Some t => dropWhile notLineTerminator t
  | None =>
      match s with
      | [] => []
      | c :: t => c :: drop_to_line_end marker t
      end
  end.

(** Empty, or starting with a line terminator. *)
Definition at_line_end (s : jsstring) : bool :=
  match s with
  | [] => true
  | c :: _ => isLineTerminator c
  end.

(** A text that starts with digits, a dot and digits: that prefix, with the
    digit runs as long as they go, and what follows it. *)
Definition scan_decimal (s : jsstring) : option (jsstring * jsstring) :=
  let (ip, r1) := span isDigit s in
  match ip, r1 with
  | _ :: _, c :: r =>
      if N.eqb c 46 then
        let (fp, r2) := span isDigit r in
        match fp with
        | _ :: _ => Some (ip ++ [46%N] ++ fp, r2)
        | [] => None
        end
      else None
  | _, _ => None
  end.

(** The first place where [label] is followed by digits, a dot and digits. *)
Fixpoint find_labelled (label : jsstring) (i : nat) (s : jsstring)
  : option match_result :=
  match match strip_prefix label s with
        | Some t => scan_decimal t
        | None => None
        end with
  | Some (cap, _) =>
      Some {| index := i; whole := label ++ cap; group1 := Some cap |}
  | None =>
      match s with
      | [] => None
      | _ :: t => find_labelled label (S i) t
      end
  end.

(** The whole text is one or more digits, a dot, one or more digits. *)
Definition decimal_shape (s : jsstring) : bool :=
  let (ip, r1) := span isDigit s in
  match ip, r1 with
  | _ :: _, c :: (_ :: _) as fp => N.eqb c 46 && forallb isDigit fp
  | _, _ => false
  end.

(** The text does not start with a digit. *)
Definition no_digit_next (s : jsstring) : bool :=
  match s with
  | [] => true
  | c :: _ => negb (isDigit c)
  end.

(** A value written without a fractional part: after its leading digits
    comes the end of the text, a character other than the dot, or a dot
    that no digit follows. *)
Definition no_fraction (v : jsstring) : bool :=
  match span isDigit v with
  | (_ :: _, []) => true
  | (_ :: _, c :: r) => negb (N.eqb c 46) || no_digit_next r
  | ([], _) => false
  end.

(** A value written with a minus sign. *)
Definition negative (v : jsstring) : bool :=
  match v with
  | c :: _ => N.eqb c 45
  | [] => false
  end.

(** A value that starts with the dot. *)
Definition leading_dot (v : jsstring) : bool :=
  match v with
  | c :: _ => N.eqb c 46
  | [] => false
  end.

(** A value the patterns cannot take: one that does not start with one or
    more digits, a dot and a digit. *)
Definition not_decimal (v : jsstring) : bool :=
  match scan_decimal v with
  | Some _ => false
  | None => true
  end.

(** [P] holds of what follows [label] at each of its occurrences in [s]. *)
Fixpoint every_occurrence (label : jsstring) (P : jsstring -> bool)
    (s : jsstring) : bool :=
  match strip_prefix label s with
  | Some v => P v
  | None => true
  end
  && match s with
     | [] => true
     | _ :: t => every_occurrence label P t
     end.

(** No occurrence of [label] that starts inside [pre] is followed, in
    [pre ++ s], by a value the patterns can take. *)
Fixpoint none_before (label pre s : jsstring) : bool :=
  match pre with
  | [] => true
  | _ :: pre' =>
      match strip_prefix label (pre ++ s) with
      | Some v => not_decimal v
      | None => true
      end
      && none_before label pre' s
  end.

End Scan.
Import Scan.

(* ================================================================== *)
(** * Names for the requests, replies and texts of the statements *)
(* ================================================================== *)

Module Scenario.

Definition rateLabel : jsstring := js "Uncertain conversion rate: ".
Definition amountLabel : jsstring := js "Converted Amount: ".

(** The shape of both extraction patterns: [/label(\d+\.\d+)/]. *)
Definition labelled (label : jsstring) : regex :=
  RSeq (RStr label)
       (RGroup (RSeq (RPlus RDigit) (RSeq (RStr (js ".")) (RPlus RDigit)))).

(** The failure of [extractOutput]. *)
Definition extractFailure : list event :=
  [EvError [VStr (js "Failed to extract conversion rate or converted amount")];
   EvExit 1].

(** The failure of [validateInput]: one error line, then the exit. *)
Definition validationFailure (message : jsstring) : list event :=
  [EvError [VStr message]; EvExit 1].

(** The world after further events. *)
Definition after (w : world) (evs : list event) : world :=
  {| pending := pending w; trace := trace w ++ evs |}.

(** A world in which nothing has happened and no reply is to come. *)
Definition idle : world := {| pending := []; trace := [] |}.

(** A realistic output: the marker and a distribution code follow the first
    number on its line. *)
Definition stdoutAnnotated : jsstring :=
  js "Uncertain conversion rate: 0.85" ++ js "Ux" ++ js "04AB"
    ++ ([LF] ++ js "Converted Amount: 85.00").

(** The text of the test: ["Uncertain conversion rate: 0.85\nConverted Amount: 85.00"]. *)
Definition stdoutData : jsstring :=
  js "Uncertain conversion rate: 0.85" ++ [LF] ++ js "Converted Amount: 85.00".

(** The same text after a first line that starts with the marker. *)
Definition stdoutMarkerFirst : jsstring :=
  js "Ux" ++ [LF] ++ stdoutData.

(** A rate in scientific notation. *)
Definition stdoutScientific : jsstring :=
  js "Uncertain conversion rate: 8.5e-1" ++ [LF] ++ js "Converted Amount: 85.00".

(** An amount without a fractional part. *)
Definition stdoutInteger : jsstring :=
  js "Uncertain conversion rate: 0.85" ++ [LF] ++ js "Converted Amount: 85".

(** The requests of a trace, and the sleeps of a trace, in order. *)
Definition requests (evs : list event) : list request :=
  flat_map (fun e => match e with EvRequest r => [r] | _ => [] end) evs.

Definition sleeps (evs : list event) : list Z :=
  flat_map (fun e => match e with EvSleep ms => [ms] | _ => [] end) evs.

(** A 2xx status code. *)
Definition is2xx (st : Z) : bool := ((200 <=? st) && (st <? 300))%Z.

(** A non-terminal status: none of the three the poller stops at. *)
Definition nonterminal (s : jsstring) : bool :=
  negb (includes [js "Cancelled"; js "Stopped"] (VStr s))
  && negb (is_string (VStr s) (js "Completed")).

Section WithKey.

Variable API_KEY : jsstring.

(** [POST /tasks]. *)
Definition submitRequest (applicationCode args : jsstring) : request :=
  {| method := POST;
     url := js "https://api.signaloid.io/tasks";
     body := Some (VObj [(js "Type", VStr (js "SourceCode"));
                         (js "SourceCode",
                          VObj [(js "Object", VStr (js "SourceCode"));
                                (js "Code", VStr applicationCode);
                                (js "Arguments", VStr args);
                                (js "Language", VStr (js "C"))])]);
     headers := Api.createHeaders API_KEY |}.

(** [GET /tasks/{id}]. *)
Definition statusRequest (taskId : jsstring) : request :=
  {| method := GET;
     url := js "https://api.signaloid.io/tasks/" ++ taskId;
     body := None;
     headers := Api.createHeaders API_KEY |}.

(** [GET /tasks/{id}/outputs]. *)
Definition outputsRequest (taskId : jsstring) : request :=
  {| method := GET;
     url := js "https://api.signaloid.io/tasks/" ++ taskId ++ js "/outputs";
     body := None;
     headers := Api.createHeaders API_KEY |}.

(** The download of the text artifact. *)
Definition downloadRequest (stdoutUrl : jsstring) : request :=
  {| method := GET; url := stdoutUrl; body := None; headers := [] |}.

(** The answer [200 { Status: s }]. *)
Definition statusReply (s : jsstring) : reply :=
  Reply 200 (VObj [(js "Status", VStr s)]).

(** One round of the poller on a non-terminal status: the query, the log
    line, the two-second sleep. *)
Definition pollRound (taskId s : jsstring) : list event :=
  [EvRequest (statusRequest taskId);
   EvLog [VStr (js "Task status: " ++ s)];
   EvSleep 2000].

Definition pollRounds (taskId : jsstring) (statuses : list jsstring)
  : list event :=
  flat_map (pollRound taskId) statuses.

(** The last round on [Completed]: the query and the log line. *)
Definition completedRound (taskId : jsstring) : list event :=
  [EvRequest (statusRequest taskId);
   EvLog [VStr (js "Task status: Completed")]].

(** The last round on [Cancelled] or [Stopped]: the query, the error line,
    the exit with status 1. *)
Definition abandonedRound (taskId final : jsstring) : list event :=
  [EvRequest (statusRequest taskId);
   EvError [VStr (js "Task is " ++ final ++ js ".")];
   EvExit 1].

(** The submission: the request and the confirmation line. *)
Definition submission (applicationCode args taskId : jsstring) : list event :=
  [EvRequest (submitRequest applicationCode args);
   EvLog [VStr (js "Task submitted. Task ID: " ++ taskId)]].

(** The failure of [getTaskOutput] on metadata without a usable Stdout:
    the metadata query, the error line, the exit with status 1. *)
Definition noOutput (taskId : jsstring) : list event :=
  [EvRequest (outputsRequest taskId);
   EvError [VStr (js "No output found for the task.")];
   EvExit 1].

End WithKey.

End Scenario.
Import Scenario.

(* ================================================================== *)
(** * Strings *)
(* ================================================================== *)

Section StringFacts.

Lemma str_eqb_refl (a : jsstring) : str_eqb a a = true.
Proof.
  induction a as [|x a IH]; simpl; [reflexivity|].
  now rewrite N.eqb_refl, IH.
Qed.

Lemma str_eqb_eq (a b : jsstring) : str_eqb a b = true <-> a = b.
Proof.
  split.
  - revert b; induction a as [|x a IH]; intros [|y b] H; simpl in H;
      try discriminate; [reflexivity|].
    apply andb_true_iff in H as [Hx Hr].
    apply N.eqb_eq in Hx. now rewrite Hx, (IH b Hr).
  - intros <-. apply str_eqb_refl.
Qed.

Lemma str_eqb_neq (a b : jsstring) : a <> b -> str_eqb a b = false.
Proof.
  intros H. destruct (str_eqb a b) eqn:E; [|reflexivity].
  apply str_eqb_eq in E. contradiction.
Qed.

Lemma strip_prefix_Some (p s t : jsstring) :
  strip_prefix p s = Some t -> s = p ++ t.
Proof.
  revert s; induction p as [|x p IH]; intros s H; simpl in H.
  - now inversion H.
  - destruct s as [|y s]; [discriminate|].
    destruct (N.eqb x y) eqn:E; [|discriminate].
    apply N.eqb_eq in E; subst y. simpl. f_equal. now apply IH.
Qed.

Lemma span_spec (p : jschar -> bool) (s : jsstring) :
  s = fst (span p s) ++ snd (span p s)
  /\ forallb p (fst (span p s)) = true
  /\ match snd (span p s) with [] => True | c :: _ => p c = false end.
Proof.
  induction s as [|c s IH]; simpl; [auto|].
  destruct (p c) eqn:E.
  - destruct (span p s) as [a b]; simpl in *.
    destruct IH as (H1 & H2 & H3). repeat split; [now f_equal| |assumption].
    now rewrite E.
  - simpl. auto.
Qed.

Lemma span_dropWhile (p : jschar -> bool) (s : jsstring) :
  snd (span p s) = dropWhile p s.
Proof.
  induction s as [|c s IH]; simpl; [reflexivity|].
  destruct (p c); [|reflexivity].
  destruct (span p s); simpl in *; assumption.
Qed.

(** A run of [p] followed by the end or by a character outside [p] is the
    span of the text. *)
Lemma span_app (p : jschar -> bool) (a b : jsstring) :
  forallb p a = true ->
  match b with [] => True | c :: _ => p c = false end ->
  span p (a ++ b) = (a, b).
Proof.
  intros Ha Hb. induction a as [|x a IH]; simpl in *.
  - destruct b as [|c b]; simpl; [reflexivity|]. now rewrite Hb.
  - apply andb_true_iff in Ha as [Hx Ha]. rewrite Hx, (IH Ha). reflexivity.
Qed.

Lemma dropWhile_app (p : jschar -> bool) (a b : jsstring) :
  forallb p a = true ->
  match b with [] => True | c :: _ => p c = false end ->
  dropWhile p (a ++ b) = b.
Proof.
  intros Ha Hb. rewrite <- span_dropWhile, (span_app p a b Ha Hb). reflexivity.
Qed.

End StringFacts.

(* ================================================================== *)
(** * The matcher on the program's patterns *)
(* ================================================================== *)

Section MatcherFacts.

Variable R : Type.

(** A greedy run over a character class, when the continuation accepts what
    follows the longest run: the longest run is the one taken. *)
Lemma repeat_set_commit (p : jschar -> bool) (k : cont R) (x : R) :
  forall fuel s cap,
    length s <= fuel ->
    k (dropWhile p s) cap = Some x ->
    repeat_greedy (m (RSet p)) fuel s cap k = Some x.
Proof.
  induction fuel as [|fuel IH]; intros s cap Hlen Hk.
  - destruct s; [exact Hk | simpl in Hlen; lia].
  - destruct s as [|c s]; simpl in *; [now rewrite Hk|].
    destruct (p c) eqn:E.
    + assert (Hlt : (length s <? S (length s)) = true) by (apply Nat.ltb_lt; lia).
      rewrite Hlt, (IH s cap); [reflexivity | lia | exact Hk].
    + exact Hk.
Qed.

(** A greedy run over a character class, when the continuation rejects
    every text that starts inside the class: giving back characters of the
    run never helps, so the outcome is that of the longest run. *)
Lemma repeat_set_exact (p : jschar -> bool) (k : cont R) :
  forall fuel s cap,
    length s <= fuel ->
    (forall c t, p c = true -> k (c :: t) cap = None) ->
    repeat_greedy (m (RSet p)) fuel s cap k = k (dropWhile p s) cap.
Proof.
  induction fuel as [|fuel IH]; intros s cap Hlen Hk.
  - destruct s; [reflexivity | simpl in Hlen; lia].
  - destruct s as [|c s]; simpl in *; [now destruct (k [] cap)|].
    destruct (p c) eqn:E; [|reflexivity].
    assert (Hlt : (length s <? S (length s)) = true) by (apply Nat.ltb_lt; lia).
    rewrite Hlt, (IH s cap); [|lia|exact Hk].
    destruct (k (dropWhile p s) cap); [reflexivity|].
    now apply Hk.
Qed.

(** The quantifier [+] over a character class, before a continuation that
    rejects every text starting inside the class. *)
Lemma plus_set_exact (p : jschar -> bool) (k : cont R) (s : jsstring)
    (cap : option jsstring) :
  (forall c t, p c = true -> k (c :: t) cap = None) ->
  m (RPlus (RSet p)) s cap k =
  match fst (span p s) with
  | [] => None
  | _ :: _ => k (snd (span p s)) cap
  end.
Proof.
  intros Hk. destruct s as [|c s]; [reflexivity|].
  change (m (RPlus (RSet p)) (c :: s) cap k)
    with (if p c then repeat_greedy (m (RSet p)) (length s) s cap k else None).
  simpl span. destruct (p c); [|reflexivity].
  rewrite repeat_set_exact by (auto; lia).
  rewrite <- span_dropWhile. now destruct (span p s).
Qed.

(** The quantifier [+] over a character class, before a continuation that
    accepts what follows the longest run. *)
Lemma plus_set_commit (p : jschar -> bool) (k : cont R) (s : jsstring)
    (cap : option jsstring) (x : R) :
  k (snd (span p s)) cap = Some x ->
  m (RPlus (RSet p)) s cap k =
  match fst (span p s) with
  | [] => None
  | _ :: _ => Some x
  end.
Proof.
  intros Hk. destruct s as [|c s]; [reflexivity|].
  change (m (RPlus (RSet p)) (c :: s) cap k)
    with (if p c then repeat_greedy (m (RSet p)) (length s) s cap k else None).
  simpl span in *. destruct (p c); [|reflexivity].
  assert (Hk' : k (dropWhile p s) cap = Some x).
  { rewrite <- Hk, <- span_dropWhile. now destruct (span p s). }
  erewrite repeat_set_commit; [|apply le_n|exact Hk'].
  now destruct (span p s).
Qed.

Lemma m_seq (r1 r2 : regex) (s : jsstring) (cap : option jsstring) (k : cont R) :
  m (RSeq r1 r2) s cap k = m r1 s cap (fun s' cap' => m r2 s' cap' k).
Proof. reflexivity. Qed.

Lemma m_str (l s : jsstring) (cap : option jsstring) (k : cont R) :
  m (RStr l) s cap k =
  match strip_prefix l s with Some s' => k s' cap | None => None end.
Proof. reflexivity. Qed.

Lemma m_group (r : regex) (s : jsstring) (cap : option jsstring) (k : cont R) :
  m (RGroup r) s cap k =
  m r s cap (fun s' _ => k s' (Some (firstn (length s - length s') s))).
Proof. reflexivity. Qed.

Lemma m_star_set (p : jschar -> bool) (s : jsstring) (cap : option jsstring)
    (k : cont R) :
  m (RStar (RSet p)) s cap k = repeat_greedy (m (RSet p)) (length s) s cap k.
Proof. reflexivity. Qed.

End MatcherFacts.

Section PatternFacts.

Lemma firstn_app_minus (a b : jsstring) :
  firstn (length (a ++ b) - length b) (a ++ b) = a.
Proof.
  rewrite length_app.
  replace (length a + length b - length b) with (length a) by lia.
  rewrite firstn_app, Nat.sub_diag, firstn_all. simpl. apply app_nil_r.
Qed.

(** An attempt of [/Ux.*/] at the start of [s]. *)
Lemma match_here_sentinel (s : jsstring) :
  match_here Api.reSentinel s =
  match strip_prefix (js "Ux") s with
  | Some t => Some (dropWhile notLineTerminator t, None)
  | None => None
  end.
Proof.
  unfold match_here, Api.reSentinel. rewrite m_seq, m_str.
  destruct (strip_prefix (js "Ux") s) as [t|]; [|reflexivity].
  unfold RDot. rewrite m_star_set. now apply repeat_set_commit.
Qed.

Lemma isDigit_not_dot (c : jschar) : isDigit c = true -> N.eqb 46 c = false.
Proof.
  unfold isDigit. intros H. apply andb_true_iff in H as [H1 _].
  apply N.leb_le in H1. apply N.eqb_neq. lia.
Qed.

Lemma strip_dot (s : jsstring) :
  strip_prefix (js ".") s =
  match s with
  | c :: r => if N.eqb c 46 then Some r else None
  | [] => None
  end.
Proof.
  destruct s as [|c r]; [reflexivity|].
  change (strip_prefix (js ".") (c :: r))
    with (if N.eqb 46 c then Some r else None).
  now rewrite N.eqb_sym.
Qed.

(** An attempt of [/label(\d+\.\d+)/] at the start of [s]. *)
Lemma match_here_labelled (label s : jsstring) :
  match_here (labelled label) s =
  match strip_prefix label s with
  | Some t =>
      match scan_decimal t with
      | Some (cap, rest) => Some (rest, Some cap)
      | None => None
      end
  | None => None
  end.
Proof.
  unfold match_here, labelled. rewrite m_seq, m_str.
  destruct (strip_prefix label s) as [t|]; [|reflexivity].
  rewrite m_group, m_seq. unfold RDigit.
  rewrite plus_set_exact.
  2:{ intros d u Hd. rewrite m_seq, m_str, strip_dot.
      rewrite N.eqb_sym, (isDigit_not_dot d Hd). reflexivity. }
  unfold scan_decimal.
  pose proof (span_spec isDigit t) as (Ht & _ & _).
  destruct (span isDigit t) as [ip r1]; simpl fst in *; simpl snd in *.
  destruct ip as [|x ip]; [reflexivity|].
  rewrite m_seq, m_str, strip_dot.
  destruct r1 as [|c r]; [reflexivity|].
  destruct (N.eqb c 46) eqn:Ec; [|reflexivity].
  apply N.eqb_eq in Ec; subst c.
  pose proof (span_spec isDigit r) as (Hr & _ & _).
  erewrite plus_set_commit by reflexivity.
  destruct (span isDigit r) as [fp r2]; simpl fst in *; simpl snd in *.
  destruct fp as [|y fp]; [reflexivity|].
  do 3 f_equal. rewrite Ht, Hr.
  change ((x :: ip) ++ 46%N :: (y :: fp) ++ r2)
    with ((x :: ip) ++ [46%N] ++ (y :: fp) ++ r2).
  rewrite !app_assoc, firstn_app_minus. now rewrite <- !app_assoc.
Qed.

Lemma exec_at_eq (r : regex) (i : nat) (s : jsstring) :
  exec_at r i s =
  match match_here r s with
  | Some (rest, cap) =>
      Some {| index := i;
              whole := firstn (length s - length rest) s;
              group1 := cap |}
  | None =>
      match s with
      | [] => None
      | _ :: t => exec_at r (S i) t
      end
  end.
Proof. destruct s; reflexivity. Qed.

Lemma find_labelled_eq (label : jsstring) (i : nat) (s : jsstring) :
  find_labelled label i s =
  match match strip_prefix label s with
        | Some t => scan_decimal t
        | None => None
        end with
  | Some (cap, _) =>
      Some {| index := i; whole := label ++ cap; group1 := Some cap |}
  | None =>
      match s with
      | [] => None
      | _ :: t => find_labelled label (S i) t
      end
  end.
Proof. destruct s; reflexivity. Qed.

(** What [scan_decimal] returns: a split of the text whose first part is
    digits, a dot, digits. *)
Lemma scan_decimal_Some (t cap rest : jsstring) :
  scan_decimal t = Some (cap, rest) ->
  t = cap ++ rest /\ decimal_shape cap = true.
Proof.
  unfold scan_decimal.
  pose proof (span_spec isDigit t) as (Ht & Hip & _).
  destruct (span isDigit t) as [ip r1]; simpl fst in *; simpl snd in *.
  destruct ip as [|x ip]; [discriminate|].
  destruct r1 as [|c r]; [discriminate|].
  destruct (N.eqb c 46) eqn:Ec; [|discriminate].
  apply N.eqb_eq in Ec; subst c.
  pose proof (span_spec isDigit r) as (Hr & Hfp & _).
  destruct (span isDigit r) as [fp r2]; simpl fst in *; simpl snd in *.
  destruct fp as [|y fp]; [discriminate|].
  intros H; inversion H; subst cap rest; clear H. split.
  - rewrite Ht, Hr. simpl. f_equal. now rewrite <- app_assoc.
  - unfold decimal_shape.
    change (x :: ip ++ 46%N :: y :: fp) with ((x :: ip) ++ 46%N :: y :: fp).
    rewrite (span_app isDigit (x :: ip) (46%N :: y :: fp) Hip eq_refl).
    exact Hfp.
Qed.

Lemma not_decimal_scan (v : jsstring) :
  not_decimal v = true -> scan_decimal v = None.
Proof.
  unfold not_decimal. now destruct (scan_decimal v).
Qed.

(** [exec] of an extraction pattern is the direct search. *)
Lemma exec_at_labelled (label : jsstring) :
  forall s i, exec_at (labelled label) i s = find_labelled label i s.
Proof.
  induction s as [|c s IH]; intros i;
    rewrite exec_at_eq, find_labelled_eq, match_here_labelled.
  - destruct (strip_prefix label []) as [t|] eqn:E; [|reflexivity].
    destruct (scan_decimal t) as [[cap rest]|] eqn:F; [|reflexivity].
    apply strip_prefix_Some in E. apply scan_decimal_Some in F as [F _].
    rewrite E, F, app_assoc, firstn_app_minus. reflexivity.
  - destruct (strip_prefix label (c :: s)) as [t|] eqn:E; [|apply IH].
    destruct (scan_decimal t) as [[cap rest]|] eqn:F; [|apply IH].
    apply strip_prefix_Some in E. apply scan_decimal_Some in F as [F _].
    rewrite E, F, app_assoc, firstn_app_minus. reflexivity.
Qed.

Lemma reRate_labelled : Api.reRate = labelled rateLabel.
Proof. reflexivity. Qed.

Lemma reAmount_labelled : Api.reAmount = labelled amountLabel.
Proof. reflexivity. Qed.

(** A successful search captured digits, a dot, digits, after the label. *)
Lemma find_labelled_Some (label : jsstring) :
  forall s i mr,
    find_labelled label i s = Some mr ->
    exists cap,
      group1 mr = Some cap /\ whole mr = label ++ cap
      /\ decimal_shape cap = true.
Proof.
  induction s as [|c s IH]; intros i mr; rewrite find_labelled_eq.
  - destruct (strip_prefix label []) as [t|]; [|discriminate].
    destruct (scan_decimal t) as [[cap rest]|] eqn:F; [|discriminate].
    intros H; inversion H; subst mr; clear H. exists cap.
    apply scan_decimal_Some in F as [_ F]. auto.
  - destruct (match strip_prefix label (c :: s) with
              | Some t => scan_decimal t
              | None => None
              end) as [[cap rest]|] eqn:F; [|apply IH].
    intros H; inversion H; subst mr; clear H. exists cap.
    destruct (strip_prefix label (c :: s)); [|discriminate].
    apply scan_decimal_Some in F as [_ F]. auto.
Qed.

(** The search fails when no occurrence of the label is followed by a
    value the pattern can take. *)
Lemma find_labelled_None (label : jsstring) :
  forall s i,
    every_occurrence label not_decimal s = true ->
    find_labelled label i s = None.
Proof.
  induction s as [|c s IH]; intros i H; rewrite find_labelled_eq;
    simpl in H; apply andb_true_iff in H as [H1 H2].
  - destruct (strip_prefix label []) as [t|]; [|reflexivity].
    now rewrite (not_decimal_scan t H1).
  - destruct (strip_prefix label (c :: s)) as [t|].
    + rewrite (not_decimal_scan t H1). now apply IH.
    + now apply IH.
Qed.

Lemma skipn_app_exact (a b : jsstring) : skipn (length a) (a ++ b) = b.
Proof. induction a; simpl; auto. Qed.

Lemma firstn_app_exact (a b : jsstring) : firstn (length a) (a ++ b) = a.
Proof. induction a; simpl; [reflexivity|now f_equal]. Qed.

(** Replacing the first match of [/Ux.*/] by the empty text, from start
    index [length pre] on. *)
Lemma replace_sentinel_from (s pre : jsstring) :
  match exec_at Api.reSentinel (length pre) s with
  | None => pre ++ s
  | Some mr =>
      firstn (index mr) (pre ++ s) ++ []
        ++ skipn (index mr + length (whole mr)) (pre ++ s)
  end = pre ++ drop_to_line_end (js "Ux") s.
Proof.
  revert pre; induction s as [|c s IH]; intros pre;
    rewrite exec_at_eq, match_here_sentinel.
  - reflexivity.
  - change (drop_to_line_end (js "Ux") (c :: s))
      with (match strip_prefix (js "Ux") (c :: s) with
            | Some t => dropWhile notLineTerminator t
            | None => c :: drop_to_line_end (js "Ux") s
            end).
    destruct (strip_prefix (js "Ux") (c :: s)) as [t|] eqn:E.
    + apply strip_prefix_Some in E. cbn [index whole].
      pose proof (span_spec notLineTerminator t) as (Ht & _ & _).
      rewrite span_dropWhile in Ht.
      generalize dependent (dropWhile notLineTerminator t); intros d Ht.
      generalize dependent (fst (span notLineTerminator t)); intros a Ht.
      assert (Hs : c :: s = (js "Ux" ++ a) ++ d)
        by (now rewrite E, Ht, app_assoc).
      rewrite Hs, firstn_app_minus, firstn_app_exact.
      rewrite <- length_app, (app_assoc pre (js "Ux" ++ a) d), skipn_app_exact. reflexivity.
    + specialize (IH (pre ++ [c])).
      rewrite length_app, Nat.add_comm in IH. simpl in IH.
      rewrite <- !app_assoc in IH. exact IH.
Qed.

(** The cleaning removes the first marker and the rest of its line. *)
Lemma cleanOutput_drop (stdout : jsstring) :
  Api.cleanOutput stdout = drop_to_line_end (js "Ux") stdout.
Proof.
  unfold Api.cleanOutput, str_replace, exec.
  exact (replace_sentinel_from stdout []).
Qed.

Lemma strip_Ux (s : jsstring) :
  strip_prefix (js "Ux") s =
  match s with
  | c :: d :: r => if N.eqb 85 c && N.eqb 120 d then Some r else None
  | _ => None
  end.
Proof.
  destruct s as [|c [|d r]].
  - reflexivity.
  - change (strip_prefix (js "Ux") [c]) with (if N.eqb 85 c then None else @None jsstring).
    now destruct (N.eqb 85 c).
  - change (strip_prefix (js "Ux") (c :: d :: r))
      with (if N.eqb 85 c then if N.eqb 120 d then Some r else None else None).
    now destruct (N.eqb 85 c).
Qed.

Lemma drop_to_line_end_absent (s : jsstring) :
  contains (js "Ux") s = false -> drop_to_line_end (js "Ux") s = s.
Proof.
  induction s as [|c s IH]; [reflexivity|].
  change (contains (js "Ux") (c :: s))
    with (match strip_prefix (js "Ux") (c :: s) with
          | Some _ => true
          | None => contains (js "Ux") s
          end).
  change (drop_to_line_end (js "Ux") (c :: s))
    with (match strip_prefix (js "Ux") (c :: s) with
          | Some t => dropWhile notLineTerminator t
          | None => c :: drop_to_line_end (js "Ux") s
          end).
  destruct (strip_prefix (js "Ux") (c :: s)); [discriminate|].
  intros H. now rewrite IH.
Qed.

Lemma drop_to_line_end_first (pre line rest : jsstring) :
  contains (js "Ux") pre = false ->
  forallb notLineTerminator line = true ->
  at_line_end rest = true ->
  drop_to_line_end (js "Ux") (pre ++ js "Ux" ++ line ++ rest) = pre ++ rest.
Proof.
  intros Hpre Hline Hrest.
  assert (Hd : dropWhile notLineTerminator (line ++ rest) = rest).
  { apply dropWhile_app; [assumption|].
    destruct rest as [|c rest]; [exact I|].
    simpl in Hrest. unfold notLineTerminator. now rewrite Hrest. }
  induction pre as [|c pre IH].
  - change (drop_to_line_end (js "Ux") ([] ++ js "Ux" ++ line ++ rest))
      with (dropWhile notLineTerminator (line ++ rest)).
    now rewrite Hd.
  - change (contains (js "Ux") (c :: pre))
      with (match strip_prefix (js "Ux") (c :: pre) with
            | Some _ => true
            | None => contains (js "Ux") pre
            end) in Hpre.
    change (drop_to_line_end (js "Ux") ((c :: pre) ++ js "Ux" ++ line ++ rest))
      with (match strip_prefix (js "Ux") (c :: pre ++ js "Ux" ++ line ++ rest) with
            | Some t => dropWhile notLineTerminator t
            | None => c :: drop_to_line_end (js "Ux") (pre ++ js "Ux" ++ line ++ rest)
            end).
    assert (E : strip_prefix (js "Ux") (c :: pre ++ js "Ux" ++ line ++ rest) = None).
    { rewrite strip_Ux. rewrite strip_Ux in Hpre. destruct pre as [|d pre].
      - change ([] ++ js "Ux" ++ line ++ rest) with (85%N :: 120%N :: line ++ rest).
        cbv beta iota. now destruct (N.eqb 85 c).
      - simpl app. cbv beta iota. cbv beta iota in Hpre.
        destruct (N.eqb 85 c && N.eqb 120 d); [discriminate Hpre|reflexivity]. }
    rewrite E. simpl. f_equal. apply IH.
    destruct (strip_prefix (js "Ux") (c :: pre)); [discriminate|exact Hpre].
Qed.

Lemma scan_decimal_rest (t cap rest : jsstring) :
  scan_decimal t = Some (cap, rest) ->
  match rest with [] => True | c :: _ => isDigit c = false end.
Proof.
  unfold scan_decimal.
  destruct (span isDigit t) as [ip r1].
  destruct ip as [|x ip]; [discriminate|].
  destruct r1 as [|c r]; [discriminate|].
  destruct (N.eqb c 46); [|discriminate].
  pose proof (span_spec isDigit r) as (_ & _ & Hr2).
  destruct (span isDigit r) as [fp r2]; simpl snd in *.
  destruct fp as [|y fp]; [discriminate|].
  intros H; inversion H; subst; exact Hr2.
Qed.

Lemma decimal_shape_split (cap : jsstring) :
  decimal_shape cap = true ->
  exists ip fp,
    cap = ip ++ [46%N] ++ fp
    /\ ip <> [] /\ fp <> []
    /\ forallb isDigit ip = true /\ forallb isDigit fp = true.
Proof.
  unfold decimal_shape.
  pose proof (span_spec isDigit cap) as (Hc & Hip & _).
  destruct (span isDigit cap) as [ip r1]; simpl fst in *; simpl snd in *.
  destruct ip as [|x ip]; [discriminate|].
  destruct r1 as [|c [|y fp]]; try discriminate.
  intros H. apply andb_true_iff in H as [Hdot Hfp].
  apply N.eqb_eq in Hdot; subst c.
  exists (x :: ip), (y :: fp). repeat split; try assumption; discriminate.
Qed.

End PatternFacts.

(* ================================================================== *)
(** * The output extractor *)
(* ================================================================== *)

(** An error line followed by the exit: both events are appended to the
    trace, in that order. *)
Ltac log_and_exit :=
  unfold bind, console_error, process_exit, emit, after,
    extractFailure, validationFailure;
  simpl; now rewrite <- app_assoc.

Section ExtractOutput.

(** [extractOutput], with the outcome of the two matches made explicit. *)
Lemma extractOutput_eq (stdout : jsstring) (w : world) :
  Api.extractOutput stdout w =
  match str_match (Api.cleanOutput stdout) Api.reRate,
        str_match (Api.cleanOutput stdout) Api.reAmount with
  | Some a, Some b =>
      (Returned {| Api.rate := parseFloat (Api.capture1 a);
                   Api.convertedAmount := parseFloat (Api.capture1 b) |}, w)
  | _, _ => (Exited 1, after w extractFailure)
  end.
Proof.
  unfold Api.extractOutput.
  destruct (str_match (Api.cleanOutput stdout) Api.reRate) as [a|];
    destruct (str_match (Api.cleanOutput stdout) Api.reAmount) as [b|];
    try reflexivity; log_and_exit.
Qed.

(** C1 (as amended).  The cleaning removes the first occurrence of the
    marker [Ux] together with the rest of its line only: the text before
    the marker and the text from the next line terminator on are kept, and
    a text without the marker is left as it is.  The two patterns are then
    applied to the cleaned text. *)
Theorem cleanOutput_removes_marker_to_line_end (stdout : jsstring) (w : world) :
  (contains (js "Ux") stdout = false -> Api.cleanOutput stdout = stdout)
  /\ (forall pre line rest,
        stdout = pre ++ js "Ux" ++ line ++ rest ->
        contains (js "Ux") pre = false ->
        forallb notLineTerminator line = true ->
        at_line_end rest = true ->
        Api.cleanOutput stdout = pre ++ rest)
  /\ Api.extractOutput stdout w =
     match str_match (Api.cleanOutput stdout) Api.reRate,
           str_match (Api.cleanOutput stdout) Api.reAmount with
     | Some a, Some b =>
         (Returned {| Api.rate := parseFloat (Api.capture1 a);
                      Api.convertedAmount := parseFloat (Api.capture1 b) |}, w)
     | _, _ => (Exited 1, after w extractFailure)
     end.
Proof.
  repeat split.
  - intros H. rewrite cleanOutput_drop. now apply drop_to_line_end_absent.
  - intros pre line rest -> Hpre Hline Hrest.
    rewrite cleanOutput_drop. now apply drop_to_line_end_first.
  - apply extractOutput_eq.
Qed.

(** The marker in the middle of the first line: the second line survives
    the cleaning. *)
Lemma cleanOutput_removes_marker_to_line_end_witness :
  Api.cleanOutput stdoutAnnotated = stdoutData.
Proof.
  apply (proj1 (proj2 (cleanOutput_removes_marker_to_line_end
                         stdoutAnnotated idle))
           (js "Uncertain conversion rate: 0.85") (js "04AB")
           ([LF] ++ js "Converted Amount: 85.00"));
    reflexivity.
Defined.

(** C1, as the specification states it, fails: with the marker on a first
    line of its own, discarding everything from the marker onward would
    leave nothing to match, whereas the program keeps the following lines
    and extracts both numbers from them. *)
Lemma cleanOutput_keeps_later_lines :
  discard_from (js "Ux") stdoutMarkerFirst = []
  /\ Api.cleanOutput stdoutMarkerFirst <> discard_from (js "Ux") stdoutMarkerFirst
  /\ Api.extractOutput stdoutMarkerFirst idle =
     (Returned {| Api.rate := 0.85%float; Api.convertedAmount := 85%float |}, idle).
Proof.
  split; [reflexivity|split].
  - intros H. vm_compute in H. discriminate H.
  - vm_compute. reflexivity.
Qed.

(** The text of the test gives 0.85 and 85. *)
Lemma extractOutput_stdoutData (w : world) :
  Api.extractOutput stdoutData w =
  (Returned {| Api.rate := 0.85%float; Api.convertedAmount := 85%float |}, w).
Proof.
  rewrite extractOutput_eq.
  replace (str_match (Api.cleanOutput stdoutData) Api.reRate)
    with (Some {| index := 0;
                  whole := js "Uncertain conversion rate: 0.85";
                  group1 := Some (js "0.85") |})
    by (vm_compute; reflexivity).
  replace (str_match (Api.cleanOutput stdoutData) Api.reAmount)
    with (Some {| index := 32;
                  whole := js "Converted Amount: 85.00";
                  group1 := Some (js "85.00") |})
    by (vm_compute; reflexivity).
  vm_compute. reflexivity.
Qed.

(** C5.  When either pattern fails on the cleaned text, the extractor logs
    the error and exits with status 1; it returns only when both patterns
    matched, and then with both numbers; it ends in no other way. *)
Theorem extractOutput_all_or_nothing (stdout : jsstring) (w : world) :
  (str_match (Api.cleanOutput stdout) Api.reRate = None
   \/ str_match (Api.cleanOutput stdout) Api.reAmount = None ->
   Api.extractOutput stdout w = (Exited 1, after w extractFailure))
  /\ (forall r w',
        Api.extractOutput stdout w = (Returned r, w') ->
        exists a b,
          str_match (Api.cleanOutput stdout) Api.reRate = Some a
          /\ str_match (Api.cleanOutput stdout) Api.reAmount = Some b
          /\ r = {| Api.rate := parseFloat (Api.capture1 a);
                    Api.convertedAmount := parseFloat (Api.capture1 b) |}
          /\ w' = w)
  /\ ((exists r, Api.extractOutput stdout w = (Returned r, w))
      \/ Api.extractOutput stdout w = (Exited 1, after w extractFailure)).
Proof.
  rewrite extractOutput_eq.
  destruct (str_match (Api.cleanOutput stdout) Api.reRate) as [a|];
    destruct (str_match (Api.cleanOutput stdout) Api.reAmount) as [b|].
  - split; [intros [H|H]; discriminate H|]. split.
    + intros r w' H. inversion H; subst. exists a, b. auto.
    + left. eexists. reflexivity.
  - split; [reflexivity|]. split; [intros r w' H; discriminate H|now right].
  - split; [reflexivity|]. split; [intros r w' H; discriminate H|now right].
  - split; [reflexivity|]. split; [intros r w' H; discriminate H|now right].
Qed.

(** The amount line is missing: the rate alone is not returned. *)
Lemma extractOutput_all_or_nothing_witness :
  Api.extractOutput (js "Uncertain conversion rate: 0.85") idle =
  (Exited 1, after idle extractFailure).
Proof.
  apply (proj1 (extractOutput_all_or_nothing
                  (js "Uncertain conversion rate: 0.85") idle)).
  right. vm_compute. reflexivity.
Defined.

End ExtractOutput.

(* ================================================================== *)
(** * The client: submitter, poller, output stage *)
(* ================================================================== *)

Section Client.

Variable API_KEY : jsstring.
Variable accepts : jsstring -> bool.

Lemma bind_run (A B : Type) (c : M A) (k : A -> M B) (w : world) :
  bind c k w =
  match c w with
  | (Returned a, w') => k a w'
  | (Threw e, w') => (Threw e, w')
  | (Exited code, w') => (Exited code, w')
  | (Pending, w') => (Pending, w')
  end.
Proof. reflexivity. Qed.

(** The URLs of the service are plain: the client sends to them whatever
    its parser makes of other texts. *)
Lemma tasks_url_sent :
  client_sends accepts (Api.API_BASE_URL ++ js "/tasks") = true.
Proof. reflexivity. Qed.

Lemma task_url_sent (rest : jsstring) :
  client_sends accepts (Api.API_BASE_URL ++ js "/tasks/" ++ rest) = true.
Proof. reflexivity. Qed.

Lemma plain_url_sent (s : jsstring) :
  plain_http_url s = true -> client_sends accepts s = true.
Proof. unfold client_sends. now intros ->. Qed.

Lemma template_str (s : jsstring) (w : world) :
  template (VStr s) w = (Returned s, w).
Proof. reflexivity. Qed.

Lemma axios_request_2xx (r : request) (st : Z) (d : jsval)
    (rest : list reply) (tr : list event) :
  is2xx st = true ->
  axios_request r {| pending := Reply st d :: rest; trace := tr |} =
  (Returned {| status := st; data := d |},
   {| pending := rest; trace := tr ++ [EvRequest r] |}).
Proof.
  unfold is2xx, axios_request, resolves. intros H. simpl.
  now rewrite H, orb_true_r.
Qed.

(** One successful status query. *)
Lemma fetchTaskStatus_ok (taskId s : jsstring) (rest : list reply)
    (tr : list event) :
  Api.fetchTaskStatus API_KEY accepts (VStr taskId)
    {| pending := statusReply s :: rest; trace := tr |} =
  (Returned (VStr s),
   {| pending := rest; trace := tr ++ [EvRequest (statusRequest API_KEY taskId)] |}).
Proof. reflexivity. Qed.

Lemma nonterminal_spec (s : jsstring) :
  nonterminal s = true ->
  includes [js "Cancelled"; js "Stopped"] (VStr s) = false
  /\ is_string (VStr s) (js "Completed") = false.
Proof.
  unfold nonterminal. intros H. apply andb_true_iff in H as [H1 H2].
  now apply negb_true_iff in H1, H2.
Qed.

(** One round of the loop on a non-terminal status. *)
Lemma waitLoop_round (fuel : nat) (taskId s : jsstring) (rest : list reply)
    (tr : list event) :
  nonterminal s = true ->
  Api.waitLoop API_KEY accepts (S fuel) (VStr taskId)
    {| pending := statusReply s :: rest; trace := tr |} =
  Api.waitLoop API_KEY accepts fuel (VStr taskId)
    {| pending := rest; trace := tr ++ pollRound API_KEY taskId s |}.
Proof.
  intros H. apply nonterminal_spec in H as [H1 H2].
  cbn [Api.waitLoop]. unfold bind at 1. rewrite fetchTaskStatus_ok.
  rewrite H1, H2.
  unfold bind, console_log, sleep, emit, pollRound, template, ret.
  cbn [pending trace to_string stringifies].
  now rewrite <- !app_assoc.
Qed.

(** The rounds on a run of non-terminal statuses. *)
Lemma waitLoop_rounds (taskId : jsstring) (statuses : list jsstring) :
  forall (fuel : nat) (more : list reply) (tr : list event),
    forallb nonterminal statuses = true ->
    Api.waitLoop API_KEY accepts (length statuses + fuel) (VStr taskId)
      {| pending := map statusReply statuses ++ more; trace := tr |} =
    Api.waitLoop API_KEY accepts fuel (VStr taskId)
      {| pending := more; trace := tr ++ pollRounds API_KEY taskId statuses |}.
Proof.
  induction statuses as [|s statuses IH]; intros fuel more tr H.
  - simpl. now rewrite app_nil_r.
  - simpl in H. apply andb_true_iff in H as [Hs H].
    cbn [length Nat.add map app]. rewrite waitLoop_round by exact Hs.
    rewrite IH by exact H.
    unfold pollRounds. cbn [flat_map]. now rewrite <- app_assoc.
Qed.

(** The last round, on [Completed]. *)
Lemma waitLoop_completed (fuel : nat) (taskId : jsstring) (rest : list reply)
    (tr : list event) :
  Api.waitLoop API_KEY accepts (S fuel) (VStr taskId)
    {| pending := statusReply (js "Completed") :: rest; trace := tr |} =
  (Returned tt,
   {| pending := rest; trace := tr ++ completedRound API_KEY taskId |}).
Proof.
  cbn [Api.waitLoop]. unfold bind at 1. rewrite fetchTaskStatus_ok.
  change (includes [js "Cancelled"; js "Stopped"] (VStr (js "Completed")))
    with false.
  change (is_string (VStr (js "Completed")) (js "Completed")) with true.
  unfold bind, console_log, emit, ret, completedRound. cbn [pending trace].
  now rewrite <- !app_assoc.
Qed.

(** The last round, on [Cancelled] or [Stopped]. *)
Lemma waitLoop_abandoned (fuel : nat) (taskId final : jsstring)
    (rest : list reply) (tr : list event) :
  includes [js "Cancelled"; js "Stopped"] (VStr final) = true ->
  Api.waitLoop API_KEY accepts (S fuel) (VStr taskId)
    {| pending := statusReply final :: rest; trace := tr |} =
  (Exited 1,
   {| pending := rest; trace := tr ++ abandonedRound API_KEY taskId final |}).
Proof.
  intros H.
  cbn [Api.waitLoop]. unfold bind at 1. rewrite fetchTaskStatus_ok, H.
  unfold bind, console_error, process_exit, emit, abandonedRound, template, ret.
  cbn [pending trace to_string stringifies].
  now rewrite <- !app_assoc.
Qed.

(** The fuel [waitForTaskCompletion] starts with, on a script that begins
    with [n + 1] status replies. *)
Lemma poller_fuel (statuses : list jsstring) (final : jsstring)
    (rest : list reply) :
  S (length (map statusReply (statuses ++ [final]) ++ rest)) =
  length statuses + S (S (length rest)).
Proof. rewrite length_app, length_map, length_app. simpl. lia. Qed.

Lemma poller_script (statuses : list jsstring) (final : jsstring)
    (rest : list reply) :
  map statusReply (statuses ++ [final]) ++ rest =
  map statusReply statuses ++ statusReply final :: rest.
Proof. rewrite map_app, <- app_assoc. reflexivity. Qed.

Lemma requests_app (a b : list event) : requests (a ++ b) = requests a ++ requests b.
Proof. apply flat_map_app. Qed.

Lemma sleeps_app (a b : list event) : sleeps (a ++ b) = sleeps a ++ sleeps b.
Proof. apply flat_map_app. Qed.

Lemma requests_pollRounds (taskId : jsstring) (statuses : list jsstring) :
  requests (pollRounds API_KEY taskId statuses) =
  map (fun _ => statusRequest API_KEY taskId) statuses.
Proof.
  induction statuses as [|s statuses IH]; [reflexivity|].
  unfold pollRounds in *. cbn [flat_map map].
  rewrite requests_app, IH. reflexivity.
Qed.

Lemma sleeps_pollRounds (taskId : jsstring) (statuses : list jsstring) :
  sleeps (pollRounds API_KEY taskId statuses) = map (fun _ => 2000%Z) statuses.
Proof.
  induction statuses as [|s statuses IH]; [reflexivity|].
  unfold pollRounds in *. cbn [flat_map map].
  rewrite sleeps_app, IH. reflexivity.
Qed.

(** The fuel of the loop is never what stops it: a round that goes on has
    consumed a reply, so any fuel above the number of replies left gives
    the same run. *)
Lemma waitLoop_round_ext (n1 n2 : nat) (taskId : jsval) (r : reply)
    (rest : list reply) (tr : list event) :
  (forall tr',
     Api.waitLoop API_KEY accepts n1 taskId {| pending := rest; trace := tr' |} =
     Api.waitLoop API_KEY accepts n2 taskId {| pending := rest; trace := tr' |}) ->
  Api.waitLoop API_KEY accepts (S n1) taskId {| pending := r :: rest; trace := tr |} =
  Api.waitLoop API_KEY accepts (S n2) taskId {| pending := r :: rest; trace := tr |}.
Proof.
  intros H. cbn [Api.waitLoop]. rewrite !bind_run.
  destruct (Api.fetchTaskStatus API_KEY accepts taskId
              {| pending := r :: rest; trace := tr |}) as [o w'] eqn:E.
  assert (Hw : o = Pending \/ (exists c, o = Exited c) \/ (exists e, o = Threw e)
               \/ pending w' = rest).
  { revert E. unfold Api.fetchTaskStatus, try_catch, bind, template, axios_get.
    destruct (stringifies taskId); unfold ret, throw;
      [rewrite task_url_sent|];
      unfold axios_request, Api.handleApiError, bind, console_error,
        process_exit, emit, get_prop, ret, throw;
      cbn [pending trace].
    - destruct r as [st d|msg]; [destruct (resolves st)|];
        [destruct d| |]; intros E; inversion E; subst; cbn; eauto 6.
    - intros E; inversion E; eauto 6. }
  destruct o as [status|e|c|]; try reflexivity.
  destruct Hw as [Hw|[[c Hw]|[[e Hw]|Hw]]]; try discriminate Hw.
  destruct w' as [p' tr']; cbn in Hw; subst p'.
  destruct (includes [js "Cancelled"; js "Stopped"] status); [reflexivity|].
  destruct (is_string status (js "Completed")); [reflexivity|].
  unfold template. destruct (stringifies status); [|reflexivity].
  unfold bind, console_log, sleep, emit, ret. cbn [pending trace]. apply H.
Qed.

Lemma waitLoop_fuel (taskId : jsval) :
  forall (fuel : nat) (pend : list reply) (tr : list event),
    length pend < fuel ->
    Api.waitLoop API_KEY accepts fuel taskId {| pending := pend; trace := tr |} =
    Api.waitForTaskCompletion API_KEY accepts taskId {| pending := pend; trace := tr |}.
Proof.
  unfold Api.waitForTaskCompletion. cbn [pending].
  induction fuel as [|fuel IH]; intros pend tr Hlt; [lia|].
  destruct pend as [|r rest].
  - cbn [length Api.waitLoop].
    unfold Api.fetchTaskStatus, try_catch, template, bind.
    destruct (stringifies taskId); reflexivity.
  - cbn [length]. apply waitLoop_round_ext. intros tr'.
    apply IH. simpl in Hlt. lia.
Qed.

(** A submission answered with a 2xx status and an object body. *)
Lemma submitTask_2xx (applicationCode args : jsstring) (st : Z)
    (fields : list (jsstring * jsval)) (rest : list reply) (tr : list event) :
  is2xx st = true ->
  let taskId :=
    match lookup (js "TaskID") fields with Some x => x | None => VUndefined end in
  stringifies taskId = true ->
  Api.submitTask API_KEY accepts applicationCode args
    {| pending := Reply st (VObj fields) :: rest; trace := tr |} =
  (Returned taskId,
   {| pending := rest;
      trace := tr ++ [EvRequest (submitRequest API_KEY applicationCode args);
                      EvLog [VStr (js "Task submitted. Task ID: "
                                     ++ to_string taskId)]] |}).
Proof.
  intros H taskId Hs.
  unfold Api.submitTask, Api.postTask, try_catch, axios_post.
  rewrite tasks_url_sent.
  unfold bind at 1 2. rewrite axios_request_2xx by exact H.
  unfold get_prop, data, ret, bind, template. fold taskId. rewrite Hs.
  unfold ret, console_log, emit. cbn [pending trace].
  now rewrite <- app_assoc.
Qed.

(** The output stage on metadata whose [Stdout] is absent or falsy: the
    metadata query is the only request. *)
Lemma getTaskOutput_falsy (taskId : jsstring) (st : Z)
    (fields : list (jsstring * jsval)) (rest : list reply) (tr : list event) :
  is2xx st = true ->
  truthy (match lookup (js "Stdout") fields with
          | Some x => x
          | None => VUndefined
          end) = false ->
  Api.getTaskOutput API_KEY accepts (VStr taskId)
    {| pending := Reply st (VObj fields) :: rest; trace := tr |} =
  (Exited 1, {| pending := rest; trace := tr ++ noOutput API_KEY taskId |}).
Proof.
  intros H Hf.
  unfold Api.getTaskOutput, try_catch, axios_get.
  rewrite bind_run, template_str, task_url_sent.
  unfold bind at 1 2.
  change (Api.API_BASE_URL ++ js "/tasks/" ++ taskId ++ js "/outputs")
    with (url (outputsRequest API_KEY taskId)).
  change {| method := GET; url := url (outputsRequest API_KEY taskId);
            body := None; headers := Api.createHeaders API_KEY |}
    with (outputsRequest API_KEY taskId).
  rewrite axios_request_2xx by exact H.
  unfold get_prop, data, ret, bind at 1 2 3. rewrite Hf. cbn [negb].
  unfold bind, console_error, process_exit, emit, noOutput. cbn [pending trace].
  now rewrite <- !app_assoc.
Qed.

(** The output stage on metadata with a [Stdout] URL and a text body behind
    it: two requests, then the extraction from the text. *)
Lemma getTaskOutput_fetch (taskId stdoutUrl text : jsstring) (st st' : Z)
    (fields : list (jsstring * jsval)) (rest : list reply) (tr : list event) :
  is2xx st = true ->
  lookup (js "Stdout") fields = Some (VStr stdoutUrl) ->
  stdoutUrl <> [] ->
  client_sends accepts stdoutUrl = true ->
  is2xx st' = true ->
  Api.getTaskOutput API_KEY accepts (VStr taskId)
    {| pending := Reply st (VObj fields) :: Reply st' (VStr text) :: rest;
       trace := tr |} =
  Api.extractOutput text
    {| pending := rest;
       trace := tr ++ [EvRequest (outputsRequest API_KEY taskId);
                       EvRequest (downloadRequest stdoutUrl)] |}.
Proof.
  intros H Hf Hu Hsent H'.
  unfold Api.getTaskOutput, try_catch, axios_get.
  rewrite bind_run, template_str, task_url_sent.
  change (Api.API_BASE_URL ++ js "/tasks/" ++ taskId ++ js "/outputs")
    with (url (outputsRequest API_KEY taskId)).
  change {| method := GET; url := url (outputsRequest API_KEY taskId);
            body := None; headers := Api.createHeaders API_KEY |}
    with (outputsRequest API_KEY taskId).
  rewrite bind_run, axios_request_2xx by exact H.
  rewrite bind_run. unfold get_prop at 1. cbn [data]. rewrite Hf.
  unfold ret at 1. rewrite bind_run.
  destruct stdoutUrl as [|c u]; [contradiction|]. cbn [truthy negb].
  unfold ret at 1. rewrite bind_run.
  unfold Api.fetchOutputStream, try_catch, axios_get.
  rewrite Hsent.
  rewrite bind_run, axios_request_2xx by exact H'.
  unfold ret at 1. cbn [data Api.extractOutput_of].
  rewrite <- app_assoc. cbn [app].
  change {| method := GET; url := c :: u; body := None; headers := [] |}
    with (downloadRequest (c :: u)).
  rewrite extractOutput_eq.
  destruct (str_match (Api.cleanOutput text) Api.reRate);
    destruct (str_match (Api.cleanOutput text) Api.reAmount); reflexivity.
Qed.

(** C4.  On the text of the test the extractor returns exactly
    [{rate: 0.85, convertedAmount: 85.0}], with no other effect; so does
    [getTaskOutput] when the metadata of the task points to that text. *)
Theorem extractOutput_round_trip :
  (forall w,
     Api.extractOutput stdoutData w =
     (Returned {| Api.rate := 0.85%float; Api.convertedAmount := 85%float |},
      w))
  /\ (forall rest tr,
        Api.getTaskOutput API_KEY accepts (VStr (js "12345"))
          {| pending :=
               Reply 200 (VObj [(js "Stdout", VStr (js "https://example.com/stdout"))])
                 :: Reply 200 (VStr stdoutData) :: rest;
             trace := tr |} =
        (Returned {| Api.rate := 0.85%float; Api.convertedAmount := 85%float |},
         {| pending := rest;
            trace :=
              tr ++ [EvRequest (outputsRequest API_KEY (js "12345"));
                     EvRequest (downloadRequest (js "https://example.com/stdout"))] |})).
Proof.
  split; [apply extractOutput_stdoutData|].
  intros rest tr.
  rewrite getTaskOutput_fetch with (stdoutUrl := js "https://example.com/stdout")
    by (reflexivity || discriminate).
  apply extractOutput_stdoutData.
Qed.

(** The whole life cycle of the test scenario: submit, poll [InProgress]
    then [Completed], fetch the metadata, download and parse the text. *)
Lemma executeTask_end_to_end (applicationCode args : jsstring) :
  Index.executeTask API_KEY accepts applicationCode args
    {| pending :=
         [Reply 200 (VObj [(js "TaskID", VStr (js "12345"))]);
          statusReply (js "InProgress");
          statusReply (js "Completed");
          Reply 200 (VObj [(js "Stdout", VStr (js "https://example.com/stdout"))]);
          Reply 200 (VStr stdoutData)];
       trace := [] |} =
  (Returned {| Api.rate := 0.85%float; Api.convertedAmount := 85%float |},
   {| pending := [];
      trace :=
        submission API_KEY applicationCode args (js "12345")
          ++ pollRound API_KEY (js "12345") (js "InProgress")
          ++ completedRound API_KEY (js "12345")
          ++ [EvRequest (outputsRequest API_KEY (js "12345"));
              EvRequest (downloadRequest (js "https://example.com/stdout"))] |}).
Proof.
  unfold Index.executeTask.
  rewrite bind_run, submitTask_2xx by reflexivity. cbv zeta.
  change (lookup (js "TaskID") [(js "TaskID", VStr (js "12345"))])
    with (Some (VStr (js "12345"))).
  rewrite bind_run. unfold Api.waitForTaskCompletion. cbn [pending length].
  rewrite waitLoop_round by reflexivity.
  rewrite waitLoop_completed.
  rewrite getTaskOutput_fetch with (stdoutUrl := js "https://example.com/stdout")
    by (reflexivity || discriminate).
  rewrite extractOutput_stdoutData. reflexivity.
Qed.

Lemma request_not_outputs (taskId : jsstring) (rs : list request) :
  Forall (fun r => r = statusRequest API_KEY taskId
                   \/ method r = POST) rs ->
  ~ In (outputsRequest API_KEY taskId) rs.
Proof.
  intros HF Hin. rewrite Forall_forall in HF.
  destruct (HF _ Hin) as [E|E]; [|discriminate E].
  apply (f_equal url) in E. unfold outputsRequest, statusRequest in E.
  cbn [url] in E. apply app_inv_head in E.
  apply (f_equal (@length jschar)) in E. rewrite length_app in E.
  simpl in E. lia.
Qed.

(** C2.  On a sequence of non-terminal statuses followed by [Completed], the
    poller returns normally; it has issued exactly one status query per
    status of the sequence, in order, each non-terminal status being logged
    and followed by a sleep of 2000 ms before the next query, and it has
    consumed exactly the replies of the sequence. *)
Theorem waitForTaskCompletion_completed (taskId : jsstring)
    (statuses : list jsstring) (rest : list reply) (tr : list event) :
  forallb nonterminal statuses = true ->
  let added :=
    pollRounds API_KEY taskId statuses ++ completedRound API_KEY taskId in
  Api.waitForTaskCompletion API_KEY accepts (VStr taskId)
    {| pending := map statusReply (statuses ++ [js "Completed"]) ++ rest;
       trace := tr |} =
  (Returned tt, {| pending := rest; trace := tr ++ added |})
  /\ requests added =
     map (fun _ => statusRequest API_KEY taskId) (statuses ++ [js "Completed"])
  /\ sleeps added = map (fun _ => 2000%Z) statuses.
Proof.
  intros H added. subst added. repeat split.
  - unfold Api.waitForTaskCompletion. cbn [pending].
    rewrite poller_fuel, poller_script, waitLoop_rounds by exact H.
    rewrite waitLoop_completed. now rewrite <- app_assoc.
  - rewrite requests_app, requests_pollRounds, map_app. reflexivity.
  - rewrite sleeps_app, sleeps_pollRounds. cbn. apply app_nil_r.
Qed.

(** C3.  On a sequence of non-terminal statuses followed by [Cancelled] or
    [Stopped], the poller logs the error and exits with status 1 on
    observing that status; in [executeTask] the run ends there, and no
    request for the task's outputs is ever made. *)
Theorem poller_abandoned_exits (applicationCode args taskId final : jsstring)
    (statuses : list jsstring) (rest : list reply) (tr : list event) :
  forallb nonterminal statuses = true ->
  final = js "Cancelled" \/ final = js "Stopped" ->
  let polled :=
    pollRounds API_KEY taskId statuses ++ abandonedRound API_KEY taskId final in
  let run := submission API_KEY applicationCode args taskId ++ polled in
  Api.waitForTaskCompletion API_KEY accepts (VStr taskId)
    {| pending := map statusReply (statuses ++ [final]) ++ rest;
       trace := tr |} =
  (Exited 1, {| pending := rest; trace := tr ++ polled |})
  /\ Index.executeTask API_KEY accepts applicationCode args
       {| pending := Reply 200 (VObj [(js "TaskID", VStr taskId)])
                       :: map statusReply (statuses ++ [final]) ++ rest;
          trace := tr |} =
     (Exited 1, {| pending := rest; trace := tr ++ run |})
  /\ ~ In (outputsRequest API_KEY taskId) (requests run).
Proof.
  intros H Hfinal polled run.
  assert (Hinc : includes [js "Cancelled"; js "Stopped"] (VStr final) = true)
    by (destruct Hfinal; subst final; reflexivity).
  assert (Hpoll : forall tr',
    Api.waitForTaskCompletion API_KEY accepts (VStr taskId)
      {| pending := map statusReply (statuses ++ [final]) ++ rest;
         trace := tr' |} =
    (Exited 1, {| pending := rest; trace := tr' ++ polled |})).
  { intros tr'. unfold Api.waitForTaskCompletion. cbn [pending].
    rewrite poller_fuel, poller_script, waitLoop_rounds by exact H.
    rewrite waitLoop_abandoned by exact Hinc.
    subst polled. now rewrite <- app_assoc. }
  repeat split.
  - apply Hpoll.
  - unfold Index.executeTask. unfold bind at 1.
    rewrite submitTask_2xx by reflexivity.
    cbv zeta. cbn [lookup str_eqb]. 
    change (lookup (js "TaskID") [(js "TaskID", VStr taskId)])
      with (Some (VStr taskId)).
    unfold bind at 1. rewrite Hpoll. subst run.
    unfold submission. cbn [to_string]. now rewrite <- app_assoc.
  - apply request_not_outputs. subst run polled.
    rewrite !requests_app, requests_pollRounds.
    apply Forall_app; split; [|apply Forall_app; split].
    + constructor; [now right|constructor].
    + apply Forall_forall. intros r Hr. apply in_map_iff in Hr as (_ & <- & _).
      now left.
    + constructor; [now left|constructor].
Qed.

(** C7.  A submission answered with HTTP 200 and a body whose [TaskID] is a
    string returns exactly that string, after one request and one
    confirmation line that ends with the task ID. *)
Theorem submitTask_returns_task_id (applicationCode args id : jsstring)
    (fields : list (jsstring * jsval)) (rest : list reply) (tr : list event) :
  lookup (js "TaskID") fields = Some (VStr id) ->
  Api.submitTask API_KEY accepts applicationCode args
    {| pending := Reply 200 (VObj fields) :: rest; trace := tr |} =
  (Returned (VStr id),
   {| pending := rest;
      trace := tr ++ [EvRequest (submitRequest API_KEY applicationCode args);
                      EvLog [VStr (js "Task submitted. Task ID: " ++ id)]] |}).
Proof.
  intros H.
  rewrite submitTask_2xx;
    [cbv zeta; now rewrite H | reflexivity | cbv zeta; now rewrite H].
Qed.

(** C6.  When the metadata of the task's outputs has no [Stdout] field,
    [getTaskOutput] logs the error and exits with status 1; the metadata
    query is its only request, so no download is attempted, and the
    replies that follow are left unconsumed. *)
Theorem getTaskOutput_missing_stdout (taskId : jsstring) (st : Z)
    (fields : list (jsstring * jsval)) (rest : list reply) (tr : list event) :
  is2xx st = true ->
  lookup (js "Stdout") fields = None ->
  let w' := {| pending := rest; trace := tr ++ noOutput API_KEY taskId |} in
  Api.getTaskOutput API_KEY accepts (VStr taskId)
    {| pending := Reply st (VObj fields) :: rest; trace := tr |} =
  (Exited 1, w')
  /\ requests (noOutput API_KEY taskId) = [outputsRequest API_KEY taskId].
Proof.
  intros H Hf w'. split; [|reflexivity].
  apply getTaskOutput_falsy; [exact H|]. now rewrite Hf.
Qed.

(** C9.  A [Stdout] field holding the empty string is treated as a missing
    one: the same error, the same exit with status 1, and no download. *)
Theorem getTaskOutput_empty_stdout (taskId : jsstring) (st : Z)
    (fields : list (jsstring * jsval)) (rest : list reply) (tr : list event) :
  is2xx st = true ->
  lookup (js "Stdout") fields = Some (VStr []) ->
  let w' := {| pending := rest; trace := tr ++ noOutput API_KEY taskId |} in
  Api.getTaskOutput API_KEY accepts (VStr taskId)
    {| pending := Reply st (VObj fields) :: rest; trace := tr |} =
  (Exited 1, w')
  /\ requests (noOutput API_KEY taskId) = [outputsRequest API_KEY taskId].
Proof.
  intros H Hf w'. split; [|reflexivity].
  apply getTaskOutput_falsy; [exact H|]. now rewrite Hf.
Qed.

End Client.

(** A poll of two non-terminal statuses, then [Completed]. *)
Lemma waitForTaskCompletion_completed_witness :
  Api.waitForTaskCompletion (js "key") (fun _ => false) (VStr (js "12345"))
    {| pending := map statusReply
                    ([js "Queued"; js "InProgress"] ++ [js "Completed"]) ++ [];
       trace := [] |} =
  (Returned tt,
   {| pending := [];
      trace := [] ++ pollRounds (js "key") (js "12345")
                       [js "Queued"; js "InProgress"]
                  ++ completedRound (js "key") (js "12345") |}).
Proof.
  apply (waitForTaskCompletion_completed (js "key") (fun _ => false) (js "12345")
           [js "Queued"; js "InProgress"] [] []).
  reflexivity.
Defined.

(** A task that is stopped after one poll. *)
Lemma poller_abandoned_exits_witness :
  Api.waitForTaskCompletion (js "key") (fun _ => false) (VStr (js "12345"))
    {| pending := map statusReply ([js "InProgress"] ++ [js "Stopped"]) ++ [];
       trace := [] |} =
  (Exited 1,
   {| pending := [];
      trace := [] ++ pollRounds (js "key") (js "12345") [js "InProgress"]
                  ++ abandonedRound (js "key") (js "12345") (js "Stopped") |}).
Proof.
  apply (poller_abandoned_exits (js "key") (fun _ => false) (js "int main() { return 0; }")
           (js "0.85 0.90 100") (js "12345") (final := js "Stopped")
           [js "InProgress"] [] []).
  - reflexivity.
  - right. reflexivity.
Defined.

(** The submission of the test. *)
Lemma submitTask_returns_task_id_witness :
  Api.submitTask (js "key") (fun _ => false) (js "int main() { return 0; }") (js "0.85 0.90 100")
    {| pending := [Reply 200 (VObj [(js "TaskID", VStr (js "12345"))])];
       trace := [] |} =
  (Returned (VStr (js "12345")),
   {| pending := [];
      trace := [] ++ [EvRequest (submitRequest (js "key")
                                   (js "int main() { return 0; }")
                                   (js "0.85 0.90 100"));
                      EvLog [VStr (js "Task submitted. Task ID: "
                                     ++ js "12345")]] |}).
Proof.
  apply (submitTask_returns_task_id (js "key") (fun _ => false) (js "int main() { return 0; }")
           (js "0.85 0.90 100") (id := js "12345")
           [(js "TaskID", VStr (js "12345"))] [] []).
  reflexivity.
Defined.

(** The metadata of the test: an empty object; a reply that a download
    would consume is left in place. *)
Lemma getTaskOutput_missing_stdout_witness :
  Api.getTaskOutput (js "key") (fun _ => false) (VStr (js "12345"))
    {| pending := [Reply 200 (VObj []); Reply 200 (VStr stdoutData)];
       trace := [] |} =
  (Exited 1,
   {| pending := [Reply 200 (VStr stdoutData)];
      trace := [] ++ noOutput (js "key") (js "12345") |}).
Proof.
  apply (getTaskOutput_missing_stdout (js "key") (fun _ => false) (js "12345") 200 []
           [Reply 200 (VStr stdoutData)] []);
    reflexivity.
Defined.

(** Metadata whose [Stdout] is the empty string. *)
Lemma getTaskOutput_empty_stdout_witness :
  Api.getTaskOutput (js "key") (fun _ => false) (VStr (js "12345"))
    {| pending := [Reply 200 (VObj [(js "Stdout", VStr [])]);
                   Reply 200 (VStr stdoutData)];
       trace := [] |} =
  (Exited 1,
   {| pending := [Reply 200 (VStr stdoutData)];
      trace := [] ++ noOutput (js "key") (js "12345") |}).
Proof.
  apply (getTaskOutput_empty_stdout (js "key") (fun _ => false) (js "12345") 200
           [(js "Stdout", VStr [])] [Reply 200 (VStr stdoutData)] []);
    reflexivity.
Defined.

(* ================================================================== *)
(** * The shape of the numbers the patterns take *)
(* ================================================================== *)

Section DecimalShape.

Lemma str_match_labelled (label s : jsstring) :
  str_match s (labelled label) = find_labelled label 0 s.
Proof. apply exec_at_labelled. Qed.

Lemma strip_prefix_app (p x : jsstring) : strip_prefix p (p ++ x) = Some x.
Proof.
  induction p as [|c p IH]; simpl; [reflexivity|]. now rewrite N.eqb_refl.
Qed.

Lemma no_digit_next_spec (s : jsstring) :
  no_digit_next s = true <->
  match s with [] => True | c :: _ => isDigit c = false end.
Proof.
  destruct s as [|c s]; simpl; [tauto|]. apply negb_true_iff.
Qed.

(** The scan at digits, a dot and digits that end before a non-digit. *)
Lemma scan_decimal_at (ip fp rest : jsstring) :
  ip <> [] -> fp <> [] ->
  forallb isDigit (ip ++ fp) = true ->
  no_digit_next rest = true ->
  scan_decimal (ip ++ [46%N] ++ fp ++ rest) = Some (ip ++ [46%N] ++ fp, rest).
Proof.
  intros Hip Hfp Hd Hrest. rewrite forallb_app in Hd.
  apply andb_true_iff in Hd as [Hdi Hdf].
  apply no_digit_next_spec in Hrest.
  unfold scan_decimal.
  rewrite (span_app isDigit ip ([46%N] ++ fp ++ rest) Hdi eq_refl).
  destruct ip as [|x ip]; [contradiction|].
  cbn [app]. rewrite N.eqb_refl.
  rewrite (span_app isDigit fp rest Hdf Hrest).
  destruct fp as [|y fp]; [contradiction|]. reflexivity.
Qed.

(** A text that starts with digits, a dot and a digit is scanned. *)
Lemma scan_decimal_starts (ip fp rest : jsstring) :
  ip <> [] -> fp <> [] ->
  forallb isDigit (ip ++ fp) = true ->
  scan_decimal (ip ++ [46%N] ++ fp ++ rest) <> None.
Proof.
  intros Hip Hfp Hd.
  pose proof (span_spec isDigit rest) as (Hr & Hmore & Hnext).
  destruct (span isDigit rest) as [more rest']; simpl fst in *; simpl snd in *.
  rewrite Hr, (app_assoc fp more rest').
  rewrite scan_decimal_at; [discriminate|exact Hip| | |].
  - destruct fp; [contradiction|discriminate].
  - rewrite forallb_app in Hd. apply andb_true_iff in Hd as [Hdi Hdf].
    now rewrite !forallb_app, Hdi, Hdf, Hmore.
  - now apply no_digit_next_spec.
Qed.

Lemma not_decimal_kinds (v : jsstring) :
  not_decimal v = no_digit_next v || no_fraction v.
Proof.
  unfold not_decimal, no_fraction, scan_decimal.
  pose proof (span_spec isDigit v) as (Hv & Hip & Hnext).
  destruct (span isDigit v) as [ip r1]; simpl fst in *; simpl snd in *.
  destruct ip as [|x ip].
  - cbn [app] in Hv. subst r1. rewrite orb_false_r.
    destruct v as [|c v]; [reflexivity|]. cbn. now rewrite Hnext.
  - rewrite Hv. cbn [app no_digit_next forallb] in *.
    apply andb_true_iff in Hip as [Hx _]. rewrite Hx. cbn [negb orb].
    destruct r1 as [|c r]; [reflexivity|].
    destruct (N.eqb c 46); cbn [negb orb]; [|reflexivity].
    destruct r as [|d r]; [reflexivity|]. cbn [span no_digit_next].
    destruct (isDigit d); [|reflexivity].
    now destruct (span isDigit r).
Qed.

Lemma not_decimal_spec (v : jsstring) :
  not_decimal v = false <->
  exists ip fp rest,
    v = ip ++ [46%N] ++ fp ++ rest
    /\ ip <> [] /\ fp <> [] /\ forallb isDigit (ip ++ fp) = true.
Proof.
  unfold not_decimal. split.
  - destruct (scan_decimal v) as [[cap rest]|] eqn:E; [intros _|discriminate].
    apply scan_decimal_Some in E as [Hv Hshape].
    apply decimal_shape_split in Hshape as (ip & fp & Hcap & Hip & Hfp & Hdi & Hdf).
    exists ip, fp, rest. rewrite Hv, Hcap, <- !app_assoc.
    split; [reflexivity|]. split; [assumption|]. split; [assumption|].
    rewrite forallb_app. apply andb_true_iff; split; assumption.
  - intros (ip & fp & rest & -> & Hip & Hfp & Hd).
    pose proof (scan_decimal_starts rest Hip Hfp Hd) as H.
    destruct (scan_decimal (ip ++ [46%N] ++ fp ++ rest)) eqn:E;
      [reflexivity|]. exfalso. apply H. exact E.
Qed.

(** The search fails exactly when no occurrence of the label is followed by
    a value the pattern can take. *)
Lemma find_labelled_fails (label : jsstring) :
  forall s i,
    find_labelled label i s = None <->
    every_occurrence label not_decimal s = true.
Proof.
  intros s i. split; [|apply find_labelled_None].
  revert i. induction s as [|c s IH]; intros i; rewrite find_labelled_eq;
    cbn [every_occurrence]; unfold not_decimal at 1.
  - destruct (strip_prefix label []) as [t|]; [|reflexivity].
    destruct (scan_decimal t) as [[cap rest]|]; [discriminate|reflexivity].
  - destruct (strip_prefix label (c :: s)) as [t|].
    + destruct (scan_decimal t) as [[cap rest]|]; [discriminate|].
      intros H. now rewrite (IH _ H).
    + intros H. now rewrite (IH _ H).
Qed.

(** The search passes over a text in which no occurrence of the label is
    followed by a value the pattern can take. *)
Lemma find_labelled_skip (label s : jsstring) :
  forall pre i,
    none_before label pre s = true ->
    find_labelled label i (pre ++ s) = find_labelled label (i + length pre) s.
Proof.
  induction pre as [|c pre IH]; intros i H.
  - cbn. now rewrite Nat.add_0_r.
  - cbn [none_before] in H. apply andb_true_iff in H as [H1 H2].
    rewrite find_labelled_eq.
    replace (match strip_prefix label ((c :: pre) ++ s) with
             | Some t => scan_decimal t
             | None => None
             end) with (@None (jsstring * jsstring)).
    + cbn [app length]. rewrite (IH (S i) H2). f_equal. lia.
    + destruct (strip_prefix label ((c :: pre) ++ s)) as [t|]; [|reflexivity].
      symmetry. now apply not_decimal_scan.
Qed.

(** The match at digits, a dot and digits after the first occurrence of the
    label that is followed by such a text. *)
Lemma find_labelled_at (label pre ip fp rest : jsstring) :
  ip <> [] -> fp <> [] ->
  forallb isDigit (ip ++ fp) = true ->
  no_digit_next rest = true ->
  none_before label pre (label ++ ip ++ [46%N] ++ fp ++ rest) = true ->
  find_labelled label 0 (pre ++ label ++ ip ++ [46%N] ++ fp ++ rest) =
  Some {| index := length pre;
          whole := label ++ ip ++ [46%N] ++ fp;
          group1 := Some (ip ++ [46%N] ++ fp) |}.
Proof.
  intros Hip Hfp Hd Hrest Hpre.
  rewrite find_labelled_skip by exact Hpre. rewrite find_labelled_eq.
  rewrite strip_prefix_app, scan_decimal_at by assumption.
  reflexivity.
Qed.

(** C10 (as amended).  A match of either pattern captures one or more
    digits, a dot and one or more digits, right after the label.  A pattern
    fails to match exactly when, in the cleaned text, every occurrence of
    its label is followed by a value that does not begin with digits, a dot
    and a digit: one that does not start with a digit (a negative value, a
    value that starts with the dot), or one whose leading digits are not
    followed by a dot and a digit (no fractional part: ["85"], ["85."],
    ["85e0"]).  The extractor logs the error and exits with status 1
    exactly when this holds for the rate label or for the amount label.
    Where a label is followed by digits, a dot and digits that end before a
    non-digit, and no earlier occurrence of the label is followed by digits,
    a dot and a digit, the pattern matches there and captures those digits,
    dot and digits, whatever follows them: of ["8.5e-1"] the exponent is
    ignored. *)
Theorem extraction_takes_plain_decimals_only (stdout : jsstring) (w : world) :
  let clean := Api.cleanOutput stdout in
  (forall label re,
     In (label, re) [(rateLabel, Api.reRate); (amountLabel, Api.reAmount)] ->
     (forall mr,
        str_match clean re = Some mr ->
        exists cap,
          group1 mr = Some cap /\ whole mr = label ++ cap
          /\ decimal_shape cap = true)
     /\ (str_match clean re = None <->
         every_occurrence label not_decimal clean = true)
     /\ (forall pre ip fp rest,
           clean = pre ++ label ++ ip ++ [46%N] ++ fp ++ rest ->
           ip <> [] -> fp <> [] ->
           forallb isDigit (ip ++ fp) = true ->
           no_digit_next rest = true ->
           none_before label pre (label ++ ip ++ [46%N] ++ fp ++ rest) = true ->
           str_match clean re =
           Some {| index := length pre;
                   whole := label ++ ip ++ [46%N] ++ fp;
                   group1 := Some (ip ++ [46%N] ++ fp) |}))
  /\ (Api.extractOutput stdout w = (Exited 1, after w extractFailure) <->
      every_occurrence rateLabel not_decimal clean = true
      \/ every_occurrence amountLabel not_decimal clean = true)
  /\ (forall v, not_decimal v = no_digit_next v || no_fraction v)
  /\ (forall v, negative v = true \/ leading_dot v = true ->
                no_digit_next v = true)
  /\ (forall v,
        not_decimal v = false <->
        exists ip fp rest,
          v = ip ++ [46%N] ++ fp ++ rest
          /\ ip <> [] /\ fp <> [] /\ forallb isDigit (ip ++ fp) = true).
Proof.
  intros clean.
  assert (Hpat : forall label re,
            In (label, re)
               [(rateLabel, Api.reRate); (amountLabel, Api.reAmount)] ->
            forall s, str_match s re = find_labelled label 0 s).
  { intros label re [E|[E|[]]] s; inversion E; subst label re;
      apply str_match_labelled. }
  split; [|split; [|split; [|split]]].
  - intros label re Hin. rewrite (Hpat label re Hin).
    split; [apply find_labelled_Some|].
    split; [apply find_labelled_fails|].
    intros pre ip fp rest Hclean Hip Hfp Hd Hrest Hpre.
    rewrite Hclean. now apply find_labelled_at.
  - rewrite extractOutput_eq. fold clean.
    rewrite <- !find_labelled_fails with (i := 0%nat).
    rewrite reRate_labelled, reAmount_labelled, !str_match_labelled.
    destruct (find_labelled rateLabel 0 clean) as [a|];
      destruct (find_labelled amountLabel 0 clean) as [b|]; split;
      try (intros [H|H]; discriminate H); try discriminate; auto.
  - apply not_decimal_kinds.
  - intros [|c v] [H|H]; try discriminate H; cbn in H |- *;
      apply N.eqb_eq in H; subst c; reflexivity.
  - apply not_decimal_spec.
Qed.

(** An amount without a fractional part makes the extractor exit; an
    amount that ends with the dot is not matched; the rate [8.5e-1] is
    matched on [8.5]. *)
Lemma extraction_takes_plain_decimals_only_witness :
  Api.extractOutput stdoutInteger idle = (Exited 1, after idle extractFailure)
  /\ str_match (Api.cleanOutput (js "Converted Amount: 85.")) Api.reAmount
     = None
  /\ str_match (Api.cleanOutput stdoutScientific) Api.reRate =
     Some {| index := length (@nil jschar);
             whole := rateLabel ++ js "8" ++ [46%N] ++ js "5";
             group1 := Some (js "8" ++ [46%N] ++ js "5") |}.
Proof.
  split; [|split].
  - apply (proj2 (proj1 (proj2
             (extraction_takes_plain_decimals_only stdoutInteger idle)))).
    right. vm_compute. reflexivity.
  - apply (proj2 (proj1 (proj2
             (proj1 (extraction_takes_plain_decimals_only
                       (js "Converted Amount: 85.") idle)
                amountLabel Api.reAmount
                (or_intror (or_introl eq_refl)))))).
    vm_compute. reflexivity.
  - apply (proj2 (proj2
             (proj1 (extraction_takes_plain_decimals_only
                       stdoutScientific idle)
                rateLabel Api.reRate (or_introl eq_refl)))
             [] (js "8") (js "5")
             (js "e-1" ++ [LF] ++ js "Converted Amount: 85.00"));
      try (vm_compute; reflexivity); discriminate.
Defined.

(** C10, as stated, fails on scientific notation: the rate pattern matches
    the mantissa [8.5] of [8.5e-1], and the extractor returns, with a rate
    of 8.5, and does not exit. *)
Lemma scientific_notation_is_matched :
  str_match (Api.cleanOutput stdoutScientific) Api.reRate =
    Some {| index := 0;
            whole := js "Uncertain conversion rate: 8.5";
            group1 := Some (js "8.5") |}
  /\ Api.extractOutput stdoutScientific idle =
     (Returned {| Api.rate := 8.5%float; Api.convertedAmount := 85%float |},
      idle).
Proof. split; vm_compute; reflexivity. Qed.

End DecimalShape.

(* ================================================================== *)
(** * Input validation *)
(* ================================================================== *)

Section Validation.

(** The comparison of the float specification is antisymmetric. *)
Lemma SFcompare_Lt_Gt (a b : spec_float) :
  SFcompare a b = Some Lt -> SFcompare b a = Some Gt.
Proof.
  destruct a as [sa|sa| |sa ma ea], b as [sb|sb| |sb mb eb]; simpl;
    try discriminate; try (destruct sa; discriminate || reflexivity);
    try (destruct sb; discriminate || reflexivity);
    try (destruct sa, sb; discriminate || reflexivity).
  destruct sa, sb; try discriminate; try reflexivity;
    rewrite (Z.compare_antisym ea eb);
    replace (Pos.compare_cont Eq mb ma)
      with (CompOpp (Pos.compare_cont Eq ma mb))
      by apply (Pos.compare_cont_antisym ma mb Eq);
    destruct (ea ?= eb)%Z; simpl;
    try discriminate; try reflexivity;
    destruct (Pos.compare_cont Eq ma mb); simpl;
    try discriminate; try reflexivity.
Qed.

Lemma ltb_not_leb (a b : number) :
  lt a b = true -> le b a = false.
Proof.
  unfold lt, le. rewrite ltb_spec, leb_spec. unfold SFltb, SFleb.
  destruct (SFcompare (Prim2SF a) (Prim2SF b)) as [[]|] eqn:E;
    try discriminate.
  intros _. now rewrite (SFcompare_Lt_Gt _ _ E).
Qed.

Lemma lt_zero_positive (a : number) :
  lt 0%float a = true -> sf_positive (Prim2SF a) = true.
Proof.
  unfold lt. rewrite ltb_spec.
  change (Prim2SF 0%float) with (S754_zero false).
  unfold SFltb. destruct (Prim2SF a) as [s|s| |s m e]; simpl;
    try discriminate; now destruct s.
Qed.

Lemma lt_positive (a b : number) :
  sf_positive (Prim2SF a) = true -> lt a b = true ->
  sf_positive (Prim2SF b) = true.
Proof.
  unfold lt. rewrite ltb_spec. unfold SFltb.
  destruct (Prim2SF a) as [sa|sa| |sa ma ea], (Prim2SF b) as [sb|sb| |sb mb eb];
    simpl; try discriminate;
    try (destruct sa; discriminate);
    try (destruct sa, sb; discriminate || reflexivity).
Qed.

Lemma positive_not_le_zero (a : number) :
  sf_positive (Prim2SF a) = true -> le a 0%float = false.
Proof.
  unfold le. rewrite leb_spec.
  change (Prim2SF 0%float) with (S754_zero false).
  unfold SFleb. destruct (Prim2SF a) as [s|s| |s m e]; simpl;
    try discriminate; now destruct s.
Qed.

(** [validateInput] as a cascade of its four checks. *)
Lemma validateInput_eq (sourceCurrency targetCurrency : jsstring)
    (rateMin rateMax amount : number) (w : world) :
  Index.validateInput sourceCurrency targetCurrency rateMin rateMax amount w =
  if str_eqb sourceCurrency targetCurrency then
    (Exited 1, after w (validationFailure
       (js "Error: Source and target currencies cannot be the same.")))
  else if ge rateMin rateMax then
    (Exited 1, after w (validationFailure
       (js "Error: Minimum rate must be less than maximum rate.")))
  else if le amount 0%float then
    (Exited 1, after w (validationFailure
       (js "Error: Amount must be a positive number.")))
  else if le rateMin 0%float || le rateMax 0%float then
    (Exited 1, after w (validationFailure
       (js "Error: Rates must be positive numbers.")))
  else (Returned tt, w).
Proof.
  unfold Index.validateInput.
  destruct (str_eqb sourceCurrency targetCurrency); [log_and_exit|].
  destruct (ge rateMin rateMax); [log_and_exit|].
  destruct (le amount 0%float); [log_and_exit|].
  destruct (le rateMin 0%float || le rateMax 0%float); [log_and_exit|].
  now destruct w.
Qed.

(** C8.  [validateInput] exits with status 1, after one error line, when
    the currencies are equal, or [rateMin >= rateMax], or [amount <= 0], or
    [rateMin <= 0], or [rateMax <= 0]; when the currencies differ,
    [0 < rateMin < rateMax] and [amount > 0], it returns with no effect.
    The six invalid inputs of the tests exit with status 1 and the valid
    one returns. *)
Theorem validateInput_spec (sourceCurrency targetCurrency : jsstring)
    (rateMin rateMax amount : number) (w : world) :
  (sourceCurrency = targetCurrency
   \/ ge rateMin rateMax = true
   \/ le amount 0%float = true
   \/ le rateMin 0%float = true
   \/ le rateMax 0%float = true ->
   exists message,
     Index.validateInput sourceCurrency targetCurrency rateMin rateMax amount w
     = (Exited 1, after w (validationFailure message)))
  /\ (sourceCurrency <> targetCurrency ->
      lt 0%float rateMin = true ->
      lt rateMin rateMax = true ->
      lt 0%float amount = true ->
      Index.validateInput sourceCurrency targetCurrency rateMin rateMax amount w
      = (Returned tt, w))
  /\ (fst (Index.validateInput (js "USD") (js "USD") 1%float 2%float 100%float w) = Exited 1
      /\ fst (Index.validateInput (js "USD") (js "EUR") 2%float 1%float 100%float w) = Exited 1
      /\ fst (Index.validateInput (js "USD") (js "EUR") 1%float 2%float (-100)%float w) = Exited 1
      /\ fst (Index.validateInput (js "USD") (js "EUR") 1%float 2%float 0%float w) = Exited 1
      /\ fst (Index.validateInput (js "USD") (js "EUR") 0%float 2%float 100%float w) = Exited 1
      /\ fst (Index.validateInput (js "USD") (js "EUR") 1%float (-2)%float 100%float w) = Exited 1
      /\ Index.validateInput (js "USD") (js "EUR") 1%float 2%float 100%float w = (Returned tt, w)).
Proof.
  rewrite !validateInput_eq. split; [|split; [|now vm_compute]].
  - intros H.
    destruct (str_eqb sourceCurrency targetCurrency) eqn:E1; [eauto|].
    destruct (ge rateMin rateMax) eqn:E2; [eauto|].
    destruct (le amount 0%float) eqn:E3; [eauto|].
    destruct (le rateMin 0%float) eqn:E4; [simpl; eauto|].
    destruct (le rateMax 0%float) eqn:E5; [simpl; eauto|].
    destruct H as [H|[H|[H|[H|H]]]]; try discriminate H.
    subst targetCurrency. now rewrite str_eqb_refl in E1.
  - intros Hne Hmin Hlt Hamt.
    rewrite (str_eqb_neq Hne).
    unfold ge. rewrite (ltb_not_leb Hlt), (ltb_not_leb Hamt).
    rewrite (ltb_not_leb Hmin).
    assert (Hmax : sf_positive (Prim2SF rateMax) = true).
    { eapply lt_positive; [|exact Hlt]. now apply lt_zero_positive. }
    rewrite (positive_not_le_zero _ Hmax).
    reflexivity.
Qed.

(** The example of the README is valid; a minimum rate equal to the
    maximum is not. *)
Lemma validateInput_spec_witness :
  Index.validateInput (js "GBP") (js "EUR") 1%float 1.2%float 100%float idle = (Returned tt, idle)
  /\ exists message,
       Index.validateInput (js "GBP") (js "EUR") 1.2%float 1.2%float 100%float idle
       = (Exited 1, after idle (validationFailure message)).
Proof.
  split.
  - apply (proj1 (proj2 (validateInput_spec (js "GBP") (js "EUR") 1%float 1.2%float 100%float idle)));
      [intros H; vm_compute in H; discriminate H
      |reflexivity|reflexivity|reflexivity].
  - apply (proj1 (validateInput_spec (js "GBP") (js "EUR") 1.2%float 1.2%float 100%float idle)).
    right; left. reflexivity.
Defined.

End Validation.

(* ================================================================== *)
(** * Every run of the client: names for the statements *)
(* ================================================================== *)

Module Runs.

(** [s.startsWith(p)]. *)
Definition starts_with (p s : jsstring) : bool :=
  match strip_prefix p s with
  | Some _ => true
  | None => false
  end.

(** A reply on which the awaited call rejects: a status other than 0 and
    outside 2xx, or no answer. *)
Definition failed (r : reply) : bool :=
  match r with
  | Reply st _ => negb (resolves st)
  | NetworkError _ => true
  end.

(** What [handleApiError] prints after its message for such a reply:
    [error.response?.data ?? error.message]. *)
Definition failurePayload (r : reply) : jsval :=
  match r with
  | Reply st d =>
      nullish_or d (VStr (js "Request failed with status code " ++ decimal st))
  | NetworkError msg => VStr msg
  end.

(** The events of [handleApiError]. *)
Definition apiFailure (message : jsstring) (payload : jsval) : list event :=
  [EvError [VStr (message ++ js ":"); payload]; EvExit 1].

(** [response.data.Status] of an object body. *)
Definition observed (fields : list (jsstring * jsval)) : jsval :=
  match lookup (js "Status") fields with
  | Some v => v
  | None => VUndefined
  end.

(** A status value on which the loop goes round again: none of the three
    strings, and a value that the template literal of the log line can
    convert to a string. *)
Definition keepsPolling (v : jsval) : bool :=
  negb (includes [js "Cancelled"; js "Stopped"] v)
  && negb (is_string v (js "Completed"))
  && stringifies v.

(** The [TaskID] and the [Status] of the body of a reply, where it is an
    object that has them, are values that a template literal can convert to
    a string. *)
Definition renders (r : reply) : bool :=
  match r with
  | Reply _ (VObj fields) =>
      match lookup (js "TaskID") fields with
      | Some v => stringifies v
      | None => true
      end
      && match lookup (js "Status") fields with
         | Some v => stringifies v
         | None => true
         end
  | _ => true
  end.

(** The task endpoint of the service: [https://api.signaloid.io/tasks]. *)
Definition tasksEndpoint : jsstring := Api.API_BASE_URL ++ js "/tasks".

(** A request that carries no header, or goes to the task endpoint of the
    service. *)
Definition keyConfined (e : event) : bool :=
  match e with
  | EvRequest r =>
      match headers r with
      | [] => true
      | _ :: _ => starts_with tasksEndpoint (url r)
      end
  | _ => true
  end.

(** What a computation keeps, for a property [P] of events: it only appends
    events that satisfy [P], it only takes replies from the front, every
    exit is with status 1, and it throws only where [mayThrow] allows. *)
Definition run_ok (P : event -> bool) (mayThrow : bool) (A : Type) (c : M A)
  : Prop :=
  forall w, exists evs used,
    trace (snd (c w)) = trace w ++ evs
    /\ pending w = used ++ pending (snd (c w))
    /\ forallb P evs = true
    /\ match fst (c w) with
       | Threw _ => mayThrow = true
       | Exited code => code = 1%Z
       | _ => True
       end.

(** An outcome whose exit status, if it is an exit, is 1. *)
Definition exits_with_1 (A : Type) (o : outcome A) : Prop :=
  match o with
  | Exited code => code = 1%Z
  | _ => True
  end.

(** An outcome that is not an exception reaching the caller, and whose exit
    status, if it is an exit, is 1. *)
Definition ends_well (A : Type) (o : outcome A) : Prop :=
  match o with
  | Threw _ => False
  | Exited code => code = 1%Z
  | _ => True
  end.

(** The answer [200 body] with an object body. *)
Definition objectReply (fields : list (jsstring * jsval)) : reply :=
  Reply 200 (VObj fields).

Section WithKey.

Variable API_KEY : jsstring.

(** [GET /tasks/{id}] and [GET /tasks/{id}/outputs] for a task identifier of
    any value, as the template literal renders it. *)
Definition statusRequestOf (taskId : jsval) : request :=
  statusRequest API_KEY (to_string taskId).

Definition outputsRequestOf (taskId : jsval) : request :=
  outputsRequest API_KEY (to_string taskId).

(** One round of the loop on a status value of any kind. *)
Definition pollRoundOf (taskId : jsstring) (v : jsval) : list event :=
  [EvRequest (statusRequest API_KEY taskId);
   EvLog [VStr (js "Task status: " ++ to_string v)];
   EvSleep 2000].

(** An event other than the query for the outputs of the task. *)
Definition notOutputsQuery (taskId : jsval) (e : event) : bool :=
  match e with
  | EvRequest r => negb (str_eqb (url r) (url (outputsRequestOf taskId)))
  | _ => true
  end.

End WithKey.

End Runs.
Import Runs.

(* ================================================================== *)
(** * What every computation of the monad keeps *)
(* ================================================================== *)

Section RunInvariant.

Variable P : event -> bool.
Hypothesis P_log : forall args, P (EvLog args) = true.
Hypothesis P_error : forall args, P (EvError args) = true.
Hypothesis P_sleep : forall ms, P (EvSleep ms) = true.
Hypothesis P_exit : P (EvExit 1) = true.

Lemma run_ok_ret (b : bool) (A : Type) (a : A) : run_ok P b (ret a).
Proof.
  intros w. exists [], []. simpl. rewrite app_nil_r. auto.
Qed.

Lemma run_ok_throw (A : Type) (e : error) : run_ok P true (@throw A e).
Proof.
  intros w. exists [], []. simpl. rewrite app_nil_r. auto.
Qed.

Lemma run_ok_emit (b : bool) (e : event) : P e = true -> run_ok P b (emit e).
Proof.
  intros He w. exists [e], []. simpl. rewrite He. auto.
Qed.

Lemma run_ok_exit (b : bool) (A : Type) : run_ok P b (@process_exit A 1).
Proof.
  intros w. exists [EvExit 1], []. simpl. rewrite P_exit. auto.
Qed.

Lemma run_ok_weaken (b : bool) (A : Type) (c : M A) :
  run_ok P false c -> run_ok P b c.
Proof.
  intros H w. destruct (H w) as (evs & used & H1 & H2 & H3 & H4).
  exists evs, used. repeat split; auto.
  destruct (fst (c w)); auto. discriminate.
Qed.

Lemma run_ok_bind (b : bool) (A B : Type) (c : M A) (k : A -> M B) :
  run_ok P b c -> (forall a, run_ok P b (k a)) -> run_ok P b (bind c k).
Proof.
  intros Hc Hk w. unfold bind.
  destruct (Hc w) as (evs & used & H1 & H2 & H3 & H4).
  destruct (c w) as [o w1]; simpl in *.
  destruct o as [a|e|code|]; try (exists evs, used; simpl; now auto).
  destruct (Hk a w1) as (evs' & used' & H1' & H2' & H3' & H4').
  exists (evs ++ evs'), (used ++ used').
  rewrite H1', H1, H2, H2', forallb_app, H3, H3', !app_assoc. auto.
Qed.

Lemma run_ok_try (b b' : bool) (A : Type) (c : M A) (h : error -> M A) :
  run_ok P b' c -> (forall e, run_ok P b (h e)) -> run_ok P b (try_catch c h).
Proof.
  intros Hc Hh w. unfold try_catch.
  destruct (Hc w) as (evs & used & H1 & H2 & H3 & H4).
  destruct (c w) as [o w1]; simpl in *.
  destruct o as [a|e|code|]; try (exists evs, used; simpl; now auto).
  destruct (Hh e w1) as (evs' & used' & H1' & H2' & H3' & H4').
  exists (evs ++ evs'), (used ++ used').
  rewrite H1', H1, H2, H2', forallb_app, H3, H3', !app_assoc. auto.
Qed.

Lemma run_ok_axios_request (r : request) :
  P (EvRequest r) = true -> run_ok P true (axios_request r).
Proof.
  intros Hr [pend tr]. unfold axios_request. cbn [pending trace].
  destruct pend as [|[st d|msg] rest].
  - exists [EvRequest r], []. simpl. rewrite Hr. auto.
  - destruct (resolves st);
      exists [EvRequest r], [Reply st d]; simpl; rewrite Hr; auto.
  - exists [EvRequest r], [NetworkError msg]. simpl. rewrite Hr. auto.
Qed.

Lemma run_ok_axios_get (accepts : jsstring -> bool) (u : jsval)
    (h : list (jsstring * jsval)) :
  (forall s, u = VStr s ->
     P (EvRequest {| method := GET; url := s; body := None; headers := h |})
     = true) ->
  run_ok P true (axios_get accepts u h).
Proof.
  intros Hr. unfold axios_get. destruct u; try apply run_ok_throw.
  destruct (client_sends accepts s); [|apply run_ok_throw].
  apply run_ok_axios_request, Hr. reflexivity.
Qed.

(** A template literal and what is done with its text: the conversion
    throws, or the text is that of [to_string]. *)
Lemma run_ok_template (A : Type) (v : jsval) (k : jsstring -> M A) :
  run_ok P true (k (to_string v)) -> run_ok P true (bind (template v) k).
Proof.
  intros Hk w. unfold bind, template.
  destruct (stringifies v); [apply Hk|].
  exists [], []. simpl. rewrite app_nil_r. auto.
Qed.

Lemma run_ok_template_ok (b : bool) (A : Type) (v : jsval)
    (k : jsstring -> M A) :
  stringifies v = true ->
  run_ok P b (k (to_string v)) -> run_ok P b (bind (template v) k).
Proof.
  intros Hv Hk w. unfold bind, template. rewrite Hv. apply Hk.
Qed.

Lemma run_ok_get_prop (v : jsval) (k : jsstring) : run_ok P true (get_prop v k).
Proof.
  destruct v; simpl; try apply run_ok_ret; apply run_ok_throw.
Qed.

Lemma run_ok_handleApiError (b : bool) (A : Type) (e : error)
    (message : jsstring) :
  run_ok P b (@Api.handleApiError A e message).
Proof.
  unfold Api.handleApiError. apply run_ok_bind.
  - apply run_ok_emit, P_error.
  - intros _. apply run_ok_exit.
Qed.

Lemma run_ok_extractOutput (b : bool) (stdout : jsstring) :
  run_ok P b (Api.extractOutput stdout).
Proof.
  unfold Api.extractOutput.
  destruct (str_match (Api.cleanOutput stdout) Api.reRate);
    destruct (str_match (Api.cleanOutput stdout) Api.reAmount);
    try apply run_ok_ret;
    (apply run_ok_bind; [apply run_ok_emit, P_error|intros _; apply run_ok_exit]).
Qed.

Section WithKey.

Variable API_KEY : jsstring.
Variable accepts : jsstring -> bool.

Lemma run_ok_postTask (applicationCode args : jsstring) :
  P (EvRequest (submitRequest API_KEY applicationCode args)) = true ->
  run_ok P false (Api.postTask API_KEY accepts applicationCode args).
Proof.
  intros Hr. unfold Api.postTask. eapply run_ok_try.
  - apply run_ok_bind.
    + unfold axios_post.
      destruct (client_sends accepts (Api.API_BASE_URL ++ js "/tasks"));
        [apply run_ok_axios_request, Hr|apply run_ok_throw].
    + intros r. apply run_ok_get_prop.
  - intros e. apply run_ok_handleApiError.
Qed.

(** The confirmation line is written outside any [try]: the conversion of
    the identifier can throw to the caller. *)
Lemma run_ok_submitTask (applicationCode args : jsstring) :
  P (EvRequest (submitRequest API_KEY applicationCode args)) = true ->
  run_ok P true (Api.submitTask API_KEY accepts applicationCode args).
Proof.
  intros Hr. unfold Api.submitTask. apply run_ok_bind.
  - apply run_ok_weaken. now apply run_ok_postTask.
  - intros taskId. apply run_ok_template.
    apply run_ok_bind; [apply run_ok_emit, P_log|].
    intros _. apply run_ok_ret.
Qed.

Lemma run_ok_fetchTaskStatus (taskId : jsval) :
  P (EvRequest (statusRequestOf API_KEY taskId)) = true ->
  run_ok P false (Api.fetchTaskStatus API_KEY accepts taskId).
Proof.
  intros Hr. unfold Api.fetchTaskStatus. eapply run_ok_try.
  - apply run_ok_template.
    apply run_ok_bind; [|intros r; apply run_ok_get_prop].
    apply run_ok_axios_get. intros s E. inversion E; subst s. exact Hr.
  - intros e. apply run_ok_handleApiError.
Qed.

(** The log line of a round is written outside any [try] as well. *)
Lemma run_ok_waitLoop (taskId : jsval) :
  P (EvRequest (statusRequestOf API_KEY taskId)) = true ->
  forall fuel, run_ok P true (Api.waitLoop API_KEY accepts fuel taskId).
Proof.
  intros Hr. induction fuel as [|fuel IH].
  - intros w. exists [], []. simpl. rewrite app_nil_r. auto.
  - cbn [Api.waitLoop]. apply run_ok_bind.
    { apply run_ok_weaken. now apply run_ok_fetchTaskStatus. }
    intros status.
    destruct (includes [js "Cancelled"; js "Stopped"] status).
    + apply run_ok_template.
      apply run_ok_bind; [apply run_ok_emit, P_error|].
      intros _. apply run_ok_exit.
    + destruct (is_string status (js "Completed")).
      * apply run_ok_bind; [apply run_ok_emit, P_log|].
        intros _. apply run_ok_ret.
      * apply run_ok_template.
        apply run_ok_bind; [apply run_ok_emit, P_log|]. intros _.
        apply run_ok_bind; [apply run_ok_emit, P_sleep|]. intros _.
        exact IH.
Qed.

Lemma run_ok_waitForTaskCompletion (taskId : jsval) :
  P (EvRequest (statusRequestOf API_KEY taskId)) = true ->
  run_ok P true (Api.waitForTaskCompletion API_KEY accepts taskId).
Proof.
  intros Hr w. unfold Api.waitForTaskCompletion.
  apply (run_ok_waitLoop Hr (S (length (pending w))) w).
Qed.

Lemma run_ok_fetchOutputStream (outputUrl : jsval) :
  (forall u, P (EvRequest (downloadRequest u)) = true) ->
  run_ok P false (Api.fetchOutputStream accepts outputUrl).
Proof.
  intros Hd. unfold Api.fetchOutputStream. eapply run_ok_try.
  - apply run_ok_bind; [|intros r; apply run_ok_ret].
    apply run_ok_axios_get. intros s _. apply Hd.
  - intros e. apply run_ok_handleApiError.
Qed.

(** What [getTaskOutput] does with the answer to its query. *)
Lemma run_ok_output_stage (r : response) :
  (forall u, P (EvRequest (downloadRequest u)) = true) ->
  run_ok P true
    (Stdout <- get_prop (data r) (js "Stdout") ;;
     (if negb (truthy Stdout) then
        console_error [VStr (js "No output found for the task.")] ;;
        process_exit 1
      else ret tt) ;;
     stdout <- Api.fetchOutputStream accepts Stdout ;;
     Api.extractOutput_of stdout).
Proof.
  intros Hd.
  apply run_ok_bind; [apply run_ok_get_prop|]. intros Stdout.
  apply run_ok_bind.
  { destruct (negb (truthy Stdout)); [|apply run_ok_ret].
    apply run_ok_bind; [apply run_ok_emit, P_error|].
    intros _. apply run_ok_exit. }
  intros _. apply run_ok_bind.
  { apply run_ok_weaken. now apply run_ok_fetchOutputStream. }
  intros stdout. unfold Api.extractOutput_of.
  destruct stdout; try apply run_ok_throw. apply run_ok_extractOutput.
Qed.

Lemma run_ok_getTaskOutput (taskId : jsval) :
  P (EvRequest (outputsRequestOf API_KEY taskId)) = true ->
  (forall u, P (EvRequest (downloadRequest u)) = true) ->
  run_ok P false (Api.getTaskOutput API_KEY accepts taskId).
Proof.
  intros Hr Hd. unfold Api.getTaskOutput. eapply run_ok_try.
  - apply run_ok_template.
    apply run_ok_bind; [|intros r; now apply run_ok_output_stage].
    apply run_ok_axios_get. intros s E. inversion E; subst s. exact Hr.
  - intros e. apply run_ok_handleApiError.
Qed.

Lemma run_ok_executeTask (applicationCode args : jsstring) :
  P (EvRequest (submitRequest API_KEY applicationCode args)) = true ->
  (forall taskId, P (EvRequest (statusRequestOf API_KEY taskId)) = true) ->
  (forall taskId, P (EvRequest (outputsRequestOf API_KEY taskId)) = true) ->
  (forall u, P (EvRequest (downloadRequest u)) = true) ->
  run_ok P true (Index.executeTask API_KEY accepts applicationCode args).
Proof.
  intros Hs Hq Ho Hd. unfold Index.executeTask.
  apply run_ok_bind; [now apply run_ok_submitTask|]. intros taskId.
  apply run_ok_bind; [now apply run_ok_waitForTaskCompletion|]. intros _.
  apply run_ok_weaken. now apply run_ok_getTaskOutput.
Qed.

End WithKey.

End RunInvariant.

(* ================================================================== *)
(** * Failures of the transport, stage by stage *)
(* ================================================================== *)

Section Failures.

Variable API_KEY : jsstring.
Variable accepts : jsstring -> bool.

(** A call of the HTTP client on a reply that makes it reject. *)
Lemma axios_request_failed (r : request) (rep : reply) (rest : list reply)
    (tr : list event) :
  failed rep = true ->
  exists e,
    axios_request r {| pending := rep :: rest; trace := tr |} =
    (Threw e, {| pending := rest; trace := tr ++ [EvRequest r] |})
    /\ nullish_or (match err_response e with Some d => d | None => VUndefined end)
         (VStr (err_message e)) = failurePayload rep.
Proof.
  intros H. unfold axios_request. cbn [pending trace].
  destruct rep as [st d|msg].
  - simpl in H. apply negb_true_iff in H. rewrite H.
    eexists. split; reflexivity.
  - eexists. split; reflexivity.
Qed.

Lemma handleApiError_run (A : Type) (e : error) (message : jsstring)
    (w : world) :
  @Api.handleApiError A e message w =
  (Exited 1,
   after w (apiFailure message
              (nullish_or
                 (match err_response e with Some d => d | None => VUndefined end)
                 (VStr (err_message e))))).
Proof.
  unfold Api.handleApiError, bind, console_error, process_exit, emit, after,
    apiFailure. simpl. now rewrite <- app_assoc.
Qed.

(** An awaited call inside [try { ... } catch (error) { handleApiError }]
    that rejects: the rest of the block is skipped. *)
Lemma failed_call (A : Type) (r : request) (k : response -> M A)
    (message : jsstring) (rep : reply) (rest : list reply) (tr : list event) :
  failed rep = true ->
  try_catch (bind (axios_request r) k)
    (fun error => Api.handleApiError error message)
    {| pending := rep :: rest; trace := tr |} =
  (Exited 1,
   {| pending := rest;
      trace := tr ++ [EvRequest r] ++ apiFailure message (failurePayload rep) |}).
Proof.
  intros H. unfold try_catch. rewrite bind_run.
  destruct (axios_request_failed r rep rest tr H) as (e & -> & He).
  rewrite handleApiError_run, He. unfold after. cbn [pending trace].
  now rewrite <- app_assoc.
Qed.

(** A block that starts by rendering a string in a template literal. *)
Lemma try_template (A : Type) (s : jsstring) (k : jsstring -> M A)
    (h : error -> M A) (w : world) :
  try_catch (bind (template (VStr s)) k) h w = try_catch (k s) h w.
Proof. reflexivity. Qed.

(** A failed submission: one request, one error line that carries the body
    of the response or, when there is none, the message of the error, then
    the exit with status 1; no confirmation line and no task identifier. *)
Theorem submitTask_failure (applicationCode args : jsstring) (rep : reply)
    (rest : list reply) (tr : list event) :
  failed rep = true ->
  Api.submitTask API_KEY accepts applicationCode args
    {| pending := rep :: rest; trace := tr |} =
  (Exited 1,
   {| pending := rest;
      trace := tr ++ [EvRequest (submitRequest API_KEY applicationCode args)]
                  ++ apiFailure (js "Error submitting task")
                       (failurePayload rep) |}).
Proof.
  intros H.
  unfold Api.submitTask, Api.postTask, axios_post. rewrite tasks_url_sent.
  rewrite bind_run, failed_call by exact H. reflexivity.
Qed.

(** A failed status query. *)
Lemma fetchTaskStatus_failed (taskId : jsstring) (rep : reply)
    (rest : list reply) (tr : list event) :
  failed rep = true ->
  Api.fetchTaskStatus API_KEY accepts (VStr taskId)
    {| pending := rep :: rest; trace := tr |} =
  (Exited 1,
   {| pending := rest;
      trace := tr ++ [EvRequest (statusRequest API_KEY taskId)]
                  ++ apiFailure (js "Error checking task status")
                       (failurePayload rep) |}).
Proof.
  intros H. unfold Api.fetchTaskStatus, axios_get.
  rewrite try_template, task_url_sent, failed_call by exact H. reflexivity.
Qed.

(** One successful status query, whatever the body holds. *)
Lemma fetchTaskStatus_object (taskId : jsstring)
    (fields : list (jsstring * jsval)) (rest : list reply) (tr : list event) :
  Api.fetchTaskStatus API_KEY accepts (VStr taskId)
    {| pending := objectReply fields :: rest; trace := tr |} =
  (Returned (observed fields),
   {| pending := rest;
      trace := tr ++ [EvRequest (statusRequest API_KEY taskId)] |}).
Proof. reflexivity. Qed.

(** The rounds on a run of bodies whose status keeps the loop going. *)
Lemma waitLoop_rounds_of (taskId : jsstring)
    (bodies : list (list (jsstring * jsval))) :
  forall (fuel : nat) (more : list reply) (tr : list event),
    forallb (fun b => keepsPolling (observed b)) bodies = true ->
    Api.waitLoop API_KEY accepts (length bodies + fuel) (VStr taskId)
      {| pending := map objectReply bodies ++ more; trace := tr |} =
    Api.waitLoop API_KEY accepts fuel (VStr taskId)
      {| pending := more;
         trace := tr ++ flat_map (fun b => pollRoundOf API_KEY taskId (observed b))
                          bodies |}.
Proof.
  induction bodies as [|b bodies IH]; intros fuel more tr H.
  - simpl. now rewrite app_nil_r.
  - simpl in H. apply andb_true_iff in H as [Hb H].
    unfold keepsPolling in Hb. apply andb_true_iff in Hb as [Hb H3].
    apply andb_true_iff in Hb as [H1 H2].
    apply negb_true_iff in H1, H2.
    cbn [length Nat.add map app flat_map Api.waitLoop].
    rewrite bind_run, fetchTaskStatus_object, H1, H2.
    unfold bind, template. rewrite H3.
    unfold ret, console_log, sleep, emit. cbn [pending trace].
    rewrite IH by exact H. unfold pollRoundOf. now rewrite <- !app_assoc.
Qed.

Lemma poller_fuel_of (bodies : list (list (jsstring * jsval)))
    (more : list reply) :
  S (length (map objectReply bodies ++ more)) =
  length bodies + S (length more).
Proof. rewrite length_app, length_map. lia. Qed.

(** A status query that fails in the middle of the polling is fatal at
    once: after the rounds already made, the failed query is followed by
    the error line and the exit with status 1; it is not retried and the
    later replies are left unconsumed. *)
Theorem poller_query_failure (taskId : jsstring)
    (bodies : list (list (jsstring * jsval))) (rep : reply)
    (rest : list reply) (tr : list event) :
  forallb (fun b => keepsPolling (observed b)) bodies = true ->
  failed rep = true ->
  Api.waitForTaskCompletion API_KEY accepts (VStr taskId)
    {| pending := map objectReply bodies ++ rep :: rest; trace := tr |} =
  (Exited 1,
   {| pending := rest;
      trace := tr ++ flat_map (fun b => pollRoundOf API_KEY taskId (observed b))
                       bodies
                  ++ [EvRequest (statusRequest API_KEY taskId)]
                  ++ apiFailure (js "Error checking task status")
                       (failurePayload rep) |}).
Proof.
  intros H Hrep. unfold Api.waitForTaskCompletion. cbn [pending].
  rewrite poller_fuel_of, waitLoop_rounds_of by exact H.
  cbn [length Api.waitLoop].
  rewrite bind_run, fetchTaskStatus_failed by exact Hrep.
  now rewrite <- app_assoc.
Qed.

(** The poller never gives up by itself: as long as every status is
    something other than the three strings [Completed], [Cancelled] and
    [Stopped] (another string, a value that is not a string and that the
    log line can convert to one, or no Status at all), it makes one more
    query after each sleep, without any limit on their number, and is left
    waiting for the answer to the last one. *)
Theorem poller_keeps_polling (taskId : jsstring)
    (bodies : list (list (jsstring * jsval))) (tr : list event) :
  forallb (fun b => keepsPolling (observed b)) bodies = true ->
  let rounds :=
    flat_map (fun b => pollRoundOf API_KEY taskId (observed b)) bodies in
  Api.waitForTaskCompletion API_KEY accepts (VStr taskId)
    {| pending := map objectReply bodies; trace := tr |} =
  (Pending,
   {| pending := [];
      trace := tr ++ rounds ++ [EvRequest (statusRequest API_KEY taskId)] |})
  /\ length (requests (rounds ++ [EvRequest (statusRequest API_KEY taskId)]))
     = S (length bodies)
  /\ sleeps rounds = map (fun _ => 2000%Z) bodies.
Proof.
  intros H rounds. subst rounds. split; [|split].
  - unfold Api.waitForTaskCompletion. cbn [pending].
    rewrite <- (app_nil_r (map objectReply bodies)).
    rewrite poller_fuel_of, waitLoop_rounds_of by exact H.
    cbn. now rewrite <- app_assoc.
  - rewrite requests_app, length_app. cbn [requests flat_map app length].
    clear H. induction bodies as [|b bodies IH]; [reflexivity|].
    cbn [flat_map]. rewrite requests_app, length_app. cbn in *. lia.
  - clear H. induction bodies as [|b bodies IH]; [reflexivity|].
    cbn [flat_map map]. rewrite sleeps_app, IH. reflexivity.
Qed.

End Failures.

(* ================================================================== *)
(** * The output stage and the whole life cycle *)
(* ================================================================== *)

Section OutputStage.

Variable API_KEY : jsstring.
Variable accepts : jsstring -> bool.

(** The metadata query answered 2xx with a non-empty [Stdout] URL: what is
    left to run is the download and the extraction. *)
Lemma getTaskOutput_after_metadata (taskId stdoutUrl : jsstring) (st : Z)
    (fields : list (jsstring * jsval)) (more : list reply) (tr : list event) :
  is2xx st = true ->
  lookup (js "Stdout") fields = Some (VStr stdoutUrl) ->
  stdoutUrl <> [] ->
  Api.getTaskOutput API_KEY accepts (VStr taskId)
    {| pending := Reply st (VObj fields) :: more; trace := tr |} =
  try_catch
    (bind (Api.fetchOutputStream accepts (VStr stdoutUrl)) Api.extractOutput_of)
    (fun error => Api.handleApiError error (js "Error getting task output"))
    {| pending := more;
       trace := tr ++ [EvRequest (outputsRequest API_KEY taskId)] |}.
Proof.
  intros H Hf Hu.
  unfold Api.getTaskOutput, try_catch, axios_get.
  rewrite bind_run, template_str, task_url_sent.
  change (Api.API_BASE_URL ++ js "/tasks/" ++ taskId ++ js "/outputs")
    with (url (outputsRequest API_KEY taskId)).
  change {| method := GET; url := url (outputsRequest API_KEY taskId);
            body := None; headers := Api.createHeaders API_KEY |}
    with (outputsRequest API_KEY taskId).
  rewrite bind_run, axios_request_2xx by exact H.
  rewrite bind_run. unfold get_prop at 1. cbn [data]. rewrite Hf.
  unfold ret at 1. rewrite bind_run.
  destruct stdoutUrl as [|c u]; [contradiction|]. cbn [truthy negb].
  unfold ret at 1. reflexivity.
Qed.

(** A failed metadata query: the error line of [getTaskOutput], the exit
    with status 1, and no download. *)
Theorem getTaskOutput_metadata_failure (taskId : jsstring) (rep : reply)
    (rest : list reply) (tr : list event) :
  failed rep = true ->
  Api.getTaskOutput API_KEY accepts (VStr taskId)
    {| pending := rep :: rest; trace := tr |} =
  (Exited 1,
   {| pending := rest;
      trace := tr ++ [EvRequest (outputsRequest API_KEY taskId)]
                  ++ apiFailure (js "Error getting task output")
                       (failurePayload rep) |}).
Proof.
  intros H. unfold Api.getTaskOutput, axios_get.
  rewrite try_template, task_url_sent, failed_call by exact H. reflexivity.
Qed.

(** A failed download, from a plain URL: the error line is that of
    [fetchOutputStream] and it is the only one, since the exit leaves
    nothing for the enclosing [catch] to handle; the extraction is not
    attempted. *)
Theorem getTaskOutput_download_failure (taskId stdoutUrl : jsstring) (st : Z)
    (fields : list (jsstring * jsval)) (rep : reply) (rest : list reply)
    (tr : list event) :
  is2xx st = true ->
  lookup (js "Stdout") fields = Some (VStr stdoutUrl) ->
  stdoutUrl <> [] ->
  plain_http_url stdoutUrl = true ->
  failed rep = true ->
  Api.getTaskOutput API_KEY accepts (VStr taskId)
    {| pending := Reply st (VObj fields) :: rep :: rest; trace := tr |} =
  (Exited 1,
   {| pending := rest;
      trace := tr ++ [EvRequest (outputsRequest API_KEY taskId);
                      EvRequest (downloadRequest stdoutUrl)]
                  ++ apiFailure (js "Error fetching output stream")
                       (failurePayload rep) |}).
Proof.
  intros H Hf Hu Hplain Hrep.
  pose proof (plain_url_sent accepts stdoutUrl Hplain) as Hsent.
  rewrite getTaskOutput_after_metadata with (stdoutUrl := stdoutUrl)
    by assumption.
  unfold try_catch at 1. rewrite bind_run.
  unfold Api.fetchOutputStream, axios_get.
  rewrite Hsent, failed_call by exact Hrep.
  now rewrite <- app_assoc.
Qed.

(** A body downloaded from a plain URL, that is not a string (the client
    hands over parsed JSON when the text is JSON): the call of [replace]
    throws inside the [try] of [getTaskOutput], whose handler logs and exits
    with status 1. *)
Theorem getTaskOutput_body_not_text (taskId stdoutUrl : jsstring) (st st' : Z)
    (fields : list (jsstring * jsval)) (body : jsval) (rest : list reply)
    (tr : list event) :
  is2xx st = true ->
  lookup (js "Stdout") fields = Some (VStr stdoutUrl) ->
  stdoutUrl <> [] ->
  plain_http_url stdoutUrl = true ->
  is2xx st' = true ->
  (forall text, body <> VStr text) ->
  exists message,
    Api.getTaskOutput API_KEY accepts (VStr taskId)
      {| pending := Reply st (VObj fields) :: Reply st' body :: rest;
         trace := tr |} =
    (Exited 1,
     {| pending := rest;
        trace := tr ++ [EvRequest (outputsRequest API_KEY taskId);
                        EvRequest (downloadRequest stdoutUrl)]
                    ++ apiFailure (js "Error getting task output")
                         (VStr message) |}).
Proof.
  intros H Hf Hu Hplain H' Hbody.
  pose proof (plain_url_sent accepts stdoutUrl Hplain) as Hsent.
  rewrite getTaskOutput_after_metadata with (stdoutUrl := stdoutUrl)
    by assumption.
  unfold try_catch at 1. rewrite bind_run.
  unfold Api.fetchOutputStream, try_catch, axios_get. rewrite Hsent.
  rewrite bind_run, axios_request_2xx by exact H'.
  unfold ret at 1. cbn [data].
  change {| method := GET; url := stdoutUrl; body := None; headers := [] |}
    with (downloadRequest stdoutUrl).
  destruct body as [| |b|text|fs];
    try (exfalso; now apply (Hbody text));
    eexists; unfold Api.extractOutput_of, throw;
    rewrite handleApiError_run; unfold after, type_error;
    cbn [pending trace err_response err_message nullish_or];
    rewrite <- !app_assoc; reflexivity.
Qed.

(** The output stage composes: on metadata with a plain [Stdout] URL and a
    text behind it, [getTaskOutput] is the extraction from that text, after
    the metadata query and a download that carries no header. *)
Theorem getTaskOutput_composes (taskId stdoutUrl text : jsstring) (st st' : Z)
    (fields : list (jsstring * jsval)) (rest : list reply) (tr : list event) :
  is2xx st = true ->
  lookup (js "Stdout") fields = Some (VStr stdoutUrl) ->
  stdoutUrl <> [] ->
  plain_http_url stdoutUrl = true ->
  is2xx st' = true ->
  Api.getTaskOutput API_KEY accepts (VStr taskId)
    {| pending := Reply st (VObj fields) :: Reply st' (VStr text) :: rest;
       trace := tr |} =
  Api.extractOutput text
    {| pending := rest;
       trace := tr ++ [EvRequest (outputsRequest API_KEY taskId);
                       EvRequest {| method := GET; url := stdoutUrl;
                                    body := None; headers := [] |}] |}.
Proof.
  intros H Hf Hu Hplain H'.
  apply getTaskOutput_fetch; try assumption. now apply plain_url_sent.
Qed.

(** The life cycle composes: a submission answered with a task identifier,
    any number of non-terminal statuses, [Completed], metadata with a plain
    [Stdout] URL and a text make [executeTask] the extraction from that
    text; the stages run strictly in the order submit, poll, fetch, and
    every request of the first two stages names the identifier the
    submission returned. *)
Theorem executeTask_composes (applicationCode args taskId stdoutUrl text : jsstring)
    (statuses : list jsstring) (fields : list (jsstring * jsval))
    (rest : list reply) (tr : list event) :
  forallb nonterminal statuses = true ->
  lookup (js "Stdout") fields = Some (VStr stdoutUrl) ->
  stdoutUrl <> [] ->
  plain_http_url stdoutUrl = true ->
  Index.executeTask API_KEY accepts applicationCode args
    {| pending :=
         Reply 200 (VObj [(js "TaskID", VStr taskId)])
           :: map statusReply (statuses ++ [js "Completed"])
           ++ Reply 200 (VObj fields) :: Reply 200 (VStr text) :: rest;
       trace := tr |} =
  Api.extractOutput text
    {| pending := rest;
       trace := tr ++ submission API_KEY applicationCode args taskId
                  ++ pollRounds API_KEY taskId statuses
                  ++ completedRound API_KEY taskId
                  ++ [EvRequest (outputsRequest API_KEY taskId);
                      EvRequest (downloadRequest stdoutUrl)] |}.
Proof.
  intros H Hf Hu Hplain.
  pose proof (plain_url_sent accepts stdoutUrl Hplain) as Hsent.
  unfold Index.executeTask.
  rewrite bind_run, submitTask_2xx by reflexivity. cbv zeta.
  change (lookup (js "TaskID") [(js "TaskID", VStr taskId)])
    with (Some (VStr taskId)).
  rewrite bind_run. unfold Api.waitForTaskCompletion. cbn [pending].
  rewrite poller_fuel, poller_script, waitLoop_rounds by exact H.
  rewrite waitLoop_completed.
  rewrite getTaskOutput_fetch with (stdoutUrl := stdoutUrl)
    by (assumption || reflexivity).
  unfold submission. cbn [to_string]. now rewrite <- !app_assoc.
Qed.

(** A submission answered 2xx with a body that has no [TaskID] is not
    noticed: [submitTask] returns [undefined] and confirms the task
    ["undefined"], and [executeTask] goes on to poll [/tasks/undefined]. *)
Theorem submitTask_without_task_id (applicationCode args : jsstring) (st : Z)
    (fields : list (jsstring * jsval)) (rest : list reply) (tr : list event) :
  is2xx st = true ->
  lookup (js "TaskID") fields = None ->
  Api.submitTask API_KEY accepts applicationCode args
    {| pending := Reply st (VObj fields) :: rest; trace := tr |} =
  (Returned VUndefined,
   {| pending := rest;
      trace := tr ++ submission API_KEY applicationCode args (js "undefined") |})
  /\ Index.executeTask API_KEY accepts applicationCode args
       {| pending := [Reply st (VObj fields)]; trace := tr |} =
     (Pending,
      {| pending := [];
         trace := tr ++ submission API_KEY applicationCode args (js "undefined")
                    ++ [EvRequest (statusRequest API_KEY (js "undefined"))] |}).
Proof.
  intros H Hf.
  assert (Hs : stringifies
                 match lookup (js "TaskID") fields with
                 | Some x => x
                 | None => VUndefined
                 end = true) by now rewrite Hf.
  split.
  - rewrite submitTask_2xx by assumption. cbv zeta. now rewrite Hf.
  - unfold Index.executeTask.
    rewrite bind_run, submitTask_2xx by assumption. cbv zeta. rewrite Hf.
    rewrite bind_run. cbn. now rewrite <- !app_assoc.
Qed.

End OutputStage.

(* ================================================================== *)
(** * Values and URLs the client does not expect *)
(* ================================================================== *)

Section Unexpected.

Variable API_KEY : jsstring.
Variable accepts : jsstring -> bool.

Lemma axios_request_resolves (r : request) (st : Z) (d : jsval)
    (rest : list reply) (tr : list event) :
  resolves st = true ->
  axios_request r {| pending := Reply st d :: rest; trace := tr |} =
  (Returned {| status := st; data := d |},
   {| pending := rest; trace := tr ++ [EvRequest r] |}).
Proof.
  unfold axios_request. intros H. simpl. now rewrite H.
Qed.

(** A value whose conversion throws is an object: it is none of the
    statuses the poller knows. *)
Lemma unrendered_keeps_polling (v : jsval) :
  stringifies v = false ->
  includes [js "Cancelled"; js "Stopped"] v = false
  /\ is_string v (js "Completed") = false.
Proof. destruct v; try discriminate. intros _. split; reflexivity. Qed.

(** An identifier or a status that a template literal cannot convert to a
    string (an object with an own [toString] property) is not handled: the
    TypeError of the confirmation line of [submitTask], or of the log line
    of the poller, is thrown outside any [try] and reaches the caller,
    after the request, with no line written and no exit; [executeTask]
    ends there and makes no status query. *)
Theorem unrendered_value_throws (applicationCode args taskId : jsstring)
    (st : Z) (fields : list (jsstring * jsval)) (v : jsval)
    (rest : list reply) (tr : list event) :
  is2xx st = true ->
  stringifies v = false ->
  (lookup (js "TaskID") fields = Some v ->
   Api.submitTask API_KEY accepts applicationCode args
     {| pending := Reply st (VObj fields) :: rest; trace := tr |} =
   (Threw (type_error (js "Cannot convert object to primitive value")),
    {| pending := rest;
       trace := tr ++ [EvRequest (submitRequest API_KEY applicationCode args)] |})
   /\ Index.executeTask API_KEY accepts applicationCode args
        {| pending := Reply st (VObj fields) :: rest; trace := tr |} =
      (Threw (type_error (js "Cannot convert object to primitive value")),
       {| pending := rest;
          trace := tr ++ [EvRequest (submitRequest API_KEY applicationCode args)] |}))
  /\ (lookup (js "Status") fields = Some v ->
      Api.waitForTaskCompletion API_KEY accepts (VStr taskId)
        {| pending := Reply st (VObj fields) :: rest; trace := tr |} =
      (Threw (type_error (js "Cannot convert object to primitive value")),
       {| pending := rest;
          trace := tr ++ [EvRequest (statusRequest API_KEY taskId)] |})).
Proof.
  intros H Hv. split.
  - intros Hf.
    assert (Hs : Api.submitTask API_KEY accepts applicationCode args
              {| pending := Reply st (VObj fields) :: rest; trace := tr |} =
            (Threw (type_error (js "Cannot convert object to primitive value")),
             {| pending := rest;
                trace := tr ++ [EvRequest (submitRequest API_KEY
                                             applicationCode args)] |})).
    { unfold Api.submitTask, Api.postTask, try_catch, axios_post.
      rewrite tasks_url_sent.
      unfold bind at 1 2. rewrite axios_request_2xx by exact H.
      unfold get_prop, data, ret, bind, template. rewrite Hf, Hv.
      reflexivity. }
    split; [exact Hs|].
    unfold Index.executeTask. now rewrite bind_run, Hs.
  - intros Hf. destruct (unrendered_keeps_polling v Hv) as [H1 H2].
    unfold Api.waitForTaskCompletion. cbn [pending length Api.waitLoop].
    rewrite bind_run.
    unfold Api.fetchTaskStatus, axios_get.
    rewrite try_template, task_url_sent. unfold try_catch.
    rewrite bind_run.
    change {| method := GET; url := Api.API_BASE_URL ++ js "/tasks/" ++ taskId;
              body := None; headers := Api.createHeaders API_KEY |}
      with (statusRequest API_KEY taskId).
    rewrite axios_request_2xx by exact H.
    unfold get_prop, data, ret. rewrite Hf, H1, H2.
    unfold bind, template. now rewrite Hv.
Qed.

(** A plain URL has a colon, after its scheme. *)
Lemma no_colon_not_plain (s : jsstring) :
  has_colon s = false -> plain_http_url s = false.
Proof.
  unfold plain_http_url. intros H.
  destruct (strip_prefix (js "https://") s) as [t|] eqn:E.
  { apply strip_prefix_Some in E. subst s. discriminate H. }
  destruct (strip_prefix (js "http://") s) as [t|] eqn:E'; [|reflexivity].
  apply strip_prefix_Some in E'. subst s. discriminate H.
Qed.

(** A [Stdout] without a colon, a file name for one, is not an absolute
    URL: the client rejects it before anything is sent, so the metadata
    query is the only request, the error line is that of
    [fetchOutputStream], the process exits with status 1 and the replies
    that follow are left unconsumed. *)
Theorem getTaskOutput_unsendable_url (taskId stdoutUrl : jsstring) (st : Z)
    (fields : list (jsstring * jsval)) (rest : list reply) (tr : list event) :
  is2xx st = true ->
  lookup (js "Stdout") fields = Some (VStr stdoutUrl) ->
  stdoutUrl <> [] ->
  has_colon stdoutUrl = false ->
  exists message,
    Api.getTaskOutput API_KEY accepts (VStr taskId)
      {| pending := Reply st (VObj fields) :: rest; trace := tr |} =
    (Exited 1,
     {| pending := rest;
        trace := tr ++ [EvRequest (outputsRequest API_KEY taskId)]
                    ++ apiFailure (js "Error fetching output stream")
                         (VStr message) |}).
Proof.
  intros H Hf Hu Hcolon.
  assert (Hsent : client_sends accepts stdoutUrl = false).
  { unfold client_sends. rewrite Hcolon, (no_colon_not_plain _ Hcolon).
    reflexivity. }
  rewrite getTaskOutput_after_metadata with (stdoutUrl := stdoutUrl)
    by assumption.
  unfold try_catch at 1. rewrite bind_run.
  unfold Api.fetchOutputStream, try_catch, axios_get. rewrite Hsent.
  eexists. rewrite bind_run. unfold throw.
  rewrite handleApiError_run. unfold after, type_error.
  cbn [pending trace err_response err_message nullish_or].
  rewrite <- app_assoc. reflexivity.
Qed.

(** A response with status 0 is a success for the client, which settles by
    [!response.status || validateStatus(response.status)]: a submission so
    answered returns its identifier after the confirmation line, and a
    download so answered hands its text to the extraction. *)
Theorem status_zero_resolves (applicationCode args taskId id stdoutUrl text : jsstring)
    (st : Z) (fields : list (jsstring * jsval)) (rest : list reply)
    (tr : list event) :
  (lookup (js "TaskID") fields = Some (VStr id) ->
   Api.submitTask API_KEY accepts applicationCode args
     {| pending := Reply 0 (VObj fields) :: rest; trace := tr |} =
   (Returned (VStr id),
    {| pending := rest;
       trace := tr ++ submission API_KEY applicationCode args id |}))
  /\ (is2xx st = true ->
      lookup (js "Stdout") fields = Some (VStr stdoutUrl) ->
      stdoutUrl <> [] ->
      plain_http_url stdoutUrl = true ->
      Api.getTaskOutput API_KEY accepts (VStr taskId)
        {| pending := Reply st (VObj fields) :: Reply 0 (VStr text) :: rest;
           trace := tr |} =
      Api.extractOutput text
        {| pending := rest;
           trace := tr ++ [EvRequest (outputsRequest API_KEY taskId);
                           EvRequest (downloadRequest stdoutUrl)] |}).
Proof.
  split.
  - intros Hf.
    unfold Api.submitTask, Api.postTask, try_catch, axios_post.
    rewrite tasks_url_sent.
    unfold bind at 1 2. rewrite axios_request_resolves by reflexivity.
    unfold get_prop, data, ret, bind, template. rewrite Hf.
    cbn [stringifies to_string].
    unfold ret, console_log, emit, submission. cbn [pending trace].
    now rewrite <- app_assoc.
  - intros H Hf Hu Hplain.
    pose proof (plain_url_sent accepts stdoutUrl Hplain) as Hsent.
    rewrite getTaskOutput_after_metadata with (stdoutUrl := stdoutUrl)
      by assumption.
    unfold try_catch at 1. rewrite bind_run.
    unfold Api.fetchOutputStream, try_catch, axios_get. rewrite Hsent.
    rewrite bind_run, axios_request_resolves by reflexivity.
    unfold ret at 1. cbn [data Api.extractOutput_of].
    rewrite <- app_assoc. cbn [app].
    change {| method := GET; url := stdoutUrl; body := None; headers := [] |}
      with (downloadRequest stdoutUrl).
    rewrite extractOutput_eq.
    destruct (str_match (Api.cleanOutput text) Api.reRate);
      destruct (str_match (Api.cleanOutput text) Api.reAmount); reflexivity.
Qed.

End Unexpected.

(* ================================================================== *)
(** * What holds of every run *)
(* ================================================================== *)

Section EveryRun.

Variable API_KEY : jsstring.
Variable accepts : jsstring -> bool.

Lemma run_ok_outcome (P : event -> bool) (A : Type) (c : M A) (w : world) :
  run_ok P false c -> ends_well (fst (c w)).
Proof.
  intros H. destruct (H w) as (evs & used & _ & _ & _ & Ho).
  unfold ends_well. destruct (fst (c w)); auto. discriminate.
Qed.

Lemma run_ok_exits (P : event -> bool) (b : bool) (A : Type) (c : M A)
    (w : world) :
  run_ok P b c -> exits_with_1 (fst (c w)).
Proof.
  intros H. destruct (H w) as (evs & used & _ & _ & _ & Ho).
  unfold exits_with_1. destruct (fst (c w)); auto.
Qed.

(** The replies left are among the replies there were. *)
Lemma renders_left (P : event -> bool) (b : bool) (A : Type) (c : M A)
    (w : world) :
  run_ok P b c ->
  forallb renders (pending w) = true ->
  forallb renders (pending (snd (c w))) = true.
Proof.
  intros H Hw. destruct (H w) as (evs & used & _ & Hp & _).
  rewrite Hp, forallb_app in Hw. now apply andb_true_iff in Hw.
Qed.

(** The identifier that the submission reads is the [TaskID] of a reply. *)
Lemma postTask_renders (applicationCode args : jsstring) (w : world)
    (v : jsval) :
  forallb renders (pending w) = true ->
  fst (Api.postTask API_KEY accepts applicationCode args w) = Returned v ->
  stringifies v = true.
Proof.
  unfold Api.postTask, try_catch, axios_post. rewrite tasks_url_sent.
  rewrite bind_run. unfold axios_request.
  destruct w as [pend tr]. cbn [pending trace].
  destruct pend as [|[st d|msg] rest]; cbn [forallb]; intros Hw.
  - discriminate.
  - apply andb_true_iff in Hw as [Hr _]. destruct (resolves st).
    + destruct d as [| |b|s|fields]; cbn; try discriminate;
        try (intros E; inversion E; reflexivity).
      intros E; inversion E. cbn in Hr.
      apply andb_true_iff in Hr as [Hr _].
      clear E H0. destruct (lookup _ fields); [exact Hr|reflexivity].
    + cbn. discriminate.
  - cbn. discriminate.
Qed.

(** The status that a query reads is the [Status] of a reply. *)
Lemma fetchTaskStatus_renders (taskId : jsval) (w : world) (v : jsval) :
  forallb renders (pending w) = true ->
  fst (Api.fetchTaskStatus API_KEY accepts taskId w) = Returned v ->
  stringifies v = true.
Proof.
  unfold Api.fetchTaskStatus, try_catch. rewrite bind_run. unfold template.
  destruct (stringifies taskId); [|cbn; discriminate].
  unfold ret. rewrite bind_run. unfold axios_get.
  rewrite task_url_sent. unfold axios_request.
  destruct w as [pend tr]. cbn [pending trace].
  destruct pend as [|[st d|msg] rest]; cbn [forallb]; intros Hw.
  - discriminate.
  - apply andb_true_iff in Hw as [Hr _]. destruct (resolves st).
    + destruct d as [| |b|s|fields]; cbn; try discriminate;
        try (intros E; inversion E; reflexivity).
      intros E; inversion E. cbn in Hr.
      apply andb_true_iff in Hr as [_ Hr].
      clear E H0. destruct (lookup _ fields); [exact Hr|reflexivity].
    + cbn. discriminate.
  - cbn. discriminate.
Qed.

(** The submitter, where the identifiers of the replies can be rendered. *)
Lemma submitTask_renders (applicationCode args : jsstring) (w : world) :
  forallb renders (pending w) = true ->
  ends_well (fst (Api.submitTask API_KEY accepts applicationCode args w))
  /\ forallb renders
       (pending (snd (Api.submitTask API_KEY accepts applicationCode args w)))
     = true.
Proof.
  intros Hw. split.
  - assert (Hp : run_ok (fun _ => true) false
                   (Api.postTask API_KEY accepts applicationCode args))
      by now apply run_ok_postTask.
    pose proof (run_ok_outcome w Hp) as Ho.
    pose proof (@postTask_renders applicationCode args w) as Hv.
    unfold Api.submitTask. rewrite bind_run.
    destruct (Api.postTask API_KEY accepts applicationCode args w)
      as [[v|e|code|] w1]; cbn [fst] in *; try exact Ho.
    unfold bind, template. now rewrite (Hv v Hw eq_refl).
  - apply renders_left with (P := fun _ => true) (b := true); [|exact Hw].
    now apply run_ok_submitTask.
Qed.

(** The poller, where the statuses of the replies can be rendered. *)
Lemma waitLoop_renders (taskId : jsval) :
  forall fuel w,
    forallb renders (pending w) = true ->
    ends_well (fst (Api.waitLoop API_KEY accepts fuel taskId w)).
Proof.
  assert (Hf : run_ok (fun _ => true) false
                 (Api.fetchTaskStatus API_KEY accepts taskId))
    by now apply run_ok_fetchTaskStatus.
  induction fuel as [|fuel IH]; intros w Hw; [exact I|].
  cbn [Api.waitLoop]. rewrite bind_run.
  pose proof (run_ok_outcome w Hf) as Ho.
  pose proof (renders_left w Hf Hw) as Hw1.
  pose proof (@fetchTaskStatus_renders taskId w) as Hv.
  destruct (Api.fetchTaskStatus API_KEY accepts taskId w)
    as [[status|e|code|] w1]; cbn [fst snd] in *; try exact Ho.
  specialize (Hv status Hw eq_refl).
  destruct (includes [js "Cancelled"; js "Stopped"] status).
  - unfold bind, template. rewrite Hv. reflexivity.
  - destruct (is_string status (js "Completed")); [exact I|].
    unfold bind at 1, template. rewrite Hv. unfold ret.
    unfold bind, console_log, sleep, emit. cbn [pending trace].
    apply IH. exact Hw1.
Qed.

(** No exception reaches the caller of [fetchTaskStatus] or of
    [getTaskOutput], whatever the replies, and every exit of the process is
    with status 1.  The confirmation line of [submitTask] and the log line
    of the poller are written outside any [try]: no exception reaches the
    caller of [submitTask], [waitForTaskCompletion] or [executeTask] as
    long as no reply holds, as [TaskID] or as [Status], an object with an
    own [toString] property. *)
Theorem client_fails_only_by_exit_1 (applicationCode args : jsstring)
    (taskId : jsval) (w : world) :
  (ends_well (fst (Api.fetchTaskStatus API_KEY accepts taskId w))
   /\ ends_well (fst (Api.getTaskOutput API_KEY accepts taskId w)))
  /\ (exits_with_1 (fst (Api.submitTask API_KEY accepts applicationCode args w))
      /\ exits_with_1 (fst (Api.waitForTaskCompletion API_KEY accepts taskId w))
      /\ exits_with_1
           (fst (Index.executeTask API_KEY accepts applicationCode args w)))
  /\ (forallb renders (pending w) = true ->
      ends_well (fst (Api.submitTask API_KEY accepts applicationCode args w))
      /\ ends_well (fst (Api.waitForTaskCompletion API_KEY accepts taskId w))
      /\ ends_well
           (fst (Index.executeTask API_KEY accepts applicationCode args w))).
Proof.
  split; [|split].
  - split; apply (@run_ok_outcome (fun _ => true)).
    + now apply run_ok_fetchTaskStatus.
    + now apply run_ok_getTaskOutput.
  - split; [|split]; apply (@run_ok_exits (fun _ => true) true).
    + now apply run_ok_submitTask.
    + now apply run_ok_waitForTaskCompletion.
    + now apply run_ok_executeTask.
  - intros Hw. split; [now apply submitTask_renders|].
    split; [now apply waitLoop_renders|].
    destruct (submitTask_renders applicationCode args w Hw) as [Hs Hw1].
    unfold Index.executeTask. rewrite bind_run.
    destruct (Api.submitTask API_KEY accepts applicationCode args w)
      as [[id|e|code|] w1]; cbn [fst snd] in *; try exact Hs.
    rewrite bind_run.
    pose proof (waitLoop_renders id (S (length (pending w1))) w1 Hw1) as Hp.
    fold (Api.waitForTaskCompletion API_KEY accepts id w1) in Hp.
    destruct (Api.waitForTaskCompletion API_KEY accepts id w1)
      as [[[]|e|code|] w2]; cbn [fst] in *; try exact Hp.
    apply (@run_ok_outcome (fun _ => true)).
    now apply run_ok_getTaskOutput.
Qed.

Lemma keyConfined_requests (evs : list event) :
  forallb keyConfined evs = true ->
  forall r, In r (requests evs) ->
    headers r = [] \/ starts_with tasksEndpoint (url r) = true.
Proof.
  induction evs as [|e evs IH]; intros H r Hin; [contradiction|].
  simpl in H. apply andb_true_iff in H as [He H].
  unfold requests in Hin. cbn [flat_map] in Hin.
  apply in_app_or in Hin as [Hin|Hin]; [|now apply IH].
  destruct e as [r'| | | |]; try contradiction.
  destruct Hin as [<-|[]]. unfold keyConfined in He.
  destruct (headers r'); auto.
Qed.

(** The API key never leaves the service: in every run of [executeTask],
    whatever the replies (and whatever URL the metadata names), each
    request is either without any header, as the download of the text is,
    or addressed to a URL that starts with
    [https://api.signaloid.io/tasks]. *)
Theorem api_key_stays_with_service (applicationCode args : jsstring)
    (w : world) :
  exists evs,
    trace (snd (Index.executeTask API_KEY accepts applicationCode args w)) =
      trace w ++ evs
    /\ forall r, In r (requests evs) ->
         headers r = [] \/ starts_with tasksEndpoint (url r) = true.
Proof.
  assert (H : run_ok keyConfined true
                (Index.executeTask API_KEY accepts applicationCode args))
    by (apply run_ok_executeTask; reflexivity).
  destruct (H w) as (evs & used & Htr & _ & Hall & _).
  exists evs. split; [exact Htr|]. now apply keyConfined_requests.
Qed.

(** The status queries and the submission are not the outputs query. *)
Lemma status_not_outputs (taskId : jsval) :
  notOutputsQuery API_KEY taskId
    (EvRequest (statusRequestOf API_KEY taskId)) = true.
Proof.
  unfold notOutputsQuery, statusRequestOf, outputsRequestOf, statusRequest,
    outputsRequest. cbn [url].
  apply negb_true_iff, str_eqb_neq. intros E.
  apply app_inv_head in E.
  apply (f_equal (@length jschar)) in E. rewrite length_app in E.
  simpl in E. lia.
Qed.

Lemma submit_not_outputs (applicationCode args : jsstring) (taskId : jsval) :
  notOutputsQuery API_KEY taskId
    (EvRequest (submitRequest API_KEY applicationCode args)) = true.
Proof.
  unfold notOutputsQuery, outputsRequestOf, outputsRequest, submitRequest.
  cbn [url]. apply negb_true_iff, str_eqb_neq. intros E.
  change (js "https://api.signaloid.io/tasks")
    with (js "https://api.signaloid.io/tasks" ++ []) in E.
  change (js "https://api.signaloid.io/tasks/" ++ to_string taskId ++ js "/outputs")
    with (js "https://api.signaloid.io/tasks"
            ++ js "/" ++ to_string taskId ++ js "/outputs") in E.
  apply app_inv_head in E. discriminate E.
Qed.

(** The poller returns only after it has logged [Completed]. *)
Lemma waitLoop_returned (taskId : jsval) :
  forall fuel w,
    fst (Api.waitLoop API_KEY accepts fuel taskId w) = Returned tt ->
    exists evs,
      trace (snd (Api.waitLoop API_KEY accepts fuel taskId w)) = trace w ++ evs
      /\ In (EvLog [VStr (js "Task status: Completed")]) evs.
Proof.
  induction fuel as [|fuel IH]; intros w; [discriminate|].
  cbn [Api.waitLoop]. rewrite bind_run.
  assert (Hf : run_ok (fun _ => true) false
                 (Api.fetchTaskStatus API_KEY accepts taskId))
    by now apply run_ok_fetchTaskStatus.
  destruct (Hf w) as (evs0 & _ & Htr & _).
  destruct (Api.fetchTaskStatus API_KEY accepts taskId w) as [[status|e|code|] w1];
    try discriminate.
  cbn [snd] in Htr.
  destruct (includes [js "Cancelled"; js "Stopped"] status).
  { unfold bind, template. destruct (stringifies status); discriminate. }
  destruct (is_string status (js "Completed")).
  - intros _. unfold bind, console_log, emit, ret. cbn [snd pending trace].
    exists (evs0 ++ [EvLog [VStr (js "Task status: Completed")]]).
    rewrite Htr, app_assoc. split; [reflexivity|].
    apply in_or_app. right. now left.
  - unfold bind at 1, template.
    destruct (stringifies status); [|discriminate].
    unfold ret, bind, console_log, sleep, emit. cbn [pending trace].
    intros H. destruct (IH _ H) as (evs & Hevs & Hin).
    exists (evs0 ++ [EvLog [VStr (js "Task status: " ++ to_string status)];
                     EvSleep 2000] ++ evs).
    rewrite Hevs. cbn [trace]. rewrite Htr, <- !app_assoc.
    split; [reflexivity|].
    apply in_or_app. right. apply in_or_app. now right.
Qed.

(** An event that [Q] rejects, in a list that starts with events that [Q]
    accepts, comes after them. *)
Lemma split_after (Q : event -> bool) (x : event) :
  forall l1 l3 before later,
    forallb Q l1 = true -> Q x = false ->
    l1 ++ l3 = before ++ x :: later ->
    exists b3, before = l1 ++ b3 /\ l3 = b3 ++ x :: later.
Proof.
  induction l1 as [|a l1 IH]; intros l3 before later H1 Hx E.
  - exists before. auto.
  - cbn in H1. apply andb_true_iff in H1 as [Ha H1].
    destruct before as [|b before]; cbn in E; inversion E; subst.
    + rewrite Hx in Ha. discriminate.
    + destruct (IH _ _ _ H1 Hx H2) as (b3 & -> & ->). now exists b3.
Qed.

(** The outputs of a task are asked for only after the poller has seen it
    [Completed]: in every run of [executeTask] in which the submission
    returned an identifier, each request to the outputs URL of that
    identifier comes after the line [Task status: Completed] among the
    events of the run. *)
Theorem outputs_only_after_completed (applicationCode args : jsstring)
    (w : world) (taskId : jsval) (before later : list event) (r : request) :
  fst (Api.submitTask API_KEY accepts applicationCode args w)
    = Returned taskId ->
  trace (snd (Index.executeTask API_KEY accepts applicationCode args w)) =
    trace w ++ before ++ EvRequest r :: later ->
  url r = url (outputsRequestOf API_KEY taskId) ->
  In (EvLog [VStr (js "Task status: Completed")]) before.
Proof.
  intros Hsub Htrace Hurl.
  assert (Hr : notOutputsQuery API_KEY taskId (EvRequest r) = false).
  { unfold notOutputsQuery. now rewrite Hurl, str_eqb_refl. }
  assert (Hs : run_ok (notOutputsQuery API_KEY taskId) true
                 (Api.submitTask API_KEY accepts applicationCode args)).
  { apply run_ok_submitTask; first [apply submit_not_outputs|reflexivity]. }
  assert (Hp : run_ok (notOutputsQuery API_KEY taskId) true
                 (Api.waitForTaskCompletion API_KEY accepts taskId)).
  { apply run_ok_waitForTaskCompletion;
      first [apply status_not_outputs|reflexivity]. }
  assert (Hg : run_ok (fun _ => true) false
                 (Api.getTaskOutput API_KEY accepts taskId))
    by now apply run_ok_getTaskOutput.
  unfold Index.executeTask in Htrace. rewrite bind_run in Htrace.
  destruct (Hs w) as (evs1 & _ & Htr1 & _ & Hall1 & _).
  destruct (Api.submitTask API_KEY accepts applicationCode args w) as [o w1].
  cbn [fst snd] in *. subst o.
  rewrite bind_run in Htrace.
  destruct (Hp w1) as (evs2 & _ & Htr2 & _ & Hall2 & _).
  pose proof (@waitLoop_returned taskId (S (length (pending w1))) w1) as Hret.
  fold (Api.waitForTaskCompletion API_KEY accepts taskId w1) in Hret.
  destruct (Api.waitForTaskCompletion API_KEY accepts taskId w1) as [o2 w2].
  cbn [fst snd] in *.
  assert (Hall : forallb (notOutputsQuery API_KEY taskId) (evs1 ++ evs2) = true)
    by (now rewrite forallb_app, Hall1, Hall2).
  assert (Hend : forall evs3,
            trace w2 ++ evs3 = trace w ++ before ++ EvRequest r :: later ->
            exists b3, before = (evs1 ++ evs2) ++ b3
                       /\ evs3 = b3 ++ EvRequest r :: later).
  { intros evs3 E. rewrite Htr2, Htr1, <- !app_assoc in E.
    apply app_inv_head in E. rewrite app_assoc in E.
    eapply split_after; [exact Hall|exact Hr|exact E]. }
  assert (Hstop : trace w2 = trace w ++ before ++ EvRequest r :: later ->
                  False).
  { intros E. rewrite <- (app_nil_r (trace w2)) in E.
    destruct (Hend [] E) as (b3 & _ & E').
    destruct b3; discriminate E'. }
  destruct o2 as [[]|e|code|]; try (exfalso; exact (Hstop Htrace)).
  destruct (Hret eq_refl) as (evs2' & Htr2' & Hin).
  assert (evs2' = evs2)
    by (rewrite Htr2 in Htr2'; now apply app_inv_head in Htr2').
  subst evs2'.
  destruct (Hg w2) as (evs3 & _ & Htr3 & _). rewrite Htr3 in Htrace.
  destruct (Hend evs3 Htrace) as (b3 & -> & _).
  apply in_or_app. left. apply in_or_app. now right.
Qed.

End EveryRun.

(* ================================================================== *)
(** * The matches and the numbers read from them *)
(* ================================================================== *)

Module Placement.

(** The match [mr] of [/label(\d+\.\d+)/] in [s] sits at the first place
    where the label is followed by digits, a dot and digits, and takes the
    digits after the dot to their end. *)
Definition placed (label s : jsstring) (mr : match_result) : Prop :=
  exists pre cap rest,
    s = pre ++ label ++ cap ++ rest
    /\ index mr = length pre
    /\ whole mr = label ++ cap
    /\ group1 mr = Some cap
    /\ decimal_shape cap = true
    /\ match rest with [] => True | c :: _ => isDigit c = false end
    /\ forall a b, pre = a ++ b -> b <> [] ->
         match strip_prefix label (b ++ label ++ cap ++ rest) with
         | Some t => scan_decimal t
         | None => None
         end = None.

(** The digits of a capture and the length of its fraction: the number
    written is [digits / 10 ^ scale]. *)
Definition written (ip fp : jsstring) : number :=
  round_ratio false (digits_value (ip ++ fp)) (10 ^ Z.of_nat (length fp)).

End Placement.
Import Placement.

Section Matches.

(** Where the direct search finds its match. *)
Lemma find_labelled_place (label : jsstring) :
  forall s i mr,
    find_labelled label i s = Some mr ->
    exists pre cap rest,
      s = pre ++ label ++ cap ++ rest
      /\ index mr = i + length pre
      /\ whole mr = label ++ cap
      /\ group1 mr = Some cap
      /\ decimal_shape cap = true
      /\ match rest with [] => True | c :: _ => isDigit c = false end
      /\ forall a b, pre = a ++ b -> b <> [] ->
           match strip_prefix label (b ++ label ++ cap ++ rest) with
           | Some t => scan_decimal t
           | None => None
           end = None.
Proof.
  assert (Hhit : forall s i mr t cap rest,
            strip_prefix label s = Some t ->
            scan_decimal t = Some (cap, rest) ->
            mr = {| index := i; whole := label ++ cap; group1 := Some cap |} ->
            exists pre cap rest,
              s = pre ++ label ++ cap ++ rest
              /\ index mr = i + length pre
              /\ whole mr = label ++ cap
              /\ group1 mr = Some cap
              /\ decimal_shape cap = true
              /\ match rest with [] => True | c :: _ => isDigit c = false end
              /\ forall a b, pre = a ++ b -> b <> [] ->
                   match strip_prefix label (b ++ label ++ cap ++ rest) with
                   | Some t => scan_decimal t
                   | None => None
                   end = None).
  { intros s i mr t cap rest E F ->.
    pose proof (scan_decimal_rest _ F) as Hrest.
    apply strip_prefix_Some in E. apply scan_decimal_Some in F as [F Hshape].
    exists [], cap, rest. cbn [app length index whole group1].
    rewrite Nat.add_0_r, E, F. repeat split; auto.
    intros a b Hab Hb. destruct a; destruct b; try discriminate. now elim Hb. }
  induction s as [|c s IH]; intros i mr; rewrite find_labelled_eq.
  - destruct (strip_prefix label []) as [t|] eqn:E; [|discriminate].
    destruct (scan_decimal t) as [[cap rest]|] eqn:F; [|discriminate].
    intros H; inversion H. eapply Hhit; eauto.
  - destruct (strip_prefix label (c :: s)) as [t|] eqn:E.
    + destruct (scan_decimal t) as [[cap rest]|] eqn:F.
      * intros H; inversion H. eapply Hhit; eauto.
      * intros H. destruct (IH _ _ H)
          as (pre & cap & rest & Hs & Hi & Hw & Hg & Hshape & Hrest & Hleft).
        exists (c :: pre), cap, rest. cbn [app length].
        rewrite Hs, Hi, Nat.add_succ_r. repeat split; auto.
        intros a b Hab Hb. destruct a as [|x a].
        -- cbn [app] in Hab. subst b. cbn [app].
           rewrite <- Hs, E. exact F.
        -- cbn [app] in Hab. inversion Hab; subst.
           exact (Hleft a b eq_refl Hb).
    + intros H. destruct (IH _ _ H)
        as (pre & cap & rest & Hs & Hi & Hw & Hg & Hshape & Hrest & Hleft).
      exists (c :: pre), cap, rest. cbn [app length].
      rewrite Hs, Hi, Nat.add_succ_r. repeat split; auto.
      intros a b Hab Hb. destruct a as [|x a].
      * cbn [app] in Hab. subst b. cbn [app]. rewrite <- Hs, E. reflexivity.
      * cbn [app] in Hab. inversion Hab; subst.
        exact (Hleft a b eq_refl Hb).
Qed.

(** The two extraction patterns need no backtracking: on every text, the
    match of the regular expression is the result of one scan from left to
    right for the first place where the label is followed by a run of
    digits, a dot and a run of digits, the runs taken as long as they go. *)
Theorem extraction_patterns_are_one_scan (s : jsstring) :
  str_match s Api.reRate = find_labelled rateLabel 0 s
  /\ str_match s Api.reAmount = find_labelled amountLabel 0 s.
Proof.
  rewrite reRate_labelled, reAmount_labelled.
  split; apply exec_at_labelled.
Qed.

(** A match of either pattern is the leftmost one and is never cut short:
    the text splits as [pre ++ label ++ capture ++ rest], the match starts
    at the length of [pre], no place inside [pre] has the label followed by
    digits, a dot and a digit, and [rest] does not start with a digit, so
    the capture holds all the digits of the fraction. *)
Theorem extraction_match_leftmost_and_whole (s : jsstring) (mr : match_result) :
  (str_match s Api.reRate = Some mr -> placed rateLabel s mr)
  /\ (str_match s Api.reAmount = Some mr -> placed amountLabel s mr).
Proof.
  rewrite reRate_labelled, reAmount_labelled.
  unfold str_match, exec, placed. rewrite !exec_at_labelled.
  split; intros H;
    destruct (find_labelled_place _ _ _ H) as (pre & cap & rest & Hp);
    exists pre, cap, rest; exact Hp.
Qed.

Lemma isDigit_range (c : jschar) :
  isDigit c = true -> (48 <= c <= 57)%N.
Proof.
  unfold isDigit. intros H. apply andb_true_iff in H as [H1 H2].
  apply N.leb_le in H1, H2. lia.
Qed.

Lemma digit_not_space (c : jschar) : isDigit c = true -> isWhiteSpace c = false.
Proof.
  intros H. apply isDigit_range in H. unfold isWhiteSpace.
  cbn [existsb].
  repeat match goal with
         | |- context [N.eqb c ?n] =>
             replace (N.eqb c n) with false by (symmetry; apply N.eqb_neq; lia)
         end.
  reflexivity.
Qed.

(** [parseFloat] on digits, a dot, digits: no trimming, no sign, no
    exponent; the value is the digits over a power of ten, rounded once. *)
Lemma parseFloat_decimal (ip fp : jsstring) :
  ip <> [] -> fp <> [] ->
  forallb isDigit ip = true -> forallb isDigit fp = true ->
  parseFloat (ip ++ [46%N] ++ fp) = written ip fp.
Proof.
  intros Hip Hfp Dip Dfp.
  destruct ip as [|x ip]; [contradiction|].
  destruct fp as [|y fp]; [contradiction|].
  assert (Dx : isDigit x = true) by (simpl in Dip; now apply andb_true_iff in Dip).
  pose proof (isDigit_range x Dx) as Rx.
  unfold parseFloat, written.
  cbn [app dropWhile]. rewrite (digit_not_space x Dx).
  replace (N.eqb x 45) with false by (symmetry; apply N.eqb_neq; lia).
  replace (N.eqb x 43) with false by (symmetry; apply N.eqb_neq; lia).
  change (strip_prefix (js "Infinity") (x :: ip ++ 46%N :: y :: fp))
    with (if N.eqb 73 x
          then strip_prefix (js "nfinity") (ip ++ 46%N :: y :: fp)
          else None).
  replace (N.eqb 73 x) with false by (symmetry; apply N.eqb_neq; lia).
  change (x :: ip ++ 46%N :: y :: fp) with ((x :: ip) ++ 46%N :: y :: fp).
  rewrite (span_app isDigit (x :: ip) (46%N :: y :: fp) Dip eq_refl).
  rewrite N.eqb_refl.
  rewrite <- (app_nil_r (y :: fp)) at 1.
  rewrite (span_app isDigit (y :: fp) [] Dfp I).
  cbn [app]. unfold decimal_value, exponent_part.
  replace (0 <=? 0 - Z.of_nat (length (y :: fp)))%Z with false
    by (symmetry; apply Z.leb_gt; cbn [length]; lia).
  now replace (- (0 - Z.of_nat (length (y :: fp))))%Z
    with (Z.of_nat (length (y :: fp))) by lia.
Qed.

(** The numbers [extractOutput] returns are the decimals written after the
    two labels in the cleaned text: the captures of the two matches, each at
    the first place where its label is followed by digits, a dot and
    digits, and taken to the last digit, are [ip.fp] and [ip'.fp'], and
    each number returned is the binary64 value nearest to
    [digits / 10 ^ n], where [digits] is the integer made of the digits
    before and after the dot and [n] the number of digits after it.  The
    world is left as it was. *)
Theorem extractOutput_returns_written_numbers (stdout : jsstring)
    (w w' : world) (r : Api.conversion) :
  Api.extractOutput stdout w = (Returned r, w') ->
  exists a b ip fp ip' fp',
    str_match (Api.cleanOutput stdout) Api.reRate = Some a
    /\ str_match (Api.cleanOutput stdout) Api.reAmount = Some b
    /\ placed rateLabel (Api.cleanOutput stdout) a
    /\ placed amountLabel (Api.cleanOutput stdout) b
    /\ group1 a = Some (ip ++ [46%N] ++ fp)
    /\ group1 b = Some (ip' ++ [46%N] ++ fp')
    /\ (ip <> [] /\ fp <> [] /\ ip' <> [] /\ fp' <> [])
    /\ forallb isDigit (ip ++ fp ++ ip' ++ fp') = true
    /\ Api.rate r = written ip fp
    /\ Api.convertedAmount r = written ip' fp'
    /\ w' = w.
Proof.
  rewrite extractOutput_eq.
  destruct (str_match (Api.cleanOutput stdout) Api.reRate) as [a|] eqn:Ea;
    [|discriminate].
  destruct (str_match (Api.cleanOutput stdout) Api.reAmount) as [b|] eqn:Eb;
    [|discriminate].
  intros H; inversion H; subst; clear H.
  rewrite reRate_labelled in Ea. rewrite reAmount_labelled in Eb.
  unfold str_match, exec in Ea, Eb. rewrite exec_at_labelled in Ea, Eb.
  pose proof (find_labelled_place _ _ _ Ea) as Pa.
  pose proof (find_labelled_place _ _ _ Eb) as Pb.
  destruct Pa as (pre & cap & rest & Hs & Hi & Hw & Hg & Hshape & Hrest & Hl).
  destruct Pb
    as (pre' & cap' & rest' & Hs' & Hi' & Hw' & Hg' & Hshape' & Hrest' & Hl').
  destruct (decimal_shape_split _ Hshape)
    as (ip & fp & Hcap & Nip & Nfp & Dip & Dfp).
  destruct (decimal_shape_split _ Hshape')
    as (ip' & fp' & Hcap' & Nip' & Nfp' & Dip' & Dfp').
  exists a, b, ip, fp, ip', fp'.
  split; [reflexivity|]. split; [reflexivity|].
  split; [exists pre, cap, rest; auto 10|].
  split; [exists pre', cap', rest'; auto 10|].
  split; [now rewrite Hg, Hcap|]. split; [now rewrite Hg', Hcap'|].
  split; [auto|]. split.
  - rewrite !forallb_app.
    repeat (apply andb_true_iff; split); assumption.
  - cbn [Api.rate Api.convertedAmount]. unfold Api.capture1.
    rewrite Hg, Hg', Hcap, Hcap'.
    split; [now apply parseFloat_decimal|].
    split; [now apply parseFloat_decimal|reflexivity].
Qed.

End Matches.

(* ================================================================== *)
(** * Validation and NaN *)
(* ================================================================== *)

Section NaN.

Lemma Prim2SF_nan (a : number) : is_nan a = true -> Prim2SF a = S754_nan.
Proof. intros H. unfold Prim2SF. now rewrite H. Qed.

Lemma le_nan_l (a b : number) : is_nan a = true -> le a b = false.
Proof.
  intros H. unfold le. rewrite leb_spec, (Prim2SF_nan a H). reflexivity.
Qed.

Lemma le_nan_r (a b : number) : is_nan b = true -> le a b = false.
Proof.
  intros H. unfold le. rewrite leb_spec, (Prim2SF_nan b H).
  unfold SFleb. now destruct (Prim2SF a).
Qed.

(** NaN passes every numeric check of [validateInput], since each check is
    a comparison and every comparison with NaN is false: with different
    currencies, the input is accepted as soon as each number is NaN or
    satisfies the checks it takes part in.  A command line whose amount
    and rates do not parse as numbers is thus accepted. *)
Theorem validateInput_accepts_nan (sourceCurrency targetCurrency : jsstring)
    (rateMin rateMax amount : number) (w : world) :
  sourceCurrency <> targetCurrency ->
  is_nan rateMin = true \/ is_nan rateMax = true \/ lt rateMin rateMax = true ->
  is_nan amount = true \/ lt 0%float amount = true ->
  is_nan rateMin = true \/ lt 0%float rateMin = true ->
  is_nan rateMax = true \/ lt 0%float rateMax = true ->
  Index.validateInput sourceCurrency targetCurrency rateMin rateMax amount w
  = (Returned tt, w).
Proof.
  intros Hne Horder Hamount Hmin Hmax.
  rewrite validateInput_eq, (str_eqb_neq Hne).
  assert (E1 : ge rateMin rateMax = false).
  { unfold ge. destruct Horder as [H|[H|H]];
      [now apply le_nan_r|now apply le_nan_l|now apply ltb_not_leb]. }
  assert (E2 : le amount 0%float = false)
    by (destruct Hamount as [H|H]; [now apply le_nan_l|now apply ltb_not_leb]).
  assert (E3 : le rateMin 0%float = false)
    by (destruct Hmin as [H|H]; [now apply le_nan_l|now apply ltb_not_leb]).
  assert (E4 : le rateMax 0%float = false)
    by (destruct Hmax as [H|H]; [now apply le_nan_l|now apply ltb_not_leb]).
  now rewrite E1, E2, E3, E4.
Qed.

End NaN.

(* ================================================================== *)
(** * Instances *)
(* ================================================================== *)

(** The submission of the test that is answered 500 with no body. *)
Lemma submitTask_failure_witness :
  Api.submitTask (js "key") (fun _ => false) (js "int main() { return 0; }") (js "0.85 0.90 100")
    {| pending := [Reply 500 VUndefined]; trace := [] |} =
  (Exited 1,
   {| pending := [];
      trace := [] ++ [EvRequest (submitRequest (js "key")
                                   (js "int main() { return 0; }")
                                   (js "0.85 0.90 100"))]
                  ++ apiFailure (js "Error submitting task")
                       (failurePayload (Reply 500 VUndefined)) |}).
Proof.
  apply (submitTask_failure (js "key") (fun _ => false) (js "int main() { return 0; }")
           (js "0.85 0.90 100") (Reply 500 VUndefined) [] []).
  reflexivity.
Defined.

(** One round on [InProgress], then a status query answered 500. *)
Lemma poller_query_failure_witness :
  Api.waitForTaskCompletion (js "key") (fun _ => false) (VStr (js "12345"))
    {| pending := map objectReply [[(js "Status", VStr (js "InProgress"))]]
                    ++ Reply 500 VUndefined :: [statusReply (js "Completed")];
       trace := [] |} =
  (Exited 1,
   {| pending := [statusReply (js "Completed")];
      trace := [] ++ flat_map (fun b => pollRoundOf (js "key") (js "12345")
                                          (observed b))
                       [[(js "Status", VStr (js "InProgress"))]]
                  ++ [EvRequest (statusRequest (js "key") (js "12345"))]
                  ++ apiFailure (js "Error checking task status")
                       (failurePayload (Reply 500 VUndefined)) |}).
Proof.
  apply (poller_query_failure (js "key") (fun _ => false) (js "12345")
           [[(js "Status", VStr (js "InProgress"))]] (Reply 500 VUndefined)
           [statusReply (js "Completed")] []);
    reflexivity.
Defined.

(** A body without Status, a status in lower case and a null status all
    keep the poller polling. *)
Lemma poller_keeps_polling_witness :
  Api.waitForTaskCompletion (js "key") (fun _ => false) (VStr (js "12345"))
    {| pending := map objectReply
                    [[]; [(js "Status", VStr (js "completed"))];
                     [(js "Status", VNull)]];
       trace := [] |} =
  (Pending,
   {| pending := [];
      trace := [] ++ flat_map (fun b => pollRoundOf (js "key") (js "12345")
                                          (observed b))
                       [[]; [(js "Status", VStr (js "completed"))];
                        [(js "Status", VNull)]]
                  ++ [EvRequest (statusRequest (js "key") (js "12345"))] |}).
Proof.
  apply (poller_keeps_polling (js "key") (fun _ => false) (js "12345")
           [[]; [(js "Status", VStr (js "completed"))]; [(js "Status", VNull)]]
           []).
  reflexivity.
Defined.

(** The metadata query cannot reach the service. *)
Lemma getTaskOutput_metadata_failure_witness :
  Api.getTaskOutput (js "key") (fun _ => false) (VStr (js "12345"))
    {| pending := [NetworkError (js "connect ECONNREFUSED")]; trace := [] |} =
  (Exited 1,
   {| pending := [];
      trace := [] ++ [EvRequest (outputsRequest (js "key") (js "12345"))]
                  ++ apiFailure (js "Error getting task output")
                       (failurePayload
                          (NetworkError (js "connect ECONNREFUSED"))) |}).
Proof.
  apply (getTaskOutput_metadata_failure (js "key") (fun _ => false) (js "12345")
           (NetworkError (js "connect ECONNREFUSED")) [] []).
  reflexivity.
Defined.

(** The text is gone: the download is answered 404 with a body. *)
Lemma getTaskOutput_download_failure_witness :
  Api.getTaskOutput (js "key") (fun _ => false) (VStr (js "12345"))
    {| pending := [Reply 200 (VObj [(js "Stdout", VStr (js "https://example.com/stdout"))]);
                   Reply 404 (VStr (js "Not Found"))];
       trace := [] |} =
  (Exited 1,
   {| pending := [];
      trace := [] ++ [EvRequest (outputsRequest (js "key") (js "12345"));
                      EvRequest (downloadRequest (js "https://example.com/stdout"))]
                  ++ apiFailure (js "Error fetching output stream")
                       (failurePayload (Reply 404 (VStr (js "Not Found")))) |}).
Proof.
  apply (getTaskOutput_download_failure (js "key") (fun _ => false) (js "12345")
           (stdoutUrl := js "https://example.com/stdout") 200
           [(js "Stdout", VStr (js "https://example.com/stdout"))]
           (Reply 404 (VStr (js "Not Found"))) [] []);
    reflexivity || discriminate.
Defined.

(** The download delivers a JSON object. *)
Lemma getTaskOutput_body_not_text_witness :
  exists message,
    Api.getTaskOutput (js "key") (fun _ => false) (VStr (js "12345"))
      {| pending := [Reply 200 (VObj [(js "Stdout", VStr (js "https://example.com/stdout"))]);
                     Reply 200 (VObj [])];
         trace := [] |} =
    (Exited 1,
     {| pending := [];
        trace := [] ++ [EvRequest (outputsRequest (js "key") (js "12345"));
                        EvRequest (downloadRequest (js "https://example.com/stdout"))]
                    ++ apiFailure (js "Error getting task output")
                         (VStr message) |}).
Proof.
  apply (getTaskOutput_body_not_text (js "key") (fun _ => false) (js "12345")
           (stdoutUrl := js "https://example.com/stdout") 200 200
           [(js "Stdout", VStr (js "https://example.com/stdout"))]
           (body := VObj []) [] []);
    try reflexivity; discriminate.
Defined.

(** The output stage of the test. *)
Lemma getTaskOutput_composes_witness :
  Api.getTaskOutput (js "key") (fun _ => false) (VStr (js "12345"))
    {| pending := [Reply 200 (VObj [(js "Stdout", VStr (js "https://example.com/stdout"))]);
                   Reply 200 (VStr stdoutData)];
       trace := [] |} =
  Api.extractOutput stdoutData
    {| pending := [];
       trace := [] ++ [EvRequest (outputsRequest (js "key") (js "12345"));
                       EvRequest {| method := GET;
                                    url := js "https://example.com/stdout";
                                    body := None; headers := [] |}] |}.
Proof.
  apply (getTaskOutput_composes (js "key") (fun _ => false) (js "12345")
           (stdoutUrl := js "https://example.com/stdout") stdoutData 200 200
           [(js "Stdout", VStr (js "https://example.com/stdout"))] [] []);
    reflexivity || discriminate.
Defined.

(** The life cycle of the test, with one round on [InProgress]. *)
Lemma executeTask_composes_witness :
  Index.executeTask (js "key") (fun _ => false) (js "int main() { return 0; }") (js "0.85 0.90 100")
    {| pending :=
         Reply 200 (VObj [(js "TaskID", VStr (js "12345"))])
           :: map statusReply ([js "InProgress"] ++ [js "Completed"])
           ++ Reply 200 (VObj [(js "Stdout", VStr (js "https://example.com/stdout"))])
           :: Reply 200 (VStr stdoutData) :: [];
       trace := [] |} =
  Api.extractOutput stdoutData
    {| pending := [];
       trace := [] ++ submission (js "key") (js "int main() { return 0; }")
                        (js "0.85 0.90 100") (js "12345")
                  ++ pollRounds (js "key") (js "12345") [js "InProgress"]
                  ++ completedRound (js "key") (js "12345")
                  ++ [EvRequest (outputsRequest (js "key") (js "12345"));
                      EvRequest (downloadRequest (js "https://example.com/stdout"))] |}.
Proof.
  apply (executeTask_composes (js "key") (fun _ => false) (js "int main() { return 0; }")
           (js "0.85 0.90 100") (js "12345")
           (stdoutUrl := js "https://example.com/stdout") stdoutData
           [js "InProgress"]
           [(js "Stdout", VStr (js "https://example.com/stdout"))] [] []);
    reflexivity || discriminate.
Defined.

(** A submission answered [200 {}]. *)
Lemma submitTask_without_task_id_witness :
  Api.submitTask (js "key") (fun _ => false) (js "int main() { return 0; }") (js "0.85 0.90 100")
    {| pending := [Reply 200 (VObj [])]; trace := [] |} =
  (Returned VUndefined,
   {| pending := [];
      trace := [] ++ submission (js "key") (js "int main() { return 0; }")
                       (js "0.85 0.90 100") (js "undefined") |}).
Proof.
  apply (submitTask_without_task_id (js "key") (fun _ => false) (js "int main() { return 0; }")
           (js "0.85 0.90 100") 200 [] [] []);
    reflexivity.
Defined.

(** Amount and rates that are all NaN. *)
Lemma validateInput_accepts_nan_witness :
  Index.validateInput (js "USD") (js "EUR") nan nan nan idle = (Returned tt, idle).
Proof.
  apply validateInput_accepts_nan;
    [intros H; vm_compute in H; discriminate H
    |left; reflexivity|left; reflexivity|left; reflexivity|left; reflexivity].
Defined.

(** The amount of ["xx Converted Amount: 12.50Ux"]. *)
Lemma extraction_match_leftmost_and_whole_witness :
  placed amountLabel (js "xx Converted Amount: 12.50Ux")
    {| index := 3; whole := js "Converted Amount: 12.50";
       group1 := Some (js "12.50") |}.
Proof.
  apply (proj2 (extraction_match_leftmost_and_whole
                  (js "xx Converted Amount: 12.50Ux")
                  {| index := 3; whole := js "Converted Amount: 12.50";
                     group1 := Some (js "12.50") |})).
  vm_compute. reflexivity.
Defined.

(** The numbers of the test text: 0.85 is 085 / 10^2 and 85.00 is
    8500 / 10^2. *)
Lemma extractOutput_returns_written_numbers_witness :
  exists a b ip fp ip' fp',
    str_match (Api.cleanOutput stdoutData) Api.reRate = Some a
    /\ str_match (Api.cleanOutput stdoutData) Api.reAmount = Some b
    /\ placed rateLabel (Api.cleanOutput stdoutData) a
    /\ placed amountLabel (Api.cleanOutput stdoutData) b
    /\ group1 a = Some (ip ++ [46%N] ++ fp)
    /\ group1 b = Some (ip' ++ [46%N] ++ fp')
    /\ (ip <> [] /\ fp <> [] /\ ip' <> [] /\ fp' <> [])
    /\ forallb isDigit (ip ++ fp ++ ip' ++ fp') = true
    /\ 0.85%float = written ip fp
    /\ 85%float = written ip' fp'
    /\ idle = idle.
Proof.
  apply (extractOutput_returns_written_numbers stdoutData idle (w' := idle)
           (r := {| Api.rate := 0.85%float; Api.convertedAmount := 85%float |})).
  vm_compute. reflexivity.
Defined.

(* ================================================================== *)
(** * The chain stops at the first failure *)
(* ================================================================== *)

Section FirstFailure.

Variable API_KEY : jsstring.
Variable accepts : jsstring -> bool.

(** In [executeTask] a failed call ends the run where it happens: a failed
    submission is followed by no status query, a failed status query by no
    further query and no outputs query, a failed metadata query by no
    download; each time the run ends with the error line of the stage that
    failed and the exit with status 1, and the later replies are left
    unconsumed. *)
Theorem executeTask_stops_at_first_failure (applicationCode args taskId : jsstring)
    (bodies : list (list (jsstring * jsval))) (statuses : list jsstring)
    (rep : reply) (rest : list reply) (tr : list event) :
  failed rep = true ->
  forallb (fun b => keepsPolling (observed b)) bodies = true ->
  forallb nonterminal statuses = true ->
  Index.executeTask API_KEY accepts applicationCode args
    {| pending := rep :: rest; trace := tr |} =
  (Exited 1,
   {| pending := rest;
      trace := tr ++ [EvRequest (submitRequest API_KEY applicationCode args)]
                  ++ apiFailure (js "Error submitting task")
                       (failurePayload rep) |})
  /\ Index.executeTask API_KEY accepts applicationCode args
       {| pending := Reply 200 (VObj [(js "TaskID", VStr taskId)])
                       :: map objectReply bodies ++ rep :: rest;
          trace := tr |} =
     (Exited 1,
      {| pending := rest;
         trace := tr ++ submission API_KEY applicationCode args taskId
                    ++ flat_map (fun b => pollRoundOf API_KEY taskId (observed b))
                         bodies
                    ++ [EvRequest (statusRequest API_KEY taskId)]
                    ++ apiFailure (js "Error checking task status")
                         (failurePayload rep) |})
  /\ Index.executeTask API_KEY accepts applicationCode args
       {| pending := Reply 200 (VObj [(js "TaskID", VStr taskId)])
                       :: map statusReply (statuses ++ [js "Completed"])
                       ++ rep :: rest;
          trace := tr |} =
     (Exited 1,
      {| pending := rest;
         trace := tr ++ submission API_KEY applicationCode args taskId
                    ++ pollRounds API_KEY taskId statuses
                    ++ completedRound API_KEY taskId
                    ++ [EvRequest (outputsRequest API_KEY taskId)]
                    ++ apiFailure (js "Error getting task output")
                         (failurePayload rep) |}).
Proof.
  intros Hrep Hbodies Hstatuses. unfold Index.executeTask. split; [|split].
  - unfold Api.submitTask, Api.postTask, axios_post. rewrite tasks_url_sent.
    rewrite !bind_run, failed_call by exact Hrep. reflexivity.
  - rewrite bind_run, submitTask_2xx by reflexivity. cbv zeta.
    change (lookup (js "TaskID") [(js "TaskID", VStr taskId)])
      with (Some (VStr taskId)).
    rewrite bind_run. unfold Api.waitForTaskCompletion. cbn [pending].
    rewrite poller_fuel_of, waitLoop_rounds_of by exact Hbodies.
    cbn [length Api.waitLoop].
    rewrite bind_run, fetchTaskStatus_failed by exact Hrep.
    unfold submission. cbn [to_string]. now rewrite <- !app_assoc.
  - rewrite bind_run, submitTask_2xx by reflexivity. cbv zeta.
    change (lookup (js "TaskID") [(js "TaskID", VStr taskId)])
      with (Some (VStr taskId)).
    rewrite bind_run. unfold Api.waitForTaskCompletion. cbn [pending].
    rewrite poller_fuel, poller_script, waitLoop_rounds by exact Hstatuses.
    rewrite waitLoop_completed.
    unfold Api.getTaskOutput, axios_get.
    rewrite try_template, task_url_sent, failed_call by exact Hrep.
    unfold submission. cbn [to_string]. now rewrite <- !app_assoc.
Qed.

End FirstFailure.

(** A service that answers 503: at the submission, at the second status
    query, and at the metadata query. *)
Lemma executeTask_stops_at_first_failure_witness :
  Index.executeTask (js "key") (fun _ => false)
    (js "int main() { return 0; }") (js "0.85 0.90 100")
    {| pending := Reply 503 VNull :: [statusReply (js "Completed")];
       trace := [] |} =
  (Exited 1,
   {| pending := [statusReply (js "Completed")];
      trace := [] ++ [EvRequest (submitRequest (js "key")
                                   (js "int main() { return 0; }")
                                   (js "0.85 0.90 100"))]
                  ++ apiFailure (js "Error submitting task")
                       (failurePayload (Reply 503 VNull)) |})
  /\ Index.executeTask (js "key") (fun _ => false)
       (js "int main() { return 0; }") (js "0.85 0.90 100")
       {| pending := Reply 200 (VObj [(js "TaskID", VStr (js "12345"))])
                       :: map objectReply [[(js "Status", VStr (js "Queued"))]]
                       ++ Reply 503 VNull :: [statusReply (js "Completed")];
          trace := [] |} =
     (Exited 1,
      {| pending := [statusReply (js "Completed")];
         trace := [] ++ submission (js "key") (js "int main() { return 0; }")
                          (js "0.85 0.90 100") (js "12345")
                    ++ flat_map (fun b => pollRoundOf (js "key") (js "12345")
                                            (observed b))
                         [[(js "Status", VStr (js "Queued"))]]
                    ++ [EvRequest (statusRequest (js "key") (js "12345"))]
                    ++ apiFailure (js "Error checking task status")
                         (failurePayload (Reply 503 VNull)) |})
  /\ Index.executeTask (js "key") (fun _ => false)
       (js "int main() { return 0; }") (js "0.85 0.90 100")
       {| pending := Reply 200 (VObj [(js "TaskID", VStr (js "12345"))])
                       :: map statusReply ([js "Queued"] ++ [js "Completed"])
                       ++ Reply 503 VNull :: [statusReply (js "Completed")];
          trace := [] |} =
     (Exited 1,
      {| pending := [statusReply (js "Completed")];
         trace := [] ++ submission (js "key") (js "int main() { return 0; }")
                          (js "0.85 0.90 100") (js "12345")
                    ++ pollRounds (js "key") (js "12345") [js "Queued"]
                    ++ completedRound (js "key") (js "12345")
                    ++ [EvRequest (outputsRequest (js "key") (js "12345"))]
                    ++ apiFailure (js "Error getting task output")
                         (failurePayload (Reply 503 VNull)) |}).
Proof.
  apply (executeTask_stops_at_first_failure (js "key") (fun _ => false)
           (js "int main() { return 0; }") (js "0.85 0.90 100") (js "12345")
           [[(js "Status", VStr (js "Queued"))]] [js "Queued"]
           (Reply 503 VNull) [statusReply (js "Completed")] []);
    reflexivity.
Defined.

(** The life cycle of the test: the outputs query comes after the line
    [Task status: Completed]. *)
Lemma outputs_only_after_completed_witness :
  In (EvLog [VStr (js "Task status: Completed")])
     (submission (js "key") (js "int main() { return 0; }")
        (js "0.85 0.90 100") (js "12345")
      ++ pollRounds (js "key") (js "12345") [js "InProgress"]
      ++ completedRound (js "key") (js "12345")).
Proof.
  apply (@outputs_only_after_completed (js "key") (fun _ => false)
           (js "int main() { return 0; }") (js "0.85 0.90 100")
           {| pending :=
                [Reply 200 (VObj [(js "TaskID", VStr (js "12345"))]);
                 statusReply (js "InProgress");
                 statusReply (js "Completed");
                 Reply 200 (VObj [(js "Stdout",
                                   VStr (js "https://example.com/stdout"))]);
                 Reply 200 (VStr stdoutData)];
              trace := [] |}
           (VStr (js "12345"))
           (submission (js "key") (js "int main() { return 0; }")
              (js "0.85 0.90 100") (js "12345")
            ++ pollRounds (js "key") (js "12345") [js "InProgress"]
            ++ completedRound (js "key") (js "12345"))
           [EvRequest (downloadRequest (js "https://example.com/stdout"))]
           (outputsRequest (js "key") (js "12345")));
    vm_compute; reflexivity.
Defined.

(** A body whose [TaskID] and [Status] are [{ toString: null }]: the
    submitter throws, and so does the poller. *)
Lemma unrendered_value_throws_witness :
  Api.submitTask (js "key") (fun _ => false)
    (js "int main() { return 0; }") (js "0.85 0.90 100")
    {| pending := Reply 200 (VObj [(js "TaskID", VObj [(js "toString", VNull)]);
                                   (js "Status", VObj [(js "toString", VNull)])])
                    :: [];
       trace := [] |} =
  (Threw (type_error (js "Cannot convert object to primitive value")),
   {| pending := [];
      trace := [] ++ [EvRequest (submitRequest (js "key")
                                   (js "int main() { return 0; }")
                                   (js "0.85 0.90 100"))] |})
  /\ Api.waitForTaskCompletion (js "key") (fun _ => false) (VStr (js "12345"))
       {| pending := Reply 200 (VObj [(js "TaskID", VObj [(js "toString", VNull)]);
                                      (js "Status", VObj [(js "toString", VNull)])])
                       :: [];
          trace := [] |} =
     (Threw (type_error (js "Cannot convert object to primitive value")),
      {| pending := [];
         trace := [] ++ [EvRequest (statusRequest (js "key") (js "12345"))] |}).
Proof.
  split.
  - apply (proj1 (@unrendered_value_throws (js "key") (fun _ => false)
                    (js "int main() { return 0; }") (js "0.85 0.90 100")
                    (js "12345") 200
                    [(js "TaskID", VObj [(js "toString", VNull)]);
                     (js "Status", VObj [(js "toString", VNull)])]
                    (VObj [(js "toString", VNull)]) [] []
                    eq_refl eq_refl)).
    reflexivity.
  - apply (proj2 (@unrendered_value_throws (js "key") (fun _ => false)
                    (js "int main() { return 0; }") (js "0.85 0.90 100")
                    (js "12345") 200
                    [(js "TaskID", VObj [(js "toString", VNull)]);
                     (js "Status", VObj [(js "toString", VNull)])]
                    (VObj [(js "toString", VNull)]) [] []
                    eq_refl eq_refl)).
    reflexivity.
Defined.

(** A [Stdout] that names a file. *)
Lemma getTaskOutput_unsendable_url_witness :
  exists message,
    Api.getTaskOutput (js "key") (fun _ => false) (VStr (js "12345"))
      {| pending := [Reply 200 (VObj [(js "Stdout", VStr (js "stdout.txt"))]);
                     Reply 200 (VStr stdoutData)];
         trace := [] |} =
    (Exited 1,
     {| pending := [Reply 200 (VStr stdoutData)];
        trace := [] ++ [EvRequest (outputsRequest (js "key") (js "12345"))]
                    ++ apiFailure (js "Error fetching output stream")
                         (VStr message) |}).
Proof.
  apply (@getTaskOutput_unsendable_url (js "key") (fun _ => false)
           (js "12345") (js "stdout.txt") 200
           [(js "Stdout", VStr (js "stdout.txt"))]
           [Reply 200 (VStr stdoutData)] []);
    reflexivity || discriminate.
Defined.

(** The submission and the download of the test, answered with status
    0. *)
Lemma status_zero_resolves_witness :
  Api.submitTask (js "key") (fun _ => false)
    (js "int main() { return 0; }") (js "0.85 0.90 100")
    {| pending := Reply 0 (VObj [(js "TaskID", VStr (js "12345"))]) :: [];
       trace := [] |} =
  (Returned (VStr (js "12345")),
   {| pending := [];
      trace := [] ++ submission (js "key") (js "int main() { return 0; }")
                       (js "0.85 0.90 100") (js "12345") |})
  /\ Api.getTaskOutput (js "key") (fun _ => false) (VStr (js "12345"))
       {| pending := [Reply 200 (VObj [(js "Stdout",
                                        VStr (js "https://example.com/stdout"))]);
                      Reply 0 (VStr stdoutData)];
          trace := [] |} =
     Api.extractOutput stdoutData
       {| pending := [];
          trace := [] ++ [EvRequest (outputsRequest (js "key") (js "12345"));
                          EvRequest (downloadRequest
                                       (js "https://example.com/stdout"))] |}.
Proof.
  split.
  - apply (proj1 (@status_zero_resolves (js "key") (fun _ => false)
                    (js "int main() { return 0; }") (js "0.85 0.90 100")
                    (js "12345") (js "12345")
                    (js "https://example.com/stdout") stdoutData 200
                    [(js "TaskID", VStr (js "12345"))] [] [])).
    reflexivity.
  - apply (proj2 (@status_zero_resolves (js "key") (fun _ => false)
                    (js "int main() { return 0; }") (js "0.85 0.90 100")
                    (js "12345") (js "12345")
                    (js "https://example.com/stdout") stdoutData 200
                    [(js "Stdout", VStr (js "https://example.com/stdout"))]
                    [] []));
      reflexivity || discriminate.
Defined.
